(** * Account funding, balance and session integrity

    A shallow embedding of the request handlers of the banking
    application: [src/server/routers/account.ts] (card checks, funding,
    transaction query), [src/server/routers/auth.ts] (signup, login,
    logout, date-of-birth validation) and the tRPC context module
    (cookie parsing, session resolution, the authorization gate).

    The relational store is a record of row lists with SQLite's
    AUTOINCREMENT counters; handlers run in a state-and-error monad in
    which a thrown [TRPCError] keeps the writes made before it (the
    source wraps nothing in a database transaction).  JavaScript numbers
    are IEEE binary64 (primitive floats); the handlers use them through
    a small interface, so that what does not depend on the arithmetic is
    proved for any implementation of it.  Texts are strings of 8-bit
    characters, read as ASCII.  The libraries the handlers call (password
    hashing, token signing, the SSN cipher, the address check of the
    schema library), the environment, the clock and the time zone are the
    fields of a [Runtime] record. *)

From Stdlib Require Import ZArith Lia List String Ascii Bool.
From Stdlib Require Import Floats Uint63.
From Stdlib.Strings Require Import Byte.
From Stdlib Require Import Sorted Permutation.
Import ListNotations.

Set Warnings "-inexact-float".
Local Open Scope string_scope.
Local Open Scope Z_scope.

(* ===================================================================== *)
(** ** JavaScript numbers *)
(* ===================================================================== *)

Module JsNum.

(** The arithmetic the handlers use on [number] values. *)
Class JsNumber (num : Type) : Type := {
  num_of_Z : Z -> num;                 (* integer literals: 0, 100, 10000 *)
  num_add : num -> num -> num;         (* a + b *)
  num_mul : num -> num -> num;         (* a * b *)
  num_div : num -> num -> num;         (* a / b *)
  Math_round : num -> num;             (* Math.round: nearest integer, ties up *)
  num_leb : num -> num -> bool;        (* a <= b *)
  num_isNaN : num -> bool              (* isNaN(a) *)
}.

(** The literal [0.01]: a correctly rounded division gives the double
    nearest to 1/100, which is what the literal denotes. *)
Definition num_cent {num} `{JsNumber num} : num :=
  num_div (num_of_Z 1) (num_of_Z 100).

(** [Math.round(x * 100) / 100], the two-decimal rounding of account.ts. *)
Definition round2 {num} `{JsNumber num} (x : num) : num :=
  num_div (Math_round (num_mul x (num_of_Z 100))) (num_of_Z 100).

(** *** IEEE 754 binary64 *)

Definition float_of_Z (z : Z) : float :=
  match z with
  | Z0 => PrimFloat.zero
  | Zpos _ => PrimFloat.of_uint63 (Uint63.of_Z z)
  | Zneg p => PrimFloat.opp (PrimFloat.of_uint63 (Uint63.of_Z (Zpos p)))
  end.

(** [Math.round] on a double [(-1)^s * m * 2^e]: the integer
    [floor(x + 1/2)], computed exactly.  A value with [e >= 0] is
    already integral; zeros, infinities and NaN are returned as they are;
    a negative value that rounds to zero gives [-0]. *)
Definition float_round (x : float) : float :=
  match Prim2SF x with
  | S754_finite s m e =>
      if 0 <=? e then x
      else
        let sm := if s then Zneg m else Zpos m in
        let n := (2 * sm + 2 ^ (- e)) / 2 ^ (1 - e) in
        if (n =? 0) && s then PrimFloat.opp PrimFloat.zero else float_of_Z n
  | _ => x
  end.

#[export] Instance Binary64 : JsNumber float := {
  num_of_Z := float_of_Z;
  num_add := PrimFloat.add;
  num_mul := PrimFloat.mul;
  num_div := PrimFloat.div;
  Math_round := float_round;
  num_leb := PrimFloat.leb;
  num_isNaN := PrimFloat.is_nan
}.

End JsNum.
Import JsNum.

(* ===================================================================== *)
(** ** JavaScript strings *)
(* ===================================================================== *)

Module JsString.

Definition is_digit (c : ascii) : bool :=
  let n := N_of_ascii c in ((48 <=? n) && (n <=? 57))%N.

(** [/^\d{n}$/.test(s)] *)
Fixpoint digits_n (n : nat) (s : string) : bool :=
  match n, s with
  | O, EmptyString => true
  | S k, String c r => is_digit c && digits_n k r
  | _, _ => false
  end.

(** [parseInt(c, 10)] on a one-character string: the digit, or NaN. *)
Definition parseInt10 (c : ascii) : option Z :=
  if is_digit c then Some (Z.of_N (N_of_ascii c) - 48) else None.

(** [s.split(sep)] for a separator of at least one character.
    [skip] counts the characters of a separator still to be dropped and
    [cur] is the piece read so far. *)
Fixpoint split_go (sep s : string) (skip : nat) (cur : string) : list string :=
  match s with
  | EmptyString => [cur]
  | String c r =>
      match skip with
      | S k => split_go sep r k cur
      | O =>
          if String.prefix sep s
          then cur :: split_go sep r (String.length sep - 1) EmptyString
          else split_go sep r O (cur ++ String c EmptyString)%string
      end
  end.

Definition split (sep s : string) : list string := split_go sep s O EmptyString.

(** [const [key, ...val] = c.split("="); [key, val.join("=")]]: the text
    before the first ["="] and everything after it. *)
Fixpoint cut_eq (c : string) : string * string :=
  match c with
  | EmptyString => (EmptyString, EmptyString)
  | String a r =>
      if Ascii.eqb a "="%char then (EmptyString, r)
      else let '(k, v) := cut_eq r in (String a k, v)
  end.

(** The character of a decimal digit. *)
Definition digit_char (d : Z) : ascii := ascii_of_N (Z.to_N (48 + d)).

(** The decimal digits of a non-negative integer, most significant
    first; [fuel] bounds the number of digits. *)
Fixpoint decimal_digits (fuel : nat) (n : Z) : string :=
  match fuel with
  | O => EmptyString
  | S k =>
      if n <? 10 then String (digit_char n) EmptyString
      else (decimal_digits k (n / 10) ++ String (digit_char (n mod 10)) EmptyString)%string
  end.

(** [n.toString()] for a non-negative integer: a number has no more
    decimal digits than binary ones. *)
Definition Number_toString (n : Z) : string :=
  decimal_digits (S (Z.to_nat (Z.log2 n))) n.

(** [s.padStart(targetLength, pad)] for a one-character pad string. *)
Definition padStart (targetLength : nat) (pad : ascii) (s : string) : string :=
  (string_of_list_ascii (repeat pad (targetLength - String.length s)) ++ s)%string.

(** One hexadecimal digit, lower case, and the two of a byte. *)
Definition hex_char (n : N) : ascii :=
  if (n <? 10)%N then ascii_of_N (48 + n) else ascii_of_N (87 + n).

Definition hex_of_byte (b : Byte.byte) : string :=
  let n := Byte.to_N b in
  String (hex_char (n / 16)) (String (hex_char (n mod 16)) EmptyString).

(** [bytes.toString("hex")] *)
Fixpoint hex_of_bytes (bytes : list Byte.byte) : string :=
  match bytes with
  | [] => EmptyString
  | b :: rest => (hex_of_byte b ++ hex_of_bytes rest)%string
  end.

Definition hex_value (c : ascii) : option Z :=
  let n := Z.of_N (N_of_ascii c) in
  if (48 <=? n) && (n <=? 57) then Some (n - 48)
  else if (97 <=? n) && (n <=? 102) then Some (n - 87)
  else if (65 <=? n) && (n <=? 70) then Some (n - 55)
  else None.

(** The digits [parseInt(s, 16)] reads: it stops at the first character
    that is not a hexadecimal digit. *)
Fixpoint parseInt16_go (s : string) (acc : Z) : Z :=
  match s with
  | EmptyString => acc
  | String c r =>
      match hex_value c with
      | Some v => parseInt16_go r (16 * acc + v)
      | None => acc
      end
  end.

(** [parseInt(s, 16)] on a string without sign, blanks or [0x]: NaN
    ([None]) when it does not start with a hexadecimal digit.  The value
    is exact up to 13 digits. *)
Definition parseInt16 (s : string) : option Z :=
  match s with
  | EmptyString => None
  | String c _ =>
      match hex_value c with
      | Some _ => Some (parseInt16_go s 0)
      | None => None
      end
  end.

(** A string is truthy when it is not empty. *)
Definition truthy (s : string) : bool := negb (String.eqb s EmptyString).

(** ASCII letters, and [s.toLowerCase()] and [s.toUpperCase()] on ASCII
    text: the letters change case, every other character stays. *)
Definition is_upper (c : ascii) : bool :=
  let n := N_of_ascii c in ((65 <=? n) && (n <=? 90))%N.

Definition is_lower (c : ascii) : bool :=
  let n := N_of_ascii c in ((97 <=? n) && (n <=? 122))%N.

Definition lower_char (c : ascii) : ascii :=
  if is_upper c then ascii_of_N (N_of_ascii c + 32) else c.

Definition upper_char (c : ascii) : ascii :=
  if is_lower c then ascii_of_N (N_of_ascii c - 32) else c.

Fixpoint map_chars (f : ascii -> ascii) (s : string) : string :=
  match s with
  | EmptyString => EmptyString
  | String c r => String (f c) (map_chars f r)
  end.

Definition toLowerCase (s : string) : string := map_chars lower_char s.

Definition toUpperCase (s : string) : string := map_chars upper_char s.

(** [s.endsWith(suffix)] *)
Definition endsWith (s suffix : string) : bool :=
  let n := String.length s in
  let m := String.length suffix in
  (m <=? n)%nat && String.eqb (substring (n - m) m s) suffix.

(** [regex.test(s)] for a regular expression that is one character class:
    some character of [s] is in the class. *)
Definition has_char (class : ascii -> bool) (s : string) : bool :=
  existsb class (list_ascii_of_string s).

(** Text in which every character is ASCII; on such text the operations
    above are those of JavaScript, whose strings are UTF-16. *)
Definition ascii_text (s : string) : Prop :=
  Forall (fun c => (N_of_ascii c < 128)%N) (list_ascii_of_string s).

End JsString.
Import JsString.

(* ===================================================================== *)
(** ** Card checks (account.ts) *)
(* ===================================================================== *)

Module Card.

(** The loop of [isValidLuhn], from the last character to the first.
    [sum] is [None] once a NaN has been added to it. *)
Fixpoint luhn_loop (chars : list ascii) (sum : option Z) (isEven : bool) : option Z :=
  match chars with
  | [] => sum
  | c :: rest =>
      let digit := parseInt10 c in
      let digit :=
        if isEven
        then option_map (fun d => let d := d * 2 in if 9 <? d then d - 9 else d) digit
        else digit in
      let sum := match sum, digit with
                 | Some s, Some d => Some (s + d)
                 | _, _ => None
                 end in
      luhn_loop rest sum (negb isEven)
  end.

Definition isValidLuhn (cardNumber : string) : bool :=
  match luhn_loop (rev (list_ascii_of_string cardNumber)) (Some 0) false with
  | Some sum => sum mod 10 =? 0
  | None => false
  end.

Inductive CardType := visa | mastercard | amex | discover.

(** [/^4\d{12}(\d{3})?$/] *)
Definition is_visa (s : string) : bool :=
  match s with
  | String "4" r => digits_n 12 r || digits_n 15 r
  | _ => false
  end.

(** [/^5[1-5]\d{14}$/] *)
Definition is_mastercard (s : string) : bool :=
  match s with
  | String "5" (String c r) =>
      ((49 <=? N_of_ascii c) && (N_of_ascii c <=? 53))%N && digits_n 14 r
  | _ => false
  end.

(** [/^3[47]\d{13}$/] *)
Definition is_amex (s : string) : bool :=
  match s with
  | String "3" (String c r) =>
      (Ascii.eqb c "4" || Ascii.eqb c "7") && digits_n 13 r
  | _ => false
  end.

(** [/^6(?:011|5\d{2})\d{12}$/] *)
Definition is_discover (s : string) : bool :=
  match s with
  | String "6" (String "0" (String "1" (String "1" r))) => digits_n 12 r
  | String "6" (String "5" r) => digits_n 14 r
  | _ => false
  end.

Definition detectCardType (cardNumber : string) : option CardType :=
  if is_visa cardNumber then Some visa
  else if is_mastercard cardNumber then Some mastercard
  else if is_amex cardNumber then Some amex
  else if is_discover cardNumber then Some discover
  else None.

(** *** The Luhn checksum as the specification words it

    Positions are counted from the rightmost digit (position 0); every
    second digit moving left (the odd positions) is doubled, 9 is
    subtracted from a doubled value above 9, and the checksum is the sum
    of all terms modulo 10. *)

Definition luhn_term (pos : nat) (d : Z) : Z :=
  if Nat.odd pos then (if 9 <? 2 * d then 2 * d - 9 else 2 * d) else d.

Fixpoint luhn_terms_from (pos : nat) (digits_right_to_left : list Z) : Z :=
  match digits_right_to_left with
  | [] => 0
  | d :: rest => luhn_term pos d + luhn_terms_from (S pos) rest
  end.

Definition digit_value (c : ascii) : Z := Z.of_N (N_of_ascii c) - 48.

Definition luhn_checksum (cardNumber : string) : Z :=
  luhn_terms_from 0 (map digit_value (rev (list_ascii_of_string cardNumber))) mod 10.

Definition all_digits (s : string) : Prop :=
  Forall (fun c => is_digit c = true) (list_ascii_of_string s).

End Card.
Import Card.

(* ===================================================================== *)
(** ** Dates (ECMAScript time values) *)
(* ===================================================================== *)

Module JsDate.

Definition msPerDay : Z := 86400000.

(** Days since 1970-01-01 of a proleptic Gregorian date, month 1..12. *)
Definition days_from_civil (y m d : Z) : Z :=
  let y := if m <=? 2 then y - 1 else y in
  let era := y / 400 in
  let yoe := y - era * 400 in
  let doy := (153 * (if 2 <? m then m - 3 else m + 9) + 2) / 5 + d - 1 in
  let doe := yoe * 365 + yoe / 4 - yoe / 100 + doy in
  era * 146097 + doe - 719468.

(** The inverse: year, month 1..12 and day of month of a day number. *)
Definition civil_from_days (z : Z) : Z * Z * Z :=
  let z := z + 719468 in
  let era := z / 146097 in
  let doe := z - era * 146097 in
  let yoe := (doe - doe / 1460 + doe / 36524 - doe / 146096) / 365 in
  let y := yoe + era * 400 in
  let doy := doe - (365 * yoe + yoe / 4 - yoe / 100) in
  let mp := (5 * doy + 2) / 153 in
  let d := doy - (153 * mp + 2) / 5 + 1 in
  let m := if mp <? 10 then mp + 3 else mp - 9 in
  (if m <=? 2 then y + 1 else y, m, d).

Definition is_leap (y : Z) : bool :=
  ((y mod 4 =? 0) && negb (y mod 100 =? 0)) || (y mod 400 =? 0).

Definition days_in_month (y m : Z) : Z :=
  if m =? 2 then (if is_leap y then 29 else 28)
  else if (m =? 4) || (m =? 6) || (m =? 9) || (m =? 11) then 30
  else 31.

Definition valid_date (y m d : Z) : bool :=
  (1 <=? m) && (m <=? 12) && (1 <=? d) && (d <=? days_in_month y m).

(** Local calendar fields of a time value, for a local offset [tza]
    (milliseconds east of UTC) in force at that instant:
    [getFullYear], [getMonth] (0..11) and [getDate]. *)
Definition local_fields (tza : Z -> Z) (t : Z) : Z * Z * Z :=
  civil_from_days ((t + tza t) / msPerDay).

Definition getFullYear (tza : Z -> Z) (t : Z) : Z :=
  let '(y, _, _) := local_fields tza t in y.
Definition getMonth (tza : Z -> Z) (t : Z) : Z :=
  let '(_, m, _) := local_fields tza t in m - 1.
Definition getDate (tza : Z -> Z) (t : Z) : Z :=
  let '(_, _, d) := local_fields tza t in d.

(** Decimal value of a string of digits. *)
Fixpoint decimal_go (s : string) (acc : Z) : Z :=
  match s with
  | EmptyString => acc
  | String c r => decimal_go r (10 * acc + (Z.of_N (N_of_ascii c) - 48))
  end.

(** The date-only form [YYYY-MM-DD] of the ECMAScript date-time string
    format, which denotes midnight UTC of that day. *)
Definition parse_iso_date (val : string) : option Z :=
  let ys := substring 0 4 val in
  let ms := substring 5 2 val in
  let ds := substring 8 2 val in
  if (String.length val =? 10)%nat
     && digits_n 4 ys && digits_n 2 ms && digits_n 2 ds
     && String.eqb (substring 4 1 val) "-" && String.eqb (substring 7 1 val) "-"
  then
    let y := decimal_go ys 0 in
    let m := decimal_go ms 0 in
    let d := decimal_go ds 0 in
    if valid_date y m d then Some (days_from_civil y m d * msPerDay) else None
  else None.

End JsDate.
Import JsDate.

(* ===================================================================== *)
(** ** The runtime one request sees *)
(* ===================================================================== *)

(** The collaborators the handlers call and the process state they read:
    the password-hashing and token libraries, the SSN cipher, the address
    check of the schema library, the environment, the clock and the time
    zone.  Random draws (salt, IV) are those of the request at hand. *)
Record Runtime : Type := {
  bcrypt_hash : string -> string;                 (* bcrypt.hash(pw, 10) *)
  bcrypt_compare : string -> string -> bool;      (* bcrypt.compare(pw, hash) *)
  encryptSSN : string -> string;
  jwt_sign : string -> Z -> string;               (* jwt.sign({userId}, secret, 7d) *)
  jwt_verify : string -> string -> option Z;      (* jwt.verify(token, secret).userId; None when it throws *)
  isEmail : string -> bool;                       (* z.string().email(): the address check *)
  JWT_SECRET : option string;                     (* process.env.JWT_SECRET *)
  Date_now : Z;                                   (* new Date().getTime() *)
  LocalTZA : Z -> Z;                              (* local offset in force at an instant, in ms *)
  LocalTZA_of_local : Z -> Z;                     (* local offset in force at a local time, in ms *)
  Date_parse_other : string -> option Z           (* implementation-defined date formats *)
}.

(** [new Date(val)]: the date-only ISO form is fixed by the language, any
    other text goes to the implementation's parser.  [None] is an invalid
    date (time value NaN). *)
Definition new_Date (rt : Runtime) (val : string) : option Z :=
  match parse_iso_date val with
  | Some t => Some t
  | None => Date_parse_other rt val
  end.

(** [d.setDate(d.getDate() + n)]: the local time of [t], [n] days later
    on the local calendar, taken back to UTC with the offset in force at
    that local time. *)
Definition plus_days (rt : Runtime) (t n : Z) : Z :=
  let local := t + LocalTZA rt t + n * msPerDay in
  local - LocalTZA_of_local rt local.

(* ===================================================================== *)
(** ** The relational store *)
(* ===================================================================== *)

Module Db.

Record Profile : Type := {
  firstName : string; lastName : string; phoneNumber : string;
  dateOfBirth : string; address : string; city : string;
  state : string; zipCode : string
}.

Record User : Type := {
  user_id : Z; email : string; password : string; ssn : string;
  profile : Profile
}.

Record Session : Type := {
  session_id : Z; session_userId : Z; token : string; expiresAt : Z
}.

Inductive AccountType := checking | savings.

Record Account (num : Type) : Type := {
  account_id : Z; account_userId : Z; accountNumber : string;
  accountType : AccountType; balance : num; status : string
}.

Record Transaction (num : Type) : Type := {
  tx_id : Z; tx_accountId : Z; tx_type : string; amount : num;
  description : string; tx_status : string;
  createdAt : Z; processedAt : option Z
}.

Arguments account_id {num}.
Arguments account_userId {num}.
Arguments accountNumber {num}.
Arguments accountType {num}.
Arguments balance {num}.
Arguments status {num}.
Arguments tx_id {num}.
Arguments tx_accountId {num}.
Arguments tx_type {num}.
Arguments amount {num}.
Arguments description {num}.
Arguments tx_status {num}.
Arguments createdAt {num}.
Arguments processedAt {num}.

(** Tables in rowid order, with the AUTOINCREMENT counters of
    [sqlite_sequence]. *)
Record Store (num : Type) : Type := {
  users : list User;
  accounts : list (Account num);
  transactions : list (Transaction num);
  sessions : list Session;
  seq_users : Z; seq_accounts : Z; seq_transactions : Z; seq_sessions : Z
}.

Arguments users {num}.
Arguments accounts {num}.
Arguments transactions {num}.
Arguments sessions {num}.
Arguments seq_users {num}.
Arguments seq_accounts {num}.
Arguments seq_transactions {num}.
Arguments seq_sessions {num}.

(** INTEGER PRIMARY KEY AUTOINCREMENT: one more than the largest rowid
    that is or ever was in the table. *)
Definition next_id (seq : Z) (ids : list Z) : Z :=
  fold_right Z.max seq ids + 1.

(** [.orderBy(desc(key))]: a sort, largest key first; SQL leaves the
    order among rows with equal keys open. *)
Fixpoint insert_desc {A} (key : A -> Z) (x : A) (l : list A) : list A :=
  match l with
  | [] => [x]
  | y :: r => if key y <? key x then x :: l else y :: insert_desc key x r
  end.

Definition orderBy_desc {A} (key : A -> Z) (l : list A) : list A :=
  fold_right (insert_desc key) [] l.

(** [.get()]: the first row of the result, if any. *)
Definition get {A} (rows : list A) : option A := hd_error rows.

Definition limit {A} (n : nat) (rows : list A) : list A := firstn n rows.

Section Queries.
Context {num : Type}.

Definition set_users (d : Store num) v sq : Store num :=
  {| users := v; accounts := accounts d; transactions := transactions d;
     sessions := sessions d; seq_users := sq; seq_accounts := seq_accounts d;
     seq_transactions := seq_transactions d; seq_sessions := seq_sessions d |}.

Definition set_accounts (d : Store num) v : Store num :=
  {| users := users d; accounts := v; transactions := transactions d;
     sessions := sessions d; seq_users := seq_users d; seq_accounts := seq_accounts d;
     seq_transactions := seq_transactions d; seq_sessions := seq_sessions d |}.

Definition set_transactions (d : Store num) v sq : Store num :=
  {| users := users d; accounts := accounts d; transactions := v;
     sessions := sessions d; seq_users := seq_users d; seq_accounts := seq_accounts d;
     seq_transactions := sq; seq_sessions := seq_sessions d |}.

Definition set_sessions (d : Store num) v sq : Store num :=
  {| users := users d; accounts := accounts d; transactions := transactions d;
     sessions := v; seq_users := seq_users d; seq_accounts := seq_accounts d;
     seq_transactions := seq_transactions d; seq_sessions := sq |}.

(** [select().from(users).where(eq(users.email, e)).get()] *)
Definition user_by_email (d : Store num) (e : string) : option User :=
  get (filter (fun u => String.eqb (email u) e) (users d)).

Definition user_by_id (d : Store num) (id : Z) : option User :=
  get (filter (fun u => user_id u =? id) (users d)).

Definition session_by_token (d : Store num) (t : string) : option Session :=
  get (filter (fun s => String.eqb (token s) t) (sessions d)).

(** [where(and(eq(accounts.id, id), eq(accounts.userId, uid))).get()] *)
Definition account_of_user (d : Store num) (id uid : Z) : option (Account num) :=
  get (filter (fun a => (account_id a =? id) && (account_userId a =? uid)) (accounts d)).

Definition transactions_of (d : Store num) (aid : Z) : list (Transaction num) :=
  filter (fun t => tx_accountId t =? aid) (transactions d).

(** [insert(users)]: fails on the UNIQUE constraint of [email]. *)
Definition insert_user (d : Store num) (e pw sn : string) (p : Profile)
  : option (Store num) :=
  if existsb (fun u => String.eqb (email u) e) (users d) then None
  else
    let id := next_id (seq_users d) (map user_id (users d)) in
    Some (set_users d
            (users d ++ [{| user_id := id; email := e; password := pw;
                            ssn := sn; profile := p |}]) id).

(** [insert(sessions)]: fails on the UNIQUE constraint of [token]. *)
Definition insert_session (d : Store num) (uid : Z) (t : string) (e : Z)
  : option (Store num) :=
  if existsb (fun s => String.eqb (token s) t) (sessions d) then None
  else
    let id := next_id (seq_sessions d) (map session_id (sessions d)) in
    Some (set_sessions d
            (sessions d ++ [{| session_id := id; session_userId := uid;
                               token := t; expiresAt := e |}]) id).

(** [delete(sessions).where(eq(sessions.userId, uid))] *)
Definition delete_sessions_of_user (d : Store num) (uid : Z) : Store num :=
  set_sessions d (filter (fun s => negb (session_userId s =? uid)) (sessions d))
               (seq_sessions d).

(** [delete(sessions).where(eq(sessions.token, t))] *)
Definition delete_sessions_by_token (d : Store num) (t : string) : Store num :=
  set_sessions d (filter (fun s => negb (String.eqb (token s) t)) (sessions d))
               (seq_sessions d).

(** [insert(transactions)]: [created_at] takes its default, the
    current time in whole seconds. *)
Definition insert_transaction (d : Store num) (aid : Z) (ty : string) (amt : num)
    (descr st : string) (now : Z) : Store num :=
  let id := next_id (seq_transactions d) (map tx_id (transactions d)) in
  set_transactions d
    (transactions d ++ [{| tx_id := id; tx_accountId := aid; tx_type := ty;
                           amount := amt; description := descr; tx_status := st;
                           createdAt := now / 1000; processedAt := Some now |}]) id.

Definition AccountType_eqb (a b : AccountType) : bool :=
  match a, b with
  | checking, checking | savings, savings => true
  | _, _ => false
  end.

(** [where(and(eq(accounts.userId, uid), eq(accounts.accountType, ty))).get()] *)
Definition account_of_type (d : Store num) (uid : Z) (ty : AccountType)
  : option (Account num) :=
  get (filter (fun a => (account_userId a =? uid) && AccountType_eqb (accountType a) ty)
              (accounts d)).

(** [where(eq(accounts.accountNumber, n)).get()] *)
Definition account_by_number (d : Store num) (n : string) : option (Account num) :=
  get (filter (fun a => String.eqb (accountNumber a) n) (accounts d)).

(** [insert(accounts)]: fails on the UNIQUE constraint of
    [account_number]. *)
Definition insert_account (d : Store num) (uid : Z) (n : string) (ty : AccountType)
    (b : num) (st : string) : option (Store num) :=
  if existsb (fun a => String.eqb (accountNumber a) n) (accounts d) then None
  else
    let id := next_id (seq_accounts d) (map account_id (accounts d)) in
    Some {| users := users d;
            accounts := accounts d ++ [{| account_id := id; account_userId := uid;
                                          accountNumber := n; accountType := ty;
                                          balance := b; status := st |}];
            transactions := transactions d; sessions := sessions d;
            seq_users := seq_users d; seq_accounts := id;
            seq_transactions := seq_transactions d;
            seq_sessions := seq_sessions d |}.

(** [update(accounts).set({ balance }).where(eq(accounts.id, id))] *)
Definition update_balance (d : Store num) (id : Z) (b : num) : Store num :=
  set_accounts d
    (map (fun a => if account_id a =? id
                   then {| account_id := account_id a; account_userId := account_userId a;
                           accountNumber := accountNumber a; accountType := accountType a;
                           balance := b; status := status a |}
                   else a) (accounts d)).

End Queries.

End Db.
Import Db.

(* ===================================================================== *)
(** ** tRPC: errors, requests, responses, handlers *)
(* ===================================================================== *)

Module Trpc.

Inductive TRPC_ERROR_CODE :=
| BAD_REQUEST | UNAUTHORIZED | FORBIDDEN | NOT_FOUND | CONFLICT
| INTERNAL_SERVER_ERROR.

Record TRPCError : Type := { code : TRPC_ERROR_CODE; message : string }.

(** The two adapter shapes of a request, and the bare object the tests
    pass to [createCaller]. *)
Inductive Req :=
| NextApiRequest (headers_cookie : option string) (cookies : list (string * string))
| FetchRequest (cookie_header : option string)
| PlainRequest (headers_cookie : option string).

(** The response object: a Node response ([setHeader]) or the fetch
    adapter's [Headers] ([set]). *)
Inductive ResKind := NodeResponse | FetchHeaders.

Record Res : Type := { res_kind : ResKind; res_headers : list (string * string) }.

Fixpoint assoc_set (k v : string) (l : list (string * string)) : list (string * string) :=
  match l with
  | [] => [(k, v)]
  | (k', v') :: r => if String.eqb k' k then (k, v) :: r else (k', v') :: assoc_set k v r
  end.

Fixpoint assoc_get (k : string) (l : list (string * string)) : option string :=
  match l with
  | [] => None
  | (k', v) :: r => if String.eqb k' k then Some v else assoc_get k r
  end.

Definition setHeader (k v : string) (r : Res) : Res :=
  {| res_kind := res_kind r; res_headers := assoc_set k v (res_headers r) |}.

Definition Headers_set (k v : string) (r : Res) : Res :=
  {| res_kind := res_kind r; res_headers := assoc_set k v (res_headers r) |}.

(** What a handler can change: the store and the response headers. *)
Record World (num : Type) : Type := { db : Store num; res : Res }.
Arguments db {num}.
Arguments res {num}.

(** A handler either returns or throws; the world it leaves is kept in
    both cases. *)
Definition Handler (num A : Type) : Type :=
  World num -> (TRPCError + A) * World num.

Definition ret {num A} (x : A) : Handler num A := fun w => (inr x, w).

Definition bind {num A B} (c : Handler num A) (k : A -> Handler num B)
  : Handler num B :=
  fun w => match c w with
           | (inl e, w') => (inl e, w')
           | (inr x, w') => k x w'
           end.

Definition throw {num A} (c : TRPC_ERROR_CODE) (m : string) : Handler num A :=
  fun w => (inl {| code := c; message := m |}, w).

Definition query {num A} (f : Store num -> A) : Handler num A :=
  fun w => (inr (f (db w)), w).

Definition run {num} (f : Store num -> Store num) : Handler num unit :=
  fun w => (inr tt, {| db := f (db w); res := res w |}).

(** A statement the store may refuse; an error that is not a
    [TRPCError] reaches the client as an internal server error. *)
Definition run_checked {num} (f : Store num -> option (Store num)) (m : string)
  : Handler num unit :=
  fun w => match f (db w) with
           | Some d => (inr tt, {| db := d; res := res w |})
           | None => (inl {| code := INTERNAL_SERVER_ERROR; message := m |}, w)
           end.

(** [if ("setHeader" in ctx.res) ctx.res.setHeader(k, v) else ctx.res.set(k, v)] *)
Definition set_response_header {num} (k v : string) : Handler num unit :=
  fun w => (inr tt,
            {| db := db w;
               res := match res_kind (res w) with
                      | NodeResponse => setHeader k v (res w)
                      | FetchHeaders => Headers_set k v (res w)
                      end |}).

Record Context : Type := { user : option User; req : Req }.

End Trpc.
Import Trpc.

Declare Scope handler_scope.
Delimit Scope handler_scope with handler.
Notation "x <- c ;; k" := (Trpc.bind c (fun x => k))
  (at level 61, c at next level, right associativity) : handler_scope.
Notation "c ;; k" := (Trpc.bind c (fun _ => k))
  (at level 61, right associativity) : handler_scope.

Local Open Scope handler_scope.

(* ===================================================================== *)
(** ** Context resolution and the authorization gate (trpc.ts) *)
(* ===================================================================== *)

Module Server.

Definition fallback_secret : string := "temporary-secret-for-interview".

(** [Object.fromEntries(entries)[k]]: a later entry replaces an earlier
    one with the same key. *)
Definition fromEntries_get (k : string) (entries : list (string * string))
  : option string :=
  fold_left (fun acc kv => if String.eqb (fst kv) k then Some (snd kv) else acc)
            entries None.

(** The cookie header as [createContext] reads it: [req.headers.cookie]
    when truthy, else [req.headers.get("cookie")] or the empty string
    when the headers have a [get] method, else the empty string. *)
Definition context_cookieHeader (r : Req) : string :=
  match r with
  | NextApiRequest (Some c) _ | PlainRequest (Some c) => if truthy c then c else EmptyString
  | NextApiRequest None _ | PlainRequest None => EmptyString
  | FetchRequest (Some c) => if truthy c then c else EmptyString
  | FetchRequest None => EmptyString
  end.

Definition context_token (r : Req) : option string :=
  fromEntries_get "session"
    (map cut_eq (filter truthy (split "; " (context_cookieHeader r)))).

Section CreateContext.
Context {num : Type} (rt : Runtime).

Definition createContext (r : Req) : Handler num Context :=
  u <- match context_token r with
       | Some token =>
           if truthy token then
             match jwt_verify rt token
                     (match JWT_SECRET rt with
                      | Some s => if truthy s then s else fallback_secret
                      | None => fallback_secret
                      end) with
             | Some userId =>
                 session <- query (fun d => session_by_token d token) ;;
                 match session with
                 | Some s =>
                     let expiresIn := expiresAt s - Date_now rt in
                     if 60000 <? expiresIn
                     then query (fun d => user_by_id d userId)
                     else ret None
                 | None => ret None
                 end
             | None => ret None
             end
           else ret None
       | None => ret None
       end ;;
  ret {| user := u; req := r |}.

(** [t.procedure.use(...)]: the handler runs only with an identity. *)
Definition protectedProcedure {A} (ctx : Context) (handler : User -> Handler num A)
  : Handler num A :=
  match user ctx with
  | None => throw UNAUTHORIZED "UNAUTHORIZED"
  | Some u => handler u
  end.

End CreateContext.

End Server.
Import Server.

(* ===================================================================== *)
(** ** auth.ts *)
(* ===================================================================== *)

Module Auth.

Record SignupInput : Type := {
  in_email : string; in_password : string; in_ssn : string;
  in_profile : Profile
}.

(** [{ ...user, password: undefined, ssn: undefined }] *)
Record PublicUser : Type := {
  pu_id : Z; pu_email : string; pu_profile : Profile
}.

Definition sanitize (u : User) : PublicUser :=
  {| pu_id := user_id u; pu_email := email u; pu_profile := profile u |}.

Record AuthResult : Type := { auth_user : PublicUser; auth_token : string }.

Record LogoutResult : Type := { success : bool; logout_message : string }.

Definition session_cookie (token : string) : string :=
  ("session=" ++ token ++ "; Path=/; HttpOnly; SameSite=Strict; Max-Age=604800")%string.

Definition cleared_cookie : string :=
  "session=; Path=/; HttpOnly; SameSite=Strict; Max-Age=0".

(** The cookie header as [logout] reads it:
    [req.headers.get?.("cookie") || req.headers.cookie]. *)
Definition logout_cookieHeader (r : Req) : option string :=
  match r with
  | FetchRequest (Some c) => if truthy c then Some c else None
  | FetchRequest None => None
  | PlainRequest hc | NextApiRequest hc _ => hc
  end.

(** The token [logout] deletes: [req.cookies.session] when the request
    has parsed cookies, else the text between the first and the second
    ["="] of the first piece of the cookie header that starts with
    ["session="]. *)
Definition logout_token (r : Req) : option string :=
  match r with
  | NextApiRequest _ cookies => assoc_get "session" cookies
  | FetchRequest _ | PlainRequest _ =>
      match logout_cookieHeader r with
      | Some cookieHeader =>
          match find (String.prefix "session=") (split "; " cookieHeader) with
          | Some c => nth_error (split "=" c) 1
          | None => None
          end
      | None => None
      end
  end.

Definition VALID_STATE_CODES : list string :=
  ["AL"; "AK"; "AZ"; "AR"; "CA"; "CO"; "CT"; "DE"; "FL"; "GA";
   "HI"; "ID"; "IL"; "IN"; "IA"; "KS"; "KY"; "LA"; "ME"; "MD";
   "MA"; "MI"; "MN"; "MS"; "MO"; "MT"; "NE"; "NV"; "NH"; "NJ";
   "NM"; "NY"; "NC"; "ND"; "OH"; "OK"; "OR"; "PA"; "RI"; "SC";
   "SD"; "TN"; "TX"; "UT"; "VT"; "VA"; "WA"; "WV"; "WI"; "WY";
   "DC"; "AS"; "GU"; "MP"; "PR"; "VI"].

(** [VALID_STATE_CODES.has(val)] *)
Definition VALID_STATE_CODES_has (val : string) : bool :=
  existsb (String.eqb val) VALID_STATE_CODES.

(** The refinement of the email field, on the lower-cased address. *)
Definition commonTypos : list string := [".con"; ".cm"; ".om"; ".co."].

Definition email_no_typo (val : string) : bool :=
  negb (existsb (endsWith val) commonTypos).

(** The characters of the class the last password rule looks for: the
    double quote and the punctuation below. *)
Definition special_chars : string :=
  String (ascii_of_N 34) "!@#$%^&*()_+-=[]{};':\|,.<>/?".

Definition is_special (c : ascii) : bool :=
  existsb (Ascii.eqb c) (list_ascii_of_string special_chars).

(** The five rules of the password field. *)
Definition password_accepted (val : string) : bool :=
  (8 <=? String.length val)%nat
  && has_char is_upper val && has_char is_lower val && has_char is_digit val
  && has_char is_special val.

(** [/^\+?1?\d{10}$/.test(val)] *)
Definition phoneNumber_accepted (val : string) : bool :=
  let rest := match val with
              | String "+" r => r
              | _ => val
              end in
  digits_n 10 rest
  || match rest with
     | String "1" r => digits_n 10 r
     | _ => false
     end.

(** The state field: two characters, upper-cased, then looked up. *)
Definition state_accepted (val : string) : bool :=
  (String.length val =? 2)%nat && VALID_STATE_CODES_has (toUpperCase val).

(** The age computation of the third refinement, on the calendar
    fields the getters return (month 0..11). *)
Definition age_from_fields (todayYear todayMonth todayDate dobYear dobMonth dobDate : Z)
  : Z :=
  let age := todayYear - dobYear in
  let monthDiff := todayMonth - dobMonth in
  if (monthDiff <? 0) || ((monthDiff =? 0) && (todayDate <? dobDate))
  then age - 1 else age.

Section Handlers.
Context {num : Type} (rt : Runtime).

Definition getJwtSecret : string :=
  match JWT_SECRET rt with
  | Some secret => if truthy secret then secret else fallback_secret
  | None => fallback_secret
  end.

(** *** Date-of-birth refinements of the signup schema *)

Definition dob_parses (val : string) : bool :=
  match new_Date rt val with Some _ => true | None => false end.

Definition dob_not_future (val : string) : bool :=
  match new_Date rt val with Some dob => dob <? Date_now rt | None => false end.

Definition computed_age (today dob : Z) : Z :=
  age_from_fields
    (getFullYear (LocalTZA rt) today) (getMonth (LocalTZA rt) today)
    (getDate (LocalTZA rt) today)
    (getFullYear (LocalTZA rt) dob) (getMonth (LocalTZA rt) dob)
    (getDate (LocalTZA rt) dob).

Definition dob_adult (val : string) : bool :=
  match new_Date rt val with
  | Some dob => 18 <=? computed_age (Date_now rt) dob
  | None => false
  end.

(** The issues the three refinements raise, in order; the field is
    accepted when there is none. *)
Definition dateOfBirth_issues (val : string) : list string :=
  ((if dob_parses val then [] else ["Invalid date format"])
   ++ (if dob_not_future val then [] else ["Date of birth cannot be in the future"])
   ++ (if dob_adult val then []
       else ["You must be at least 18 years old to open an account"]))%list.

Definition dateOfBirth_accepted (val : string) : bool :=
  match dateOfBirth_issues val with [] => true | _ => false end.

(** *** The input schema of [signup] *)

(** The checks of the schema, field by field. *)
Definition signup_input_accepted (raw : SignupInput) : bool :=
  let p := in_profile raw in
  isEmail rt (in_email raw)
  && email_no_typo (toLowerCase (in_email raw))
  && password_accepted (in_password raw)
  && truthy (firstName p)
  && truthy (lastName p)
  && phoneNumber_accepted (phoneNumber p)
  && dateOfBirth_accepted (dateOfBirth p)
  && digits_n 9 (in_ssn raw)
  && truthy (address p)
  && truthy (city p)
  && state_accepted (state p)
  && digits_n 5 (zipCode p).

(** What the schema hands to the mutation: the input with the address
    in lower case and the state in upper case. *)
Definition signup_input_parsed (raw : SignupInput) : SignupInput :=
  let p := in_profile raw in
  {| in_email := toLowerCase (in_email raw);
     in_password := in_password raw;
     in_ssn := in_ssn raw;
     in_profile :=
       {| firstName := firstName p; lastName := lastName p;
          phoneNumber := phoneNumber p; dateOfBirth := dateOfBirth p;
          address := address p; city := city p;
          state := toUpperCase (state p); zipCode := zipCode p |} |}.

(** *** Procedures *)

(** Token issue shared by [signup] and [login]: sign, drop the user's
    sessions, insert the new one, set the cookie. *)
Definition start_session (u : User) : Handler num AuthResult :=
  let token := jwt_sign rt getJwtSecret (user_id u) in
  let expiresAt := plus_days rt (Date_now rt) 7 in
  run (fun d => delete_sessions_of_user d (user_id u)) ;;
  run_checked (fun d => insert_session d (user_id u) token expiresAt)
              "UNIQUE constraint failed: sessions.token" ;;
  set_response_header "Set-Cookie" (session_cookie token) ;;
  ret {| auth_user := sanitize u; auth_token := token |}.

(** The mutation of [signup], on the input as the schema hands it
    over. *)
Definition signup (input : SignupInput) : Handler num AuthResult :=
  existingUser <- query (fun d => user_by_email d (in_email input)) ;;
  match existingUser with
  | Some _ => throw CONFLICT "User already exists"
  | None =>
      let hashedPassword := bcrypt_hash rt (in_password input) in
      let encryptedSSN := encryptSSN rt (in_ssn input) in
      run_checked (fun d => insert_user d (in_email input) hashedPassword encryptedSSN
                                        (in_profile input))
                  "UNIQUE constraint failed: users.email" ;;
      u <- query (fun d => user_by_email d (in_email input)) ;;
      match u with
      | None => throw INTERNAL_SERVER_ERROR "Failed to create user"
      | Some u => start_session u
      end
  end.

(** [signup] as a client calls it: the input schema, then the mutation
    on the parsed input.  The message of a schema failure, which lists
    the issues, is not modelled. *)
Definition signup_procedure (raw : SignupInput) : Handler num AuthResult :=
  if signup_input_accepted raw
  then signup (signup_input_parsed raw)
  else throw BAD_REQUEST "Invalid input".

(** The mutation of [login]; it looks the address up as it was typed. *)
Definition login (input_email input_password : string) : Handler num AuthResult :=
  u <- query (fun d => user_by_email d input_email) ;;
  match u with
  | None => throw UNAUTHORIZED "Invalid credentials"
  | Some u =>
      if negb (bcrypt_compare rt input_password (password u))
      then throw UNAUTHORIZED "Invalid credentials"
      else start_session u
  end.

Definition logout (ctx : Context) : Handler num LogoutResult :=
  match user ctx with
  | None => ret {| success := false; logout_message := "No active session" |}
  | Some _ =>
      deleted <- match logout_token (req ctx) with
                 | Some token =>
                     if truthy token
                     then run (fun d => delete_sessions_by_token d token) ;; ret true
                     else ret false
                 | None => ret false
                 end ;;
      set_response_header "Set-Cookie" cleared_cookie ;;
      ret {| success := deleted;
             logout_message := if deleted then "Logged out successfully"
                               else "Failed to invalidate session" |}
  end.

End Handlers.

End Auth.
Import Auth.

(* ===================================================================== *)
(** ** account.ts *)
(* ===================================================================== *)

Module Account.

Inductive FundingType := card | bank.

Definition FundingType_name (t : FundingType) : string :=
  match t with card => "card" | bank => "bank" end.

Record FundingSource : Type := {
  fs_type : FundingType;
  fs_accountNumber : string;
  fs_routingNumber : option string
}.

Record FundInput (num : Type) : Type := {
  input_accountId : Z;
  input_amount : num;
  input_fundingSource : FundingSource
}.
Arguments input_accountId {num}.
Arguments input_amount {num}.
Arguments input_fundingSource {num}.

Record FundResult (num : Type) : Type := {
  transaction : option (Transaction num);
  newBalance : num
}.
Arguments transaction {num}.
Arguments newBalance {num}.

Definition msg_routing : string :=
  "A valid 9-digit routing number is required for bank transfers".
Definition msg_network : string :=
  "Invalid card number. We accept Visa, Mastercard, Amex, and Discover.".
Definition msg_luhn : string :=
  "Invalid card number. Please check and try again.".

(** [!routingNumber || !/^\d{9}$/.test(routingNumber)] *)
Definition routing_rejected (r : option string) : bool :=
  match r with
  | None => true
  | Some s => negb (truthy s) || negb (digits_n 9 s)
  end.

Definition AccountType_name (t : AccountType) : string :=
  match t with checking => "checking" | savings => "savings" end.

(** [generateAccountNumber], on the five bytes [crypto.randomBytes(5)]
    has drawn.  A NaN (no byte at all) would print as ["NaN"]. *)
Definition generateAccountNumber (bytes : list Byte.byte) : string :=
  match parseInt16 (hex_of_bytes bytes) with
  | Some v => padStart 10 "0" (Number_toString (v mod 10000000000))
  | None => padStart 10 "0" "NaN"
  end.

Section Handlers.
Context {num : Type} `{JsNumber num}.

(** The loop of [createAccount]: numbers are generated from the
    successive draws of the random source until one is not in the table.
    [None] when the draws given are used up and the loop is still
    running. *)
Fixpoint unique_account_number (d : Store num) (draws : list (list Byte.byte))
  : option string :=
  match draws with
  | [] => None
  | bytes :: rest =>
      let accountNumber := generateAccountNumber bytes in
      match account_by_number d accountNumber with
      | Some _ => unique_account_number d rest
      | None => Some accountNumber
      end
  end.

(** [createAccount] with the draws of the random source; [None] when
    they do not suffice to leave the loop. *)
Definition createAccount (u : User) (accountType : AccountType)
    (draws : list (list Byte.byte)) (w : World num)
  : option ((TRPCError + Account num) * World num) :=
  match account_of_type (db w) (user_id u) accountType with
  | Some _ =>
      Some (inl {| code := CONFLICT;
                   message := ("You already have a " ++ AccountType_name accountType
                               ++ " account")%string |}, w)
  | None =>
      match unique_account_number (db w) draws with
      | None => None
      | Some accountNumber =>
          match insert_account (db w) (user_id u) accountNumber accountType
                  (num_of_Z 0) "active" with
          | None =>
              Some (inl {| code := INTERNAL_SERVER_ERROR;
                           message := "UNIQUE constraint failed: accounts.account_number" |},
                    w)
          | Some d1 =>
              match account_by_number d1 accountNumber with
              | None =>
                  Some (inl {| code := INTERNAL_SERVER_ERROR;
                               message := "Failed to create account. Please try again." |},
                        {| db := d1; res := res w |})
              | Some account => Some (inr account, {| db := d1; res := res w |})
              end
          end
      end
  end.

Definition fundAccount (u : User) (input : FundInput num) (now : Z)
  : Handler num (FundResult num) :=
  (match fs_type (input_fundingSource input) with
   | bank =>
       if routing_rejected (fs_routingNumber (input_fundingSource input))
       then throw BAD_REQUEST msg_routing else ret tt
   | card => ret tt
   end) ;;
  (match fs_type (input_fundingSource input) with
   | card =>
       let cardNum := fs_accountNumber (input_fundingSource input) in
       match detectCardType cardNum with
       | None => throw BAD_REQUEST msg_network
       | Some _ =>
           if negb (isValidLuhn cardNum) then throw BAD_REQUEST msg_luhn else ret tt
       end
   | bank => ret tt
   end) ;;
  let amount := round2 (input_amount input) in
  account <- query (fun d => account_of_user d (input_accountId input) (user_id u)) ;;
  match account with
  | None => throw NOT_FOUND "Account not found"
  | Some account =>
      if negb (String.eqb (status account) "active")
      then throw BAD_REQUEST "Account is not active"
      else
        run (fun d => insert_transaction d (input_accountId input) "deposit" amount
                        ("Funding from "
                           ++ FundingType_name (fs_type (input_fundingSource input)))%string
                        "completed" now) ;;
        transaction <- query (fun d =>
                         get (limit 1 (orderBy_desc tx_id
                                         (transactions_of d (input_accountId input))))) ;;
        let newBalance := round2 (num_add (balance account) amount) in
        run (fun d => update_balance d (input_accountId input) newBalance) ;;
        ret {| transaction := transaction; newBalance := newBalance |}
  end.

Definition getTransactions (u : User) (accountId : Z)
  : Handler num (list (Transaction num * AccountType)) :=
  account <- query (fun d => account_of_user d accountId (user_id u)) ;;
  match account with
  | None => throw NOT_FOUND "Account not found"
  | Some account =>
      accountTransactions <- query (fun d =>
                               orderBy_desc createdAt (transactions_of d accountId)) ;;
      ret (map (fun t => (t, accountType account)) accountTransactions)
  end.

Definition getAccounts (u : User) : Handler num (list (Account num)) :=
  query (fun d => filter (fun a => account_userId a =? user_id u) (accounts d)).

(** The input schema of [fundAccount]: the message of the first issue,
    if any ([z.number()] refuses NaN before the range is looked at).  The
    client receives the list of all issues; its first message stands for
    it here. *)
Definition fundAccount_input_issue (input : FundInput num) : option string :=
  if num_isNaN (input_amount input)
  then Some "Expected number, received nan"
  else if negb (num_leb num_cent (input_amount input))
  then Some "Amount must be at least $0.01"
  else if negb (num_leb (input_amount input) (num_of_Z 10000))
  then Some "Amount cannot exceed $10,000"
  else if (String.length (fs_accountNumber (input_fundingSource input)) <? 1)%nat
  then Some "Account/card number is required"
  else None.

(** The procedure as a client calls it: the authorization gate, the
    input schema, then the mutation. *)
Definition fundAccount_procedure (ctx : Context) (input : FundInput num) (now : Z)
  : Handler num (FundResult num) :=
  protectedProcedure ctx (fun u =>
    match fundAccount_input_issue input with
    | Some m => throw BAD_REQUEST m
    | None => fundAccount u input now
    end).


Definition getTransactions_procedure (ctx : Context) (accountId : Z)
  : Handler num (list (Transaction num * AccountType)) :=
  protectedProcedure ctx (fun u => getTransactions u accountId).

End Handlers.

End Account.
Import Account.

(* ===================================================================== *)
(** ** Fixtures: a stub runtime and sample rows *)
(* ===================================================================== *)

Module Fixture.

(** A stand-in for the token library: user 1 gets ["tokA"], user 2
    ["tokB"], anyone else ["tokC"]; only the first two verify. *)
Definition stub_sign (secret : string) (userId : Z) : string :=
  if userId =? 1 then "tokA" else if userId =? 2 then "tokB" else "tokC".

Definition stub_verify (token secret : string) : option Z :=
  if String.eqb token "tokA" then Some 1
  else if String.eqb token "tokB" then Some 2
  else None.

(** A stand-in for the address check: one [@], with text before it and
    a dot somewhere after it. *)
Definition stub_isEmail (s : string) : bool :=
  match split "@" s with
  | [name; domain] => truthy name && has_char (Ascii.eqb ".") domain
  | _ => false
  end.

(** A runtime with a fixed offset from UTC and a given clock. *)
Definition stub_runtime (tza now : Z) : Runtime :=
  {| bcrypt_hash := fun pw => ("$2a$10$" ++ pw)%string;
     bcrypt_compare := fun pw h => String.eqb ("$2a$10$" ++ pw)%string h;
     encryptSSN := fun s => ("00112233445566778899aabbccddeeff:" ++ s)%string;
     jwt_sign := stub_sign;
     jwt_verify := stub_verify;
     isEmail := stub_isEmail;
     JWT_SECRET := None;
     Date_now := now;
     LocalTZA := fun _ => tza;
     LocalTZA_of_local := fun _ => tza;
     Date_parse_other := fun _ => None |}.




(** A signup as typed by a client, with capitals in the address and the
    state in lower case. *)
Definition typed_signup : SignupInput :=
  {| in_email := "New@Example.com"; in_password := "Password3!";
     in_ssn := "123456789";
     in_profile :=
       {| firstName := "Nia"; lastName := "Doe"; phoneNumber := "+11234567890";
          dateOfBirth := "1990-01-01"; address := "1 Main St"; city := "Anytown";
          state := "ca"; zipCode := "12345" |} |}.

Definition john_profile : Profile :=
  {| firstName := "John"; lastName := "Doe"; phoneNumber := "1234567890";
     dateOfBirth := "1990-01-01"; address := "123 Main St"; city := "Anytown";
     state := "CA"; zipCode := "12345" |}.

Definition john : User :=
  {| user_id := 1; email := "logic@example.com"; password := "$2a$10$Password1!";
     ssn := "00112233445566778899aabbccddeeff:123456789"; profile := john_profile |}.

Definition jane : User :=
  {| user_id := 2; email := "jane@example.com"; password := "$2a$10$Password2!";
     ssn := "00112233445566778899aabbccddeeff:987654321"; profile := john_profile |}.

Definition empty_store {num} : Store num :=
  {| users := []; accounts := []; transactions := []; sessions := [];
     seq_users := 0; seq_accounts := 0; seq_transactions := 0; seq_sessions := 0 |}.

Definition node_res : Res := {| res_kind := NodeResponse; res_headers := [] |}.

Definition visa_source : FundingSource :=
  {| fs_type := card; fs_accountNumber := "4111111111111111";
     fs_routingNumber := None |}.

(** John's checking account, as [createAccount] leaves it. *)
Definition checking_account {num} `{JsNumber num} : Account num :=
  {| account_id := 1; account_userId := 1; accountNumber := "0123456789";
     accountType := checking; balance := num_of_Z 0; status := "active" |}.

Definition john_ctx : Context :=
  {| user := Some john; req := PlainRequest (Some EmptyString) |}.

Definition deposit {num} (a : num) : FundInput num :=
  {| input_accountId := 1; input_amount := a; input_fundingSource := visa_source |}.



Definition bank_world {num} `{JsNumber num} : World num :=
  {| db := {| users := [john; jane]; accounts := [checking_account];
              transactions := []; sessions := [];
              seq_users := 2; seq_accounts := 1; seq_transactions := 0;
              seq_sessions := 0 |};
     res := node_res |}.

(** The bank with one session of John, token ["tokA"]. *)
Definition session_world (expires : Z) : World float :=
  {| db := {| users := [john; jane]; accounts := [checking_account];
              transactions := [];
              sessions := [{| session_id := 1; session_userId := 1;
                              token := "tokA"; expiresAt := expires |}];
              seq_users := 2; seq_accounts := 1; seq_transactions := 0;
              seq_sessions := 1 |};
     res := node_res |}.

(** The bank after transactions were recorded at seconds 5, 9 and 7
    for John's account and one for another account. *)
Definition history_world : World float :=
  let tx := fun id aid amt at_s =>
              {| tx_id := id; tx_accountId := aid; tx_type := "deposit";
                 amount := amt; description := "Funding from card";
                 tx_status := "completed"; createdAt := at_s;
                 processedAt := Some (at_s * 1000) |} in
  {| db := {| users := [john; jane]; accounts := [checking_account];
              transactions := [tx 1 1 50%float 5; tx 2 7 10%float 6;
                               tx 3 1 20%float 9; tx 4 1 5%float 7];
              sessions := [];
              seq_users := 2; seq_accounts := 1; seq_transactions := 4;
              seq_sessions := 0 |};
     res := node_res |}.

(** Three draws of the random source: the first two give John's
    account number, the third a new one. *)
Definition taken_draw : list Byte.byte := [x00; x07; x5b; xcd; x15].
Definition fresh_draw : list Byte.byte := [xff; xff; xff; xff; xff].
Definition three_draws : list (list Byte.byte) := [taken_draw; taken_draw; fresh_draw].

(** A request with two [session] cookies, the first one stale. *)
Definition two_cookie_request : Req :=
  FetchRequest (Some "session=stale; session=tokA").

(** Noon of 2026-11-01 in a zone five hours west of UTC. *)
Definition west_noon : Z := (days_from_civil 2026 11 1 * 24 + 17) * 3600000.

Definition west_runtime : Runtime := stub_runtime (-18000000) west_noon.

Definition utc_runtime : Runtime := stub_runtime 0 west_noon.

End Fixture.

(* ===================================================================== *)
(** ** Specification vocabulary *)
(* ===================================================================== *)

Module Spec.

(** A funding source that fails validation: a bank source whose routing
    number is missing or is not exactly nine decimal digits, or a card
    source whose network is not recognised or whose number fails the Luhn
    check. *)
Definition funding_source_invalid (fs : FundingSource) : Prop :=
  match fs_type fs with
  | bank =>
      match fs_routingNumber fs with
      | None => True
      | Some r => digits_n 9 r = false
      end
  | card =>
      detectCardType (fs_accountNumber fs) = None
      \/ isValidLuhn (fs_accountNumber fs) = false
  end.

(** The account id names no account, or one of another user. *)
Definition absent_or_foreign {num} (d : Store num) (accountId : Z) (u : User) : Prop :=
  forall a, In a (accounts d) -> account_id a = accountId ->
            account_userId a <> user_id u.

(** [a1 + a2 + ... + an], added from the left. *)
Definition num_sum {num} `{JsNumber num} (l : list num) : num :=
  fold_left num_add l (num_of_Z 0).

(** The balance stored for an account of a user. *)
Definition persisted_balance {num} (w : World num) (accountId : Z) (u : User)
  : option num :=
  option_map balance (account_of_user (db w) accountId (user_id u)).

(** A funding input for a given account that passes the input schema
    (amount a number between 0.01 and 10000, account number present) and
    the funding-source validation. *)
Definition fundable {num} `{JsNumber num} (accountId : Z) (input : FundInput num)
  : Prop :=
  input_accountId input = accountId
  /\ num_isNaN (input_amount input) = false
  /\ num_leb num_cent (input_amount input) = true
  /\ num_leb (input_amount input) (num_of_Z 10000) = true
  /\ fs_accountNumber (input_fundingSource input) <> EmptyString
  /\ ~ funding_source_invalid (input_fundingSource input).

(** The identity a context or a thrown error carries. *)
Definition identity_of (r : TRPCError + Context) : option User :=
  match r with
  | inr ctx => user ctx
  | inl _ => None
  end.

(** The session rows of a user, and the single-session invariant. *)
Definition sessions_of {num} (d : Store num) (uid : Z) : list Session :=
  filter (fun s => session_userId s =? uid) (sessions d).


(** The session operations a client can call, each with the runtime of
    its request, and the world a series of calls leaves.  The operations
    are the mutations, on any input: what holds for them holds for the
    procedures, which run them on the input the schema has parsed. *)
Inductive AuthCall : Type :=
| CallSignup (rt : Runtime) (input : SignupInput)
| CallLogin (rt : Runtime) (input_email input_password : string)
| CallLogout (ctx : Context).

Definition run_call {num} (w : World num) (c : AuthCall) : World num :=
  match c with
  | CallSignup rt input => snd (signup rt input w)
  | CallLogin rt e p => snd (login rt e p w)
  | CallLogout ctx => snd (logout ctx w)
  end.

Definition run_calls {num} (calls : list AuthCall) (w : World num) : World num :=
  fold_left run_call calls w.

(** The eighteenth birthday [(y + 18, m, d)] of a date of birth is not
    after today's date, in calendar order. *)
Definition eighteenth_birthday_reached (ty tm td dy dm dd : Z) : Prop :=
  dy + 18 < ty \/ (dy + 18 = ty /\ (dm < tm \/ (dm = tm /\ dd <= td))).

(** The unique constraints on the tables the session operations write:
    [users.email], [sessions.token] and the two primary keys. *)
Definition auth_keys_unique {num} (d : Store num) : Prop :=
  NoDup (map email (users d))
  /\ NoDup (map user_id (users d))
  /\ NoDup (map token (sessions d))
  /\ NoDup (map session_id (sessions d)).

(** The number a sequence of bytes denotes, first byte most
    significant. *)
Definition bytes_value (bytes : list Byte.byte) : Z :=
  fold_left (fun acc b => 256 * acc + Z.of_N (Byte.to_N b)) bytes 0.

(** The constraints on the accounts table: account numbers and ids are
    unique, and a user holds at most one account of a type. *)
Definition accounts_well_formed {num} (d : Store num) : Prop :=
  NoDup (map accountNumber (accounts d))
  /\ NoDup (map account_id (accounts d))
  /\ forall uid ty,
       (List.length (filter (fun a => (account_userId a =? uid)%Z
                                      && AccountType_eqb (accountType a) ty)
                            (accounts d)) <= 1)%nat.


(** A signup input whose address, password and state are ASCII text:
    the texts on which the schema measures a length or changes case. *)
Definition ascii_input (raw : SignupInput) : Prop :=
  ascii_text (in_email raw)
  /\ ascii_text (in_password raw)
  /\ ascii_text (state (in_profile raw)).

End Spec.
Import Spec.

(* ===================================================================== *)
(** * Properties *)
(* ===================================================================== *)

(** ** The Luhn check *)

Section LuhnFacts.

Lemma parseInt10_digit (c : ascii) :
  is_digit c = true -> parseInt10 c = Some (digit_value c).
Proof. intros Hc. unfold parseInt10, digit_value. now rewrite Hc. Qed.

(** The loop adds to its accumulator the terms of the positions it
    visits; [isEven] is the parity of the position. *)
Lemma luhn_loop_terms (chars : list ascii) :
  forall (acc : Z) (pos : nat),
    Forall (fun c => is_digit c = true) chars ->
    luhn_loop chars (Some acc) (Nat.odd pos)
    = Some (acc + luhn_terms_from pos (map digit_value chars)).
Proof.
  induction chars as [|c rest IH]; intros acc pos Hd;
    cbn [luhn_loop luhn_terms_from map].
  - now rewrite Z.add_0_r.
  - inversion Hd as [|? ? Hc Hrest]; subst.
    rewrite (parseInt10_digit c Hc).
    assert (Hpar : negb (Nat.odd pos) = Nat.odd (S pos)).
    { rewrite Nat.odd_succ. now rewrite <- Nat.negb_odd. }
    rewrite Hpar. unfold luhn_term.
    destruct (Nat.odd pos); cbn [option_map].
    + rewrite (Z.mul_comm (digit_value c) 2).
      rewrite IH by assumption. f_equal. lia.
    + rewrite IH by assumption. f_equal. lia.
Qed.

End LuhnFacts.

(** C2. For every card number made of decimal digits, [isValidLuhn]
    answers true exactly when the Luhn checksum (rightmost digit first,
    every second digit doubled, 9 subtracted from a doubled value above 9,
    sum modulo 10) is 0. *)
Theorem isValidLuhn_iff_checksum_zero (cardNumber : string) :
  all_digits cardNumber ->
  (isValidLuhn cardNumber = true <-> luhn_checksum cardNumber = 0).
Proof.
  intros Hd. unfold isValidLuhn, luhn_checksum.
  change false with (Nat.odd 0).
  rewrite luhn_loop_terms by (apply Forall_rev; exact Hd).
  rewrite Z.add_0_l. apply Z.eqb_eq.
Qed.

Lemma isValidLuhn_iff_checksum_zero_witness :
  all_digits "4111111111111111"
  /\ (isValidLuhn "4111111111111111" = true <-> luhn_checksum "4111111111111111" = 0).
Proof.
  split.
  - repeat constructor.
  - apply (isValidLuhn_iff_checksum_zero "4111111111111111"). repeat constructor.
Defined.

Example isValidLuhn_test_cards :
  isValidLuhn "4111111111111111" = true /\ isValidLuhn "4111111111111112" = false.
Proof. split; reflexivity. Qed.

(** A character that is not a digit makes the sum NaN and the check fail. *)
Example isValidLuhn_not_a_number : isValidLuhn "4111 1111" = false.
Proof. reflexivity. Qed.

(** ** Funding: the three outcomes of [fundAccount] *)

Ltac handler_unfold :=
  unfold Trpc.bind, Trpc.ret, Trpc.throw, Trpc.query, Trpc.run, Trpc.run_checked,
    Trpc.set_response_header.

Section FundAccountFacts.
Context {num : Type} `{JsNumber num}.

Lemma digits_n_9_empty : digits_n 9 EmptyString = false.
Proof. reflexivity. Qed.

Lemma routing_rejected_iff (r : option string) :
  routing_rejected r = true
  <-> match r with None => True | Some s => digits_n 9 s = false end.
Proof.
  destruct r as [s|]; simpl; [|tauto].
  destruct s as [|c s]; simpl; [tauto|].
  now rewrite negb_true_iff.
Qed.

(** A failing funding source is refused with Bad Request and the world
    is handed back as it was received. *)
Lemma fundAccount_invalid_source (u : User) (input : FundInput num) (now : Z)
    (w : World num) :
  funding_source_invalid (input_fundingSource input) ->
  exists m, fundAccount u input now w
            = (inl {| code := BAD_REQUEST; message := m |}, w)
            /\ (fs_type (input_fundingSource input) = card ->
                detectCardType (fs_accountNumber (input_fundingSource input)) = None ->
                m = msg_network).
Proof.
  unfold funding_source_invalid, fundAccount. handler_unfold.
  destruct (fs_type (input_fundingSource input)) eqn:Hty.
  - (* card *)
    intros Hbad.
    destruct (detectCardType (fs_accountNumber (input_fundingSource input))) eqn:Hnet.
    + destruct Hbad as [Hbad|Hbad]; [discriminate|]. rewrite Hbad. cbn.
      exists msg_luhn. split; [reflexivity|]. intros _ Hn. discriminate.
    + exists msg_network. split; reflexivity.
  - (* bank *)
    intros Hbad. apply routing_rejected_iff in Hbad. rewrite Hbad.
    exists msg_routing. split; [reflexivity|]. intros Hc. discriminate.
Qed.

(** With a funding source that passes, the outcome is decided by the
    account lookup alone. *)
Lemma fundAccount_valid_source (u : User) (input : FundInput num) (now : Z)
    (w : World num) :
  ~ funding_source_invalid (input_fundingSource input) ->
  fundAccount u input now w =
  match account_of_user (db w) (input_accountId input) (user_id u) with
  | None => (inl {| code := NOT_FOUND; message := "Account not found" |}, w)
  | Some account =>
      if negb (String.eqb (status account) "active")
      then (inl {| code := BAD_REQUEST; message := "Account is not active" |}, w)
      else
        let amount := round2 (input_amount input) in
        let d1 := insert_transaction (db w) (input_accountId input) "deposit" amount
                    ("Funding from "
                       ++ FundingType_name (fs_type (input_fundingSource input)))%string
                    "completed" now in
        let newBalance := round2 (num_add (balance account) amount) in
        (inr {| transaction :=
                  get (limit 1 (orderBy_desc tx_id
                                  (transactions_of d1 (input_accountId input))));
                newBalance := newBalance |},
         {| db := update_balance d1 (input_accountId input) newBalance;
            res := res w |})
  end.
Proof.
  unfold funding_source_invalid, fundAccount. handler_unfold.
  destruct (fs_type (input_fundingSource input)) eqn:Hty.
  - intros Hok.
    destruct (detectCardType (fs_accountNumber (input_fundingSource input))) eqn:Hnet;
      [|exfalso; apply Hok; now left].
    destruct (isValidLuhn (fs_accountNumber (input_fundingSource input))) eqn:Hl;
      [|exfalso; apply Hok; now right].
    cbn.
    destruct (account_of_user (db w) (input_accountId input) (user_id u)); [|reflexivity].
    destruct (negb (String.eqb (status a) "active")); reflexivity.
  - intros Hok.
    destruct (routing_rejected (fs_routingNumber (input_fundingSource input))) eqn:Hr.
    { exfalso. apply Hok. now apply routing_rejected_iff. }
    cbn.
    destruct (account_of_user (db w) (input_accountId input) (user_id u)); [|reflexivity].
    destruct (negb (String.eqb (status a) "active")); reflexivity.
Qed.

Lemma absent_or_foreign_lookup (d : Store num) (accountId : Z) (u : User) :
  absent_or_foreign d accountId u -> account_of_user d accountId (user_id u) = None.
Proof.
  unfold absent_or_foreign, account_of_user, get. intros Hno.
  destruct (filter _ (accounts d)) as [|a l] eqn:Hf; [reflexivity|].
  assert (Hin : In a (filter (fun a => (account_id a =? accountId)
                                       && (account_userId a =? user_id u)) (accounts d)))
    by (rewrite Hf; now left).
  apply filter_In in Hin. destruct Hin as [Hin Hp].
  apply andb_true_iff in Hp. destruct Hp as [Hid Huid].
  apply Z.eqb_eq in Hid, Huid. exfalso. exact (Hno a Hin Hid Huid).
Qed.

End FundAccountFacts.

(** C6. A [fundAccount] call whose funding source fails validation (bank
    source with a missing or non-nine-digit routing number, card source
    with an unrecognised network or a failing Luhn check) throws Bad
    Request and leaves the store untouched: no transaction row, no balance
    change.  An unrecognised network is reported whatever the Luhn check
    would say. *)
Theorem fundAccount_rejects_invalid_source_unchanged
    {num : Type} `{JsNumber num}
    (u : User) (input : FundInput num) (now : Z) (w : World num) :
  funding_source_invalid (input_fundingSource input) ->
  exists m,
    fundAccount u input now w = (inl {| code := BAD_REQUEST; message := m |}, w)
    /\ transactions (db (snd (fundAccount u input now w))) = transactions (db w)
    /\ accounts (db (snd (fundAccount u input now w))) = accounts (db w)
    /\ (fs_type (input_fundingSource input) = card ->
        detectCardType (fs_accountNumber (input_fundingSource input)) = None ->
        m = msg_network).
Proof.
  intros Hbad.
  destruct (fundAccount_invalid_source u input now w Hbad) as [m [Heq Hmsg]].
  exists m. rewrite Heq. repeat split; auto.
Qed.

Lemma fundAccount_rejects_invalid_source_unchanged_witness :
  let input := {| input_accountId := 1; input_amount := 50%float;
                  input_fundingSource :=
                    {| fs_type := card; fs_accountNumber := "4111111111111112";
                       fs_routingNumber := None |} |} in
  funding_source_invalid (input_fundingSource input)
  /\ exists m,
      fundAccount Fixture.john input 0 Fixture.bank_world
      = (inl {| code := BAD_REQUEST; message := m |}, Fixture.bank_world)
      /\ transactions (db (snd (fundAccount Fixture.john input 0 Fixture.bank_world)))
         = transactions (db Fixture.bank_world)
      /\ accounts (db (snd (fundAccount Fixture.john input 0 Fixture.bank_world)))
         = accounts (db Fixture.bank_world)
      /\ (fs_type (input_fundingSource input) = card ->
          detectCardType (fs_accountNumber (input_fundingSource input)) = None ->
          m = msg_network).
Proof.
  intros input.
  assert (Hbad : funding_source_invalid (input_fundingSource input))
    by (right; reflexivity).
  split; [exact Hbad|].
  exact (fundAccount_rejects_invalid_source_unchanged
           Fixture.john input 0 Fixture.bank_world Hbad).
Defined.

(** ** The store: fresh identifiers, newest row, balance update *)

Section StoreFacts.
Context {num : Type}.

Lemma next_id_above_seq (seq : Z) (ids : list Z) : seq < next_id seq ids.
Proof.
  unfold next_id. induction ids as [|i ids IH]; simpl; lia.
Qed.

Lemma next_id_above_ids (seq : Z) (ids : list Z) (i : Z) :
  In i ids -> i < next_id seq ids.
Proof.
  unfold next_id. induction ids as [|j ids IH]; simpl; [tauto|].
  intros [->|Hin]; [lia|]. specialize (IH Hin). lia.
Qed.

(** Sorting a list to which a row with the largest key was appended puts
    that row first. *)
Lemma orderBy_desc_newest {A} (key : A -> Z) (l : list A) (x : A) :
  (forall y, In y l -> key y < key x) ->
  exists rest, orderBy_desc key (l ++ [x]) = x :: rest.
Proof.
  unfold orderBy_desc. rewrite fold_right_app. cbn [fold_right insert_desc].
  induction l as [|y l IH]; intros Hlt; cbn [fold_right].
  - now exists [].
  - destruct IH as [rest Hrest]; [intros z Hz; apply Hlt; now right|].
    rewrite Hrest. cbn [insert_desc].
    assert (Hy : key y < key x) by (apply Hlt; now left).
    destruct (Z.ltb_spec (key x) (key y)); [lia|].
    now exists (insert_desc key y rest).
Qed.

Lemma transactions_of_insert (d : Store num) (aid : Z) (ty : string) (amt : num)
    (descr st : string) (now : Z) :
  transactions_of (insert_transaction d aid ty amt descr st now) aid
  = (transactions_of d aid
     ++ [{| tx_id := next_id (seq_transactions d) (map tx_id (transactions d));
            tx_accountId := aid; tx_type := ty; amount := amt;
            description := descr; tx_status := st;
            createdAt := now / 1000; processedAt := Some now |}])%list.
Proof.
  unfold transactions_of, insert_transaction. cbn.
  rewrite filter_app. cbn. now rewrite Z.eqb_refl.
Qed.

(** The re-read after the insert finds the row just inserted. *)
Lemma newest_after_insert (d : Store num) (aid : Z) (ty : string) (amt : num)
    (descr st : string) (now : Z) :
  get (limit 1 (orderBy_desc tx_id
                  (transactions_of (insert_transaction d aid ty amt descr st now) aid)))
  = Some {| tx_id := next_id (seq_transactions d) (map tx_id (transactions d));
            tx_accountId := aid; tx_type := ty; amount := amt;
            description := descr; tx_status := st;
            createdAt := now / 1000; processedAt := Some now |}.
Proof.
  rewrite transactions_of_insert.
  match goal with
  | |- context [orderBy_desc tx_id (?l ++ [?x])] =>
      destruct (orderBy_desc_newest tx_id l x) as [rest Hrest]
  end.
  - intros y Hy. cbn. apply next_id_above_ids.
    apply in_map. unfold transactions_of in Hy. apply filter_In in Hy. tauto.
  - rewrite Hrest. reflexivity.
Qed.

(** The balance update keeps the account where it was, with the new
    balance and nothing else changed. *)
Lemma account_of_user_update_balance (d : Store num) (aid uid : Z) (b : num) :
  account_of_user (update_balance d aid b) aid uid
  = option_map (fun a => {| account_id := account_id a;
                            account_userId := account_userId a;
                            accountNumber := accountNumber a;
                            accountType := accountType a;
                            balance := b; status := status a |})
               (account_of_user d aid uid).
Proof.
  unfold account_of_user, update_balance, get. cbn.
  induction (accounts d) as [|a l IH]; cbn; [reflexivity|].
  destruct (Z.eqb_spec (account_id a) aid) as [Hid|Hid]; cbn.
  - rewrite Hid, Z.eqb_refl. cbn.
    destruct (account_userId a =? uid); cbn; [now rewrite Hid|exact IH].
  - apply Z.eqb_neq in Hid. rewrite Hid. cbn. exact IH.
Qed.

Lemma account_of_user_insert_transaction (d : Store num) (aid' : Z) (ty : string)
    (amt : num) (descr st : string) (now aid uid : Z) :
  account_of_user (insert_transaction d aid' ty amt descr st now) aid uid
  = account_of_user d aid uid.
Proof. reflexivity. Qed.

End StoreFacts.

Lemma funding_source_invalid_dec (fs : FundingSource) :
  funding_source_invalid fs \/ ~ funding_source_invalid fs.
Proof.
  unfold funding_source_invalid.
  destruct (fs_type fs).
  - destruct (detectCardType (fs_accountNumber fs));
      destruct (isValidLuhn (fs_accountNumber fs)); intuition congruence.
  - destruct (fs_routingNumber fs) as [r|]; [|now left].
    destruct (digits_n 9 r); intuition congruence.
Qed.

Section FundAccountSuccess.
Context {num : Type} `{JsNumber num}.

(** What a call that returned has done. *)
Lemma fundAccount_success_inv (u : User) (input : FundInput num) (now : Z)
    (w w' : World num) (r : FundResult num) :
  fundAccount u input now w = (inr r, w') ->
  exists account,
    ~ funding_source_invalid (input_fundingSource input)
    /\ account_of_user (db w) (input_accountId input) (user_id u) = Some account
    /\ String.eqb (status account) "active" = true
    /\ transaction r
       = Some {| tx_id := next_id (seq_transactions (db w))
                                  (map tx_id (transactions (db w)));
                 tx_accountId := input_accountId input; tx_type := "deposit";
                 amount := round2 (input_amount input);
                 description :=
                   ("Funding from "
                      ++ FundingType_name (fs_type (input_fundingSource input)))%string;
                 tx_status := "completed";
                 createdAt := now / 1000; processedAt := Some now |}
    /\ newBalance r = round2 (num_add (balance account) (round2 (input_amount input)))
    /\ w' = {| db := update_balance
                       (insert_transaction (db w) (input_accountId input) "deposit"
                          (round2 (input_amount input))
                          ("Funding from "
                             ++ FundingType_name
                                  (fs_type (input_fundingSource input)))%string
                          "completed" now)
                       (input_accountId input) (newBalance r);
               res := res w |}.
Proof.
  intros Hrun.
  destruct (funding_source_invalid_dec (input_fundingSource input)) as [Hbad|Hok].
  { destruct (fundAccount_invalid_source u input now w Hbad) as [m [Heq _]].
    rewrite Heq in Hrun. discriminate. }
  rewrite (fundAccount_valid_source u input now w Hok) in Hrun.
  destruct (account_of_user (db w) (input_accountId input) (user_id u))
    as [account|] eqn:Hacc; [|discriminate].
  destruct (String.eqb (status account) "active") eqn:Hst;
    cbn [negb] in Hrun; cbv zeta in Hrun; [|discriminate].
  rewrite newest_after_insert in Hrun.
  injection Hrun as Hr Hw. subst r w'.
  exists account. cbn [transaction newBalance]. repeat split; auto.
Qed.

End FundAccountSuccess.

(** ** Ownership failures *)

(** C7, as stated, fails: a [fundAccount] call for an account that does
    not exist is answered with Bad Request, not Not Found, when its
    funding source is refused first (here a bank source without a routing
    number, for account 99 of a store whose only account is number 1). *)
Lemma fundAccount_absent_account_not_always_not_found :
  ~ (forall (u : User) (input : FundInput float) (now : Z) (w : World float),
        absent_or_foreign (db w) (input_accountId input) u ->
        exists m, fst (fundAccount u input now w)
                  = inl {| code := NOT_FOUND; message := m |}).
Proof.
  intros Hclaim.
  destruct (Hclaim Fixture.john
              {| input_accountId := 99; input_amount := 50%float;
                 input_fundingSource :=
                   {| fs_type := bank; fs_accountNumber := "000123456789";
                      fs_routingNumber := None |} |}
              0 Fixture.bank_world) as [m Hm].
  - intros a [<-|[]] Hid. discriminate Hid.
  - cbv in Hm. discriminate Hm.
Qed.

(** C7, amended. When the account id names no account or an account of
    another user, [getTransactions] fails with Not Found, and so does
    [fundAccount] once its funding source has passed validation; the
    store is left as it was, the answer is the same in both situations,
    and no [fundAccount] error is ever Forbidden. *)
Theorem absent_or_foreign_account_is_not_found
    {num : Type} `{JsNumber num}
    (u : User) (input : FundInput num) (now : Z) (w : World num) :
  absent_or_foreign (db w) (input_accountId input) u ->
  (~ funding_source_invalid (input_fundingSource input) ->
   fundAccount u input now w
   = (inl {| code := NOT_FOUND; message := "Account not found" |}, w))
  /\ getTransactions u (input_accountId input) w
     = (inl {| code := NOT_FOUND; message := "Account not found" |}, w)
  /\ (forall e, fst (fundAccount u input now w) = inl e -> code e <> FORBIDDEN).
Proof.
  intros Hno. apply absent_or_foreign_lookup in Hno.
  assert (Hfund : ~ funding_source_invalid (input_fundingSource input) ->
                  fundAccount u input now w
                  = (inl {| code := NOT_FOUND; message := "Account not found" |}, w)).
  { intros Hok. rewrite (fundAccount_valid_source u input now w Hok).
    now rewrite Hno. }
  split; [exact Hfund|]. split.
  - unfold getTransactions. handler_unfold. now rewrite Hno.
  - intros e He.
    destruct (funding_source_invalid_dec (input_fundingSource input)) as [Hbad|Hok].
    + destruct (fundAccount_invalid_source u input now w Hbad) as [m [Heq _]].
      rewrite Heq in He. cbn in He. injection He as <-. discriminate.
    + rewrite (Hfund Hok) in He. cbn in He. injection He as <-. discriminate.
Qed.

Lemma absent_or_foreign_account_is_not_found_witness :
  let input := {| input_accountId := 1; input_amount := 50%float;
                  input_fundingSource := Fixture.visa_source |} in
  absent_or_foreign (db Fixture.bank_world) 1 Fixture.jane
  /\ ~ funding_source_invalid Fixture.visa_source
  /\ fundAccount Fixture.jane input 0 Fixture.bank_world
     = (inl {| code := NOT_FOUND; message := "Account not found" |}, Fixture.bank_world)
  /\ getTransactions Fixture.jane 1 Fixture.bank_world
     = (inl {| code := NOT_FOUND; message := "Account not found" |}, Fixture.bank_world).
Proof.
  intros input.
  assert (Hno : absent_or_foreign (db Fixture.bank_world) (input_accountId input)
                                  Fixture.jane).
  { intros a [<-|[]] _. discriminate. }
  assert (Hok : ~ funding_source_invalid Fixture.visa_source).
  { intros [Hn|Hl]; discriminate. }
  destruct (absent_or_foreign_account_is_not_found Fixture.jane input 0
              Fixture.bank_world Hno) as [Hf [Hg _]].
  split; [exact Hno|]. split; [exact Hok|]. split; [exact (Hf Hok)|exact Hg].
Defined.

(** ** The returned transaction *)

(** C8. A [fundAccount] call that succeeds returns the row it has just
    inserted: a row that was not in the table before, is in it after,
    carries the rounded amount of the call and has an identifier above
    every earlier one.  A second call on the same account therefore
    returns a transaction with the second amount and an identifier
    different from the first call's. *)
Theorem fundAccount_returns_the_new_transaction
    {num : Type} `{JsNumber num}
    (u : User) (input1 input2 : FundInput num) (now1 now2 : Z)
    (w w1 : World num) (r1 : FundResult num) :
  fundAccount u input1 now1 w = (inr r1, w1) ->
  input_accountId input2 = input_accountId input1 ->
  ~ funding_source_invalid (input_fundingSource input2) ->
  exists t1 t2 r2 w2,
    transaction r1 = Some t1
    /\ amount t1 = round2 (input_amount input1)
    /\ ~ In t1 (transactions (db w))
    /\ In t1 (transactions (db w1))
    /\ (forall t, In t (transactions (db w)) -> tx_id t < tx_id t1)
    /\ fundAccount u input2 now2 w1 = (inr r2, w2)
    /\ transaction r2 = Some t2
    /\ amount t2 = round2 (input_amount input2)
    /\ tx_accountId t2 = input_accountId input2
    /\ tx_id t2 <> tx_id t1
    /\ ~ In t2 (transactions (db w1))
    /\ In t2 (transactions (db w2)).
Proof.
  intros Hrun1 Haid Hok2.
  destruct (fundAccount_success_inv u input1 now1 w w1 r1 Hrun1)
    as [account [Hok1 [Hacc [Hst [Htx1 [Hnb1 Hw1]]]]]].
  (* the second call finds the same account, still active *)
  assert (Hacc1 : exists account1,
             account_of_user (db w1) (input_accountId input2) (user_id u) = Some account1
             /\ status account1 = status account).
  { subst w1. cbn [db]. rewrite Haid. rewrite account_of_user_update_balance.
    rewrite account_of_user_insert_transaction, Hacc. cbn.
    eexists. split; reflexivity. }
  destruct Hacc1 as [account1 [Hacc1 Hst1]].
  pose proof (fundAccount_valid_source u input2 now2 w1 Hok2) as Hrun2.
  rewrite Hacc1, Hst1, Hst in Hrun2. cbn [negb] in Hrun2. cbv zeta in Hrun2.
  rewrite newest_after_insert in Hrun2.
  assert (Hfresh : forall (d : Store num) (t : Transaction num),
             In t (transactions d) ->
             tx_id t < next_id (seq_transactions d) (map tx_id (transactions d))).
  { intros d t Hin. apply next_id_above_ids. now apply in_map. }
  assert (Hin1 : forall t, In t (transactions (db w)) -> In t (transactions (db w1))).
  { intros t Hin. subst w1. cbn. apply in_or_app. now left. }
  do 4 eexists.
  split; [exact Htx1|]. split; [reflexivity|].
  split.
  { intros Hin. apply Hfresh in Hin. cbn in Hin. lia. }
  split.
  { subst w1. cbn. apply in_or_app. right. now left. }
  split.
  { intros t Hin. apply Hfresh in Hin. exact Hin. }
  split; [exact Hrun2|]. cbn [transaction tx_id amount tx_accountId].
  split; [reflexivity|]. split; [reflexivity|]. split; [reflexivity|].
  split.
  { assert (Hlt : next_id (seq_transactions (db w)) (map tx_id (transactions (db w)))
                  < next_id (seq_transactions (db w1)) (map tx_id (transactions (db w1)))).
    { subst w1. cbn. apply next_id_above_seq. }
    cbn [tx_id]. lia. }
  split.
  { intros Hin. apply Hfresh in Hin. cbn [tx_id] in Hin. lia. }
  cbn. apply in_or_app. right. now left.
Qed.

Lemma fundAccount_returns_the_new_transaction_witness :
  let input1 := {| input_accountId := 1; input_amount := 50%float;
                   input_fundingSource := Fixture.visa_source |} in
  let input2 := {| input_accountId := 1; input_amount := 20%float;
                   input_fundingSource := Fixture.visa_source |} in
  exists r1 w1,
    fundAccount Fixture.john input1 1000 Fixture.bank_world = (inr r1, w1)
    /\ ~ funding_source_invalid (input_fundingSource input2)
    /\ exists t1 t2 r2 w2,
        transaction r1 = Some t1
        /\ amount t1 = round2 (input_amount input1)
        /\ ~ In t1 (transactions (db Fixture.bank_world))
        /\ In t1 (transactions (db w1))
        /\ (forall t, In t (transactions (db Fixture.bank_world)) -> tx_id t < tx_id t1)
        /\ fundAccount Fixture.john input2 2000 w1 = (inr r2, w2)
        /\ transaction r2 = Some t2
        /\ amount t2 = round2 (input_amount input2)
        /\ tx_accountId t2 = input_accountId input2
        /\ tx_id t2 <> tx_id t1
        /\ ~ In t2 (transactions (db w1))
        /\ In t2 (transactions (db w2)).
Proof.
  intros input1 input2.
  assert (Hok : ~ funding_source_invalid (input_fundingSource input2)).
  { intros [Hn|Hl]; discriminate. }
  destruct (fundAccount Fixture.john input1 1000 Fixture.bank_world)
    as [[e|r1] w1] eqn:Hrun1.
  - exfalso. vm_compute in Hrun1. discriminate Hrun1.
  - exists r1, w1. split; [reflexivity|]. split; [exact Hok|].
    exact (fundAccount_returns_the_new_transaction
             Fixture.john input1 input2 1000 2000 Fixture.bank_world w1 r1
             Hrun1 eq_refl Hok).
Defined.

(** The two deposits of the integration test: 50, then 20. *)
Example fundAccount_twice_in_a_row :
  exists t1 w1 b1 t2 w2 b2,
    fundAccount Fixture.john
      {| input_accountId := 1; input_amount := 50%float;
         input_fundingSource := Fixture.visa_source |} 1000 Fixture.bank_world
    = (inr {| transaction := Some t1; newBalance := b1 |}, w1)
    /\ fundAccount Fixture.john
         {| input_accountId := 1; input_amount := 20%float;
            input_fundingSource := Fixture.visa_source |} 2000 w1
       = (inr {| transaction := Some t2; newBalance := b2 |}, w2)
    /\ (amount t1, tx_id t1, b1) = (50%float, 1, 50%float)
    /\ (amount t2, tx_id t2, b2) = (20%float, 2, 70%float).
Proof.
  do 6 eexists. split; [vm_compute; reflexivity|].
  split; [vm_compute; reflexivity|]. split; reflexivity.
Qed.

(** An amount of zero is refused by the input schema. *)
Example fundAccount_zero_amount :
  fundAccount_procedure Fixture.john_ctx (Fixture.deposit 0%float) 0 Fixture.bank_world
  = (inl {| code := BAD_REQUEST; message := "Amount must be at least $0.01" |},
     Fixture.bank_world).
Proof. vm_compute. reflexivity. Qed.

(** Without an identity the gate answers before anything else. *)
Example fundAccount_unauthorized :
  fst (fundAccount_procedure {| user := None; req := PlainRequest None |}
         (Fixture.deposit 50%float) 0 Fixture.bank_world)
  = inl {| code := UNAUTHORIZED; message := "UNAUTHORIZED" |}.
Proof. reflexivity. Qed.

(** ** Balance arithmetic *)

Section FundingStep.
Context {num : Type} `{JsNumber num}.

Lemma fundable_no_issue (accountId : Z) (input : FundInput num) :
  fundable accountId input -> fundAccount_input_issue input = None.
Proof.
  intros (_ & Hnan & Hlo & Hhi & Hne & _). unfold fundAccount_input_issue.
  rewrite Hnan, Hlo, Hhi. cbn [negb].
  destruct (fs_accountNumber (input_fundingSource input)); [congruence|reflexivity].
Qed.

Lemma transactions_of_update_balance (d : Store num) (aid aid' : Z) (b : num) :
  transactions_of (update_balance d aid b) aid' = transactions_of d aid'.
Proof. reflexivity. Qed.



End FundingStep.




(** Without the rounding of the sum the same deposits would drift. *)
Example twenty_deposits_unrounded_sum :
  num_sum (repeat 1.05%float 20) = 21.000000000000007%float.
Proof. vm_compute. reflexivity. Qed.

(** ** Context resolution *)

Section ContextFacts.
Context {num : Type} (rt : Runtime).


(** With a token that verifies and a session row for it, the identity
    is decided by the remaining lifetime alone. *)
Lemma createContext_with_session (r : Req) (w : World num) (tok : string)
    (uid : Z) (s : Session) :
  context_token r = Some tok ->
  truthy tok = true ->
  jwt_verify rt tok (getJwtSecret rt) = Some uid ->
  session_by_token (db w) tok = Some s ->
  fst (createContext rt r w)
  = inr {| user := if 60000 <? expiresAt s - Date_now rt
                   then user_by_id (db w) uid else None;
           req := r |}.
Proof.
  intros Htok Htruthy Hverify Hsession.
  unfold createContext. handler_unfold.
  unfold getJwtSecret in Hverify.
  rewrite Htok, Htruthy, Hverify, Hsession.
  destruct (60000 <? expiresAt s - Date_now rt); reflexivity.
Qed.

(** Without a session row for the token there is no identity. *)
Lemma createContext_without_session (r : Req) (w : World num) (tok : string) :
  context_token r = Some tok ->
  session_by_token (db w) tok = None ->
  identity_of (fst (createContext rt r w)) = None.
Proof.
  intros Htok Hsession. unfold createContext. handler_unfold.
  rewrite Htok.
  destruct (truthy tok); [|reflexivity].
  destruct (jwt_verify rt tok _) as [uid|]; [|reflexivity].
  now rewrite Hsession.
Qed.

End ContextFacts.



(** The two sessions of the specification: 30 and 120 seconds left. *)
Example createContext_30s_and_120s :
  let rt := Fixture.stub_runtime 0 1000000 in
  let r := FetchRequest (Some "theme=dark; session=tokA") in
  identity_of (fst (createContext rt r (Fixture.session_world 1030000))) = None
  /\ identity_of (fst (createContext rt r (Fixture.session_world 1120000)))
     = Some Fixture.john.
Proof. split; reflexivity. Qed.

(** ** Sessions *)

Section SessionFacts.
Context {num : Type}.

Lemma sessions_of_delete_same (d : Store num) (uid : Z) :
  sessions_of (delete_sessions_of_user d uid) uid = [].
Proof.
  unfold sessions_of, delete_sessions_of_user. cbn.
  induction (sessions d) as [|s l IH]; cbn; [reflexivity|].
  destruct (session_userId s =? uid) eqn:Hs; cbn; [exact IH|].
  now rewrite Hs.
Qed.



Lemma insert_session_rows (d d' : Store num) (uid : Z) (t : string) (e : Z) :
  insert_session d uid t e = Some d' ->
  existsb (fun s => String.eqb (token s) t) (sessions d) = false
  /\ users d' = users d
  /\ sessions d'
     = (sessions d
        ++ [{| session_id := next_id (seq_sessions d) (map session_id (sessions d));
               session_userId := uid; token := t; expiresAt := e |}])%list
  /\ seq_sessions d' = next_id (seq_sessions d) (map session_id (sessions d)).
Proof.
  unfold insert_session.
  destruct (existsb _ (sessions d)); [discriminate|].
  intros Hd. injection Hd as <-. repeat split.
Qed.


End SessionFacts.

Section AuthFacts.
Context {num : Type} (rt : Runtime).

(** The store [start_session] leaves: the user's rows are gone and,
    unless the insert was refused, the new row is there. *)
Lemma start_session_db (u : User) (w : World num) :
  db (snd (start_session rt u w))
  = match insert_session (delete_sessions_of_user (db w) (user_id u)) (user_id u)
            (jwt_sign rt (getJwtSecret rt) (user_id u))
            (plus_days rt (Date_now rt) 7) with
    | Some d => d
    | None => delete_sessions_of_user (db w) (user_id u)
    end.
Proof.
  unfold start_session. handler_unfold. cbn [db res].
  destruct (insert_session _ _ _ _); reflexivity.
Qed.

Lemma start_session_success (u : User) (w w' : World num) (a : AuthResult) :
  start_session rt u w = (inr a, w') ->
  auth_user a = sanitize u
  /\ insert_session (delete_sessions_of_user (db w) (user_id u)) (user_id u)
       (auth_token a) (plus_days rt (Date_now rt) 7) = Some (db w').
Proof.
  unfold start_session. handler_unfold. cbn [db res].
  destruct (insert_session _ _ _ _) as [d|] eqn:Hins; [|discriminate].
  intros Hrun. injection Hrun as <- <-. split; [reflexivity|exact Hins].
Qed.


(** After a successful [start_session] no row carries a token other
    than the new one for that user, and no row of anyone carries a token
    that was the user's alone. *)
Lemma start_session_rows (u : User) (w w' : World num) (a : AuthResult) :
  start_session rt u w = (inr a, w') ->
  users (db w') = users (db w)
  /\ sessions_of (db w') (user_id u)
     = [{| session_id := next_id (seq_sessions (db w))
                           (map session_id
                              (sessions (delete_sessions_of_user (db w) (user_id u))));
           session_userId := user_id u; token := auth_token a;
           expiresAt := plus_days rt (Date_now rt) 7 |}]
  /\ (forall s, In s (sessions (db w')) ->
                session_userId s <> user_id u -> token s <> auth_token a).
Proof.
  intros Hrun. apply start_session_success in Hrun. destruct Hrun as [_ Hins].
  apply insert_session_rows in Hins. destruct Hins as (Hfresh & Husers & Hrows & _).
  split; [exact Husers|]. split.
  - unfold sessions_of at 1. rewrite Hrows, filter_app.
    fold (sessions_of (delete_sessions_of_user (db w) (user_id u)) (user_id u)).
    rewrite sessions_of_delete_same. cbn. now rewrite Z.eqb_refl.
  - intros s Hin Hother Htok. rewrite Hrows in Hin.
    apply in_app_or in Hin. destruct Hin as [Hin|[<-|[]]].
    + assert (Hex : existsb (fun s0 => String.eqb (token s0) (auth_token a))
                      (sessions (delete_sessions_of_user (db w) (user_id u))) = true).
      { apply existsb_exists. exists s. split; [exact Hin|]. now apply String.eqb_eq. }
      congruence.
    + now apply Hother.
Qed.






End AuthFacts.

Section SingleSession.
Context {num : Type}.

Lemma session_by_token_none (d : Store num) (t : string) :
  (forall s, In s (sessions d) -> token s <> t) -> session_by_token d t = None.
Proof.
  intros Hno. unfold session_by_token, get.
  destruct (filter _ (sessions d)) as [|s l] eqn:Hf; [reflexivity|].
  assert (Hin : In s (filter (fun s0 => String.eqb (token s0) t) (sessions d)))
    by (rewrite Hf; now left).
  apply filter_In in Hin. destruct Hin as [Hin Ht].
  apply String.eqb_eq in Ht. exfalso. exact (Hno s Hin Ht).
Qed.




End SingleSession.





(** Starting from an empty store. *)
Example sessions_after_some_calls :
  let rt := Fixture.stub_runtime 0 1000 in
  map (fun s => (session_userId s, token s))
      (sessions (db (run_calls [CallLogin rt "logic@example.com" "Password1!";
                                CallLogin rt "jane@example.com" "Password2!";
                                CallLogin rt "logic@example.com" "Password1!"]
                       (Fixture.bank_world (num := float)))))
  = [(2, "tokB"); (1, "tokA")].
Proof. reflexivity. Qed.

(** A login on top of stale rows of the same user leaves one row. *)
Example login_replaces_the_session :
  let rt := Fixture.stub_runtime 0 1000 in
  map token (sessions (db (snd (login rt "jane@example.com" "Password2!"
                                  (Fixture.session_world 5000)))))
  = ["tokA"; "tokB"]
  /\ map token (sessions (db (snd (login rt "logic@example.com" "Password1!"
                                     (Fixture.session_world 5000)))))
     = ["tokA"]
  /\ map session_id (sessions (db (snd (login rt "logic@example.com" "Password1!"
                                          (Fixture.session_world 5000)))))
     = [2].
Proof. repeat split. Qed.

(** ** Logout *)

Section LogoutFacts.
Context {num : Type}.

Lemma assoc_get_set (k v : string) (l : list (string * string)) :
  assoc_get k (assoc_set k v l) = Some v.
Proof.
  induction l as [|[k' v'] l IH]; cbn.
  - now rewrite String.eqb_refl.
  - destruct (String.eqb k' k) eqn:Hk; cbn.
    + now rewrite String.eqb_refl.
    + now rewrite Hk.
Qed.

(** What [logout] does for a caller with an identity: the answer only
    says whether a token was read from the request. *)
Lemma logout_authenticated (ctx : Context) (u : User) (w : World num) :
  user ctx = Some u ->
  logout ctx w =
  let present := match logout_token (req ctx) with
                 | Some t => truthy t
                 | None => false
                 end in
  (inr {| success := present;
          logout_message := if present then "Logged out successfully"
                            else "Failed to invalidate session" |},
   {| db := match logout_token (req ctx) with
            | Some t => if truthy t then delete_sessions_by_token (db w) t else db w
            | None => db w
            end;
      res := match res_kind (res w) with
             | NodeResponse => setHeader "Set-Cookie" cleared_cookie (res w)
             | FetchHeaders => Headers_set "Set-Cookie" cleared_cookie (res w)
             end |}).
Proof.
  intros Hu. unfold logout. rewrite Hu. handler_unfold.
  destruct (logout_token (req ctx)) as [t|]; [|reflexivity].
  destruct (truthy t); reflexivity.
Qed.

End LogoutFacts.

(** C5 fails on the code: [logout] answers [success = true] whenever it
    read a token from the request, whether or not a session row carried
    that token.  Here the request has two [session] cookies; context
    resolution takes the last one (a live session of John), [logout]
    takes the first one, for which there is no row: it reports success,
    deletes nothing, and John's session row is still there. *)
Theorem logout_reports_success_without_a_row :
  let rt := Fixture.stub_runtime 0 1000000 in
  let w := Fixture.session_world 9000000 in
  exists ctx w',
    createContext rt Fixture.two_cookie_request w = (inr ctx, w)
    /\ user ctx = Some Fixture.john
    /\ logout_token (req ctx) = Some "stale"
    /\ session_by_token (db w) "stale" = None
    /\ logout ctx w
       = (inr {| success := true; logout_message := "Logged out successfully" |}, w')
    /\ sessions (db w') = sessions (db w)
    /\ session_by_token (db w') "tokA" <> None.
Proof.
  do 2 eexists. split; [reflexivity|]. split; [reflexivity|].
  split; [reflexivity|]. split; [reflexivity|]. split; [reflexivity|].
  split; [reflexivity|]. discriminate.
Qed.

(** The same with a context built by hand, as the tests build it. *)
Example logout_success_on_empty_store :
  fst (logout {| user := Some Fixture.john;
                 req := PlainRequest (Some "session=stale") |}
         {| db := Fixture.empty_store (num := float); res := Fixture.node_res |})
  = inr {| success := true; logout_message := "Logged out successfully" |}.
Proof. reflexivity. Qed.

(** C10. For a caller with an identity, [logout] always answers (it
    does not throw) and always sets the session cookie to empty with
    [Max-Age=0], also when it found no token in the request and reports
    [success = false]. *)
Theorem logout_always_clears_cookie
    {num : Type} (ctx : Context) (u : User) (w : World num) :
  user ctx = Some u ->
  exists r w',
    logout ctx w = (inr r, w')
    /\ assoc_get "Set-Cookie" (res_headers (res w'))
       = Some "session=; Path=/; HttpOnly; SameSite=Strict; Max-Age=0"
    /\ (logout_token (req ctx) = None -> success r = false)
    /\ (success r = true
        <-> exists t, logout_token (req ctx) = Some t /\ truthy t = true).
Proof.
  intros Hu. rewrite (logout_authenticated ctx u w Hu). cbv zeta.
  do 2 eexists. split; [reflexivity|]. cbn [res success].
  split.
  - destruct (res_kind (res w)); cbn [setHeader Headers_set res_headers];
      apply assoc_get_set.
  - split.
    + intros Hnone. now rewrite Hnone.
    + destruct (logout_token (req ctx)) as [t|]; split.
      * intros Ht. now exists t.
      * intros (t' & Heq & Ht'). now injection Heq as ->.
      * discriminate.
      * intros (t' & Heq & _). discriminate.
Qed.

Lemma logout_always_clears_cookie_witness :
  let ctx := {| user := Some Fixture.john; req := PlainRequest (Some EmptyString) |} in
  let w := Fixture.session_world 9000000 in
  exists r w',
    logout ctx w = (inr r, w')
    /\ assoc_get "Set-Cookie" (res_headers (res w'))
       = Some "session=; Path=/; HttpOnly; SameSite=Strict; Max-Age=0"
    /\ (logout_token (req ctx) = None -> success r = false)
    /\ (success r = true
        <-> exists t, logout_token (req ctx) = Some t /\ truthy t = true).
Proof.
  intros ctx w.
  exact (logout_always_clears_cookie ctx Fixture.john w eq_refl).
Defined.

(** The negative path of the tests' caller: no token, no success, yet
    the cookie is cleared. *)
Example logout_negative_path :
  let ctx := {| user := Some Fixture.john; req := PlainRequest (Some EmptyString) |} in
  let out := logout ctx (Fixture.session_world 9000000) in
  fst out = inr {| success := false; logout_message := "Failed to invalidate session" |}
  /\ assoc_get "Set-Cookie" (res_headers (res (snd out))) = Some cleared_cookie.
Proof. split; reflexivity. Qed.

(** ** Date of birth *)

(** On calendar fields the age computation is exact: it finds 18 or
    more exactly when the eighteenth birthday is not after today. *)
Lemma age_from_fields_adult_iff (ty tm td dy dm dd : Z) :
(18 <=? age_from_fields ty tm td dy dm dd) = true
  <-> eighteenth_birthday_reached ty tm td dy dm dd.
Proof.
  unfold age_from_fields, eighteenth_birthday_reached. cbv zeta.
  rewrite Z.leb_le.
  destruct (Z.ltb_spec (tm - dm) 0); cbn [orb].
  - lia.
  - destruct (Z.eqb_spec (tm - dm) 0); cbn [andb].
    + destruct (Z.ltb_spec td dd); lia.
    + lia.
Qed.

(** A date in the future raises the second and the third issue. *)
Example dateOfBirth_in_the_future :
  dateOfBirth_issues Fixture.utc_runtime "2050-01-01"
  = ["Date of birth cannot be in the future";
     "You must be at least 18 years old to open an account"].
Proof. vm_compute. reflexivity. Qed.

(** With the server on UTC the two dates of the specification are told
    apart: on 2026-11-01, a birth on 2008-11-01 passes and one on
    2008-11-02 does not. *)
Example dateOfBirth_on_utc :
  dateOfBirth_accepted Fixture.utc_runtime "2008-11-01" = true
  /\ dateOfBirth_issues Fixture.utc_runtime "2008-11-02"
     = ["You must be at least 18 years old to open an account"].
Proof. split; vm_compute; reflexivity. Qed.

(** C9 fails on the code when the server's zone is west of UTC.  The
    date-only string is read as midnight UTC while the getters return
    local fields, so the date of birth is seen one day early.  At local
    noon of 2026-11-01, five hours west of UTC, a birth on 2008-11-02
    (17 years and 364 days before) is accepted. *)
Theorem dateOfBirth_accepted_one_day_early :
  let rt := Fixture.west_runtime in
  local_fields (LocalTZA rt) (Date_now rt) = (2026, 11, 1)
  /\ days_from_civil 2026 11 1 - days_from_civil (2008 + 17) 11 2 = 364
  /\ new_Date rt "2008-11-02" = Some (days_from_civil 2008 11 2 * msPerDay)
  /\ local_fields (LocalTZA rt) (days_from_civil 2008 11 2 * msPerDay) = (2008, 11, 1)
  /\ computed_age rt (Date_now rt) (days_from_civil 2008 11 2 * msPerDay) = 18
  /\ dateOfBirth_accepted rt "2008-11-02" = true
  /\ ~ eighteenth_birthday_reached 2026 11 1 2008 11 2.
Proof.
  cbv zeta. repeat split; try (vm_compute; reflexivity).
  unfold eighteenth_birthday_reached. lia.
Qed.


(* ===================================================================== *)
(** * Further properties of the handlers *)
(* ===================================================================== *)

(** ** Funding: failures, frame, ledger *)

Section FundingFailures.
Context {num : Type} `{JsNumber num}.

(** X1. A funding call that throws has changed nothing, neither in the
    store nor in the response, and its error is Unauthorized (no
    identity), Bad Request (input schema, funding source, inactive
    account) or Not Found (account lookup); an account that is found but
    not active gives Bad Request. *)
Theorem fundAccount_procedure_failure_is_clean
    (ctx : Context) (input : FundInput num) (now : Z) (w : World num) :
  (forall e w',
      fundAccount_procedure ctx input now w = (inl e, w') ->
      w' = w
      /\ (code e = UNAUTHORIZED \/ code e = BAD_REQUEST \/ code e = NOT_FOUND))
  /\ (forall u account,
        user ctx = Some u ->
        account_of_user (db w) (input_accountId input) (user_id u) = Some account ->
        status account <> "active" ->
        exists e, fundAccount_procedure ctx input now w = (inl e, w)
                  /\ code e = BAD_REQUEST).
Proof.
  split.
  - intros e w'. unfold fundAccount_procedure, protectedProcedure.
    destruct (user ctx) as [u|]; [|intros Hrun; injection Hrun as <- <-; auto].
    destruct (fundAccount_input_issue input) as [m|];
      [intros Hrun; injection Hrun as <- <-; auto|].
    destruct (funding_source_invalid_dec (input_fundingSource input)) as [Hbad|Hok].
    + destruct (fundAccount_invalid_source u input now w Hbad) as [m [Heq _]].
      rewrite Heq. intros Hrun. injection Hrun as <- <-. auto.
    + rewrite (fundAccount_valid_source u input now w Hok).
      destruct (account_of_user (db w) (input_accountId input) (user_id u)) as [a|];
        [|intros Hrun; injection Hrun as <- <-; auto].
      destruct (negb (String.eqb (status a) "active"));
        [intros Hrun; injection Hrun as <- <-; auto|].
      cbv zeta. discriminate.
  - intros u account Hu Hacc Hst.
    unfold fundAccount_procedure, protectedProcedure. rewrite Hu.
    destruct (fundAccount_input_issue input) as [m|]; [eexists; split; reflexivity|].
    destruct (funding_source_invalid_dec (input_fundingSource input)) as [Hbad|Hok].
    + destruct (fundAccount_invalid_source u input now w Hbad) as [m [Heq _]].
      rewrite Heq. eexists. split; reflexivity.
    + rewrite (fundAccount_valid_source u input now w Hok), Hacc.
      assert (Hne : String.eqb (status account) "active" = false)
        by (now apply String.eqb_neq).
      rewrite Hne. cbn [negb]. eexists. split; reflexivity.
Qed.

Lemma update_balance_accounts_fields (d : Store num) (aid : Z) (b : num) :
  map (fun a => (account_id a, account_userId a, accountNumber a, accountType a,
                 status a)) (accounts (update_balance d aid b))
  = map (fun a => (account_id a, account_userId a, accountNumber a, accountType a,
                   status a)) (accounts d).
Proof.
  unfold update_balance. cbn. rewrite map_map. apply map_ext.
  intros a. destruct (account_id a =? aid); reflexivity.
Qed.

Lemma update_balance_other_accounts (d : Store num) (aid : Z) (b : num) (a : Account num) :
  In a (accounts d) -> account_id a <> aid -> In a (accounts (update_balance d aid b)).
Proof.
  intros Hin Hne. unfold update_balance. cbn. apply in_map_iff.
  exists a. split; [|exact Hin].
  apply Z.eqb_neq in Hne. now rewrite Hne.
Qed.

(** What a successful funding call writes, and what it leaves alone. *)
Lemma fundAccount_success_effects
    (u : User) (input : FundInput num) (now : Z) (w w' : World num)
    (r : FundResult num) :
  fundAccount u input now w = (inr r, w') ->
  exists t,
    transaction r = Some t
    /\ transactions (db w') = (transactions (db w) ++ [t])%list
    /\ persisted_balance w' (input_accountId input) u = Some (newBalance r)
    /\ users (db w') = users (db w)
    /\ sessions (db w') = sessions (db w)
    /\ res w' = res w
    /\ map (fun a => (account_id a, account_userId a, accountNumber a, accountType a,
                      status a)) (accounts (db w'))
       = map (fun a => (account_id a, account_userId a, accountNumber a, accountType a,
                        status a)) (accounts (db w))
    /\ (forall a, In a (accounts (db w)) -> account_id a <> input_accountId input ->
                  In a (accounts (db w'))).
Proof.
  intros Hrun.
  destruct (fundAccount_success_inv u input now w w' r Hrun)
    as (account & _ & Hacc & _ & Htx & _ & Hw).
  eexists. split; [exact Htx|]. subst w'. cbn [db res].
  split; [reflexivity|]. split.
  { unfold persisted_balance. cbn [db].
    rewrite account_of_user_update_balance, account_of_user_insert_transaction, Hacc.
    reflexivity. }
  split; [reflexivity|]. split; [reflexivity|]. split; [reflexivity|].
  split; [rewrite update_balance_accounts_fields; reflexivity|].
  intros a Hin Hne. apply update_balance_other_accounts; assumption.
Qed.

(** X2. A funding call that succeeds appends exactly the returned
    transaction row, rewrites the balance of the funded account to the
    balance it returns, and leaves the rest alone: users, sessions and
    response are the same, every account keeps its id, owner, number,
    type and status, and accounts with another id are untouched. *)
Theorem fundAccount_success_frame
    (u : User) (input : FundInput num) (now : Z) (w w' : World num)
    (r : FundResult num) :
  fundAccount u input now w = (inr r, w') ->
  exists t,
    transaction r = Some t
    /\ transactions (db w') = (transactions (db w) ++ [t])%list
    /\ persisted_balance w' (input_accountId input) u = Some (newBalance r)
    /\ users (db w') = users (db w)
    /\ sessions (db w') = sessions (db w)
    /\ res w' = res w
    /\ map (fun a => (account_id a, account_userId a, accountNumber a, accountType a,
                      status a)) (accounts (db w'))
       = map (fun a => (account_id a, account_userId a, accountNumber a, accountType a,
                        status a)) (accounts (db w))
    /\ (forall a, In a (accounts (db w)) -> account_id a <> input_accountId input ->
                  In a (accounts (db w'))).
Proof. exact (fundAccount_success_effects u input now w w' r). Qed.

End FundingFailures.

Lemma fundAccount_success_frame_witness :
  exists r w' t,
    fundAccount Fixture.john (Fixture.deposit 50%float) 1000 Fixture.bank_world
    = (inr r, w')
    /\ transaction r = Some t
    /\ transactions (db w') = (transactions (db Fixture.bank_world) ++ [t])%list
    /\ persisted_balance w' 1 Fixture.john = Some (newBalance r)
    /\ users (db w') = users (db Fixture.bank_world)
    /\ sessions (db w') = sessions (db Fixture.bank_world).
Proof.
  destruct (fundAccount Fixture.john (Fixture.deposit 50%float) 1000 Fixture.bank_world)
    as [[e|r] w'] eqn:Hrun.
  - exfalso. vm_compute in Hrun. discriminate Hrun.
  - destruct (fundAccount_success_frame Fixture.john (Fixture.deposit 50%float) 1000
                Fixture.bank_world w' r Hrun)
      as (t & Ht & Htx & Hbal & Hu & Hs & _).
    exists r, w', t. repeat split; assumption.
Defined.

Section FundingLedger.
Context {num : Type} `{JsNumber num}.

Lemma transactions_of_insert_other (d : Store num) (aid other : Z) (ty : string)
    (amt : num) (descr st : string) (now : Z) :
  other <> aid ->
  transactions_of (insert_transaction d aid ty amt descr st now) other
  = transactions_of d other.
Proof.
  intros Hne. unfold transactions_of, insert_transaction. cbn.
  rewrite filter_app. cbn.
  assert (Hneq : (aid =? other) = false) by (apply Z.eqb_neq; lia).
  rewrite Hneq. apply app_nil_r.
Qed.

(** The schema has no issue with exactly the inputs the vocabulary calls
    acceptable, as far as it is concerned. *)
Lemma fundAccount_input_issue_none (input : FundInput num) :
  fundAccount_input_issue input = None
  <-> num_isNaN (input_amount input) = false
      /\ num_leb num_cent (input_amount input) = true
      /\ num_leb (input_amount input) (num_of_Z 10000) = true
      /\ fs_accountNumber (input_fundingSource input) <> EmptyString.
Proof.
  unfold fundAccount_input_issue.
  destruct (num_isNaN (input_amount input));
    [split; [discriminate|intros (Hn & _); discriminate]|].
  destruct (num_leb num_cent (input_amount input)); cbn [negb];
    [|split; [discriminate|intros (_ & Hl & _); discriminate]].
  destruct (num_leb (input_amount input) (num_of_Z 10000)); cbn [negb];
    [|split; [discriminate|intros (_ & _ & Hh & _); discriminate]].
  destruct (fs_accountNumber (input_fundingSource input)) as [|c r]; cbn.
  - split; [discriminate|intros (_ & _ & _ & Hne); now contradiction Hne].
  - split; [intros _; repeat split; discriminate|reflexivity].
Qed.

End FundingLedger.

(** X3. A funding call that succeeds found an active account of the
    caller and records what it credits: the row it returns is a completed
    deposit on that account, of the amount rounded to two decimals,
    stamped with the time of the call; the balance it returns and stores
    is [round((old balance + recorded amount) * 100) / 100]; the row is
    the one addition to the ledger of the account, and the ledger of
    every other account is as before. *)
Theorem funding_credits_the_recorded_amount
    {num : Type} `{JsNumber num}
    (u : User) (input : FundInput num) (now : Z) (w w' : World num)
    (r : FundResult num) :
  fundAccount u input now w = (inr r, w') ->
  exists account t,
    account_of_user (db w) (input_accountId input) (user_id u) = Some account
    /\ status account = "active"
    /\ transaction r = Some t
    /\ tx_accountId t = input_accountId input
    /\ tx_type t = "deposit"
    /\ tx_status t = "completed"
    /\ amount t = round2 (input_amount input)
    /\ processedAt t = Some now
    /\ newBalance r = round2 (num_add (balance account) (amount t))
    /\ persisted_balance w' (input_accountId input) u = Some (newBalance r)
    /\ transactions_of (db w') (input_accountId input)
       = (transactions_of (db w) (input_accountId input) ++ [t])%list
    /\ (forall other, other <> input_accountId input ->
                      transactions_of (db w') other = transactions_of (db w) other).
Proof.
  intros Hrun.
  destruct (fundAccount_success_inv u input now w w' r Hrun)
    as (account & _ & Hacc & Hst & Htx & Hnb & Hw).
  apply String.eqb_eq in Hst.
  eexists account, _. split; [exact Hacc|]. split; [exact Hst|].
  split; [exact Htx|]. cbn [tx_accountId tx_type tx_status amount processedAt].
  split; [reflexivity|]. split; [reflexivity|]. split; [reflexivity|].
  split; [reflexivity|]. split; [reflexivity|]. split; [exact Hnb|].
  subst w'. cbn [db]. split.
  { unfold persisted_balance. cbn [db].
    rewrite account_of_user_update_balance, account_of_user_insert_transaction, Hacc.
    reflexivity. }
  split.
  - rewrite transactions_of_update_balance. apply transactions_of_insert.
  - intros other Hne. rewrite transactions_of_update_balance.
    now apply transactions_of_insert_other.
Qed.

(** A deposit of 0.1 on a balance of 0.2, in binary64: 0.1 + 0.2 is not
    0.3, the stored balance is. *)
Lemma funding_credits_the_recorded_amount_witness :
  let w := {| db := update_balance (db Fixture.bank_world) 1 0.2%float;
              res := Fixture.node_res |} in
  exists r w' t,
    fundAccount Fixture.john (Fixture.deposit 0.1%float) 1000 w = (inr r, w')
    /\ transaction r = Some t
    /\ amount t = 0.1%float
    /\ PrimFloat.eqb (0.2 + 0.1) 0.3 = false
    /\ newBalance r = 0.3%float
    /\ persisted_balance w' 1 Fixture.john = Some 0.3%float
    /\ map amount (transactions_of (db w') 1) = [0.1%float].
Proof.
  intros w.
  destruct (fundAccount Fixture.john (Fixture.deposit 0.1%float) 1000 w)
    as [[e|r] w'] eqn:Hrun.
  - exfalso. vm_compute in Hrun. discriminate Hrun.
  - destruct (funding_credits_the_recorded_amount Fixture.john
                (Fixture.deposit 0.1%float) 1000 w w' r Hrun)
      as (account & t & Hacc & _ & Ht & _ & _ & _ & Hamt & _ & Hnb & Hbal & Htx & _).
    change (input_accountId (Fixture.deposit 0.1%float)) with 1 in Hbal, Htx.
    vm_compute in Hacc. injection Hacc as <-.
    assert (Ha : amount t = 0.1%float) by (rewrite Hamt; vm_compute; reflexivity).
    assert (Hn : newBalance r = 0.3%float)
      by (rewrite Hnb, Ha; vm_compute; reflexivity).
    exists r, w', t. split; [reflexivity|]. split; [exact Ht|]. split; [exact Ha|].
    split; [reflexivity|]. split; [exact Hn|]. split; [now rewrite Hbal, Hn|].
    rewrite Htx, map_app. cbn [map]. rewrite Ha. reflexivity.
Defined.

(** X4. A funding call succeeds exactly when the caller has an identity,
    the input passes the input schema and the funding-source validation,
    and the account id names an active account of the caller. *)
Theorem fundAccount_procedure_succeeds_iff
    {num : Type} `{JsNumber num}
    (ctx : Context) (input : FundInput num) (now : Z) (w : World num) :
  (exists r w', fundAccount_procedure ctx input now w = (inr r, w'))
  <-> (exists u account,
          user ctx = Some u
          /\ fundable (input_accountId input) input
          /\ account_of_user (db w) (input_accountId input) (user_id u) = Some account
          /\ status account = "active").
Proof.
  unfold fundAccount_procedure, protectedProcedure. split.
  - intros (r & w' & Hrun).
    destruct (user ctx) as [u|]; [|discriminate].
    destruct (fundAccount_input_issue input) as [m|] eqn:Hissue; [discriminate|].
    apply fundAccount_input_issue_none in Hissue.
    destruct Hissue as (Hnan & Hlo & Hhi & Hne).
    destruct (fundAccount_success_inv u input now w w' r Hrun)
      as (account & Hok & Hacc & Hst & _).
    exists u, account. split; [reflexivity|].
    split; [repeat split; assumption|]. split; [exact Hacc|].
    now apply String.eqb_eq.
  - intros (u & account & Hu & Hf & Hacc & Hst).
    rewrite Hu, (fundable_no_issue _ input Hf).
    destruct Hf as (_ & _ & _ & _ & _ & Hok).
    rewrite (fundAccount_valid_source u input now w Hok), Hacc, Hst.
    rewrite String.eqb_refl. cbn [negb]. cbv zeta.
    do 2 eexists. reflexivity.
Qed.

(** NaN, which no comparison accepts, is refused by the schema as not a
    number. *)
Example fundAccount_nan_amount :
  fundAccount_procedure Fixture.john_ctx (Fixture.deposit PrimFloat.nan) 0
    Fixture.bank_world
  = (inl {| code := BAD_REQUEST; message := "Expected number, received nan" |},
     Fixture.bank_world).
Proof. vm_compute. reflexivity. Qed.

(** ** Transaction history *)

Section OrderingFacts.
Context {A : Type} (key : A -> Z).

Lemma insert_desc_perm (x : A) (l : list A) :
  Permutation (insert_desc key x l) (x :: l).
Proof.
  induction l as [|y l IH]; cbn [insert_desc]; [reflexivity|].
  destruct (key y <? key x); [reflexivity|].
  rewrite IH. apply perm_swap.
Qed.

Lemma orderBy_desc_perm (l : list A) : Permutation (orderBy_desc key l) l.
Proof.
  unfold orderBy_desc. induction l as [|x l IH]; cbn [fold_right]; [reflexivity|].
  rewrite insert_desc_perm. now constructor.
Qed.

Lemma insert_desc_sorted (x : A) (l : list A) :
  StronglySorted (fun a b => key b <= key a) l ->
  StronglySorted (fun a b => key b <= key a) (insert_desc key x l).
Proof.
  induction 1 as [|y l Hs IH Hy]; cbn [insert_desc].
  - constructor; constructor.
  - destruct (Z.ltb_spec (key y) (key x)) as [Hlt|Hge].
    + constructor; [now constructor|].
      constructor; [lia|].
      eapply Forall_impl; [|exact Hy]. cbn. intros z Hz. lia.
    + constructor; [exact IH|].
      eapply Permutation_Forall; [symmetry; apply insert_desc_perm|].
      constructor; assumption.
Qed.

Lemma orderBy_desc_sorted (l : list A) :
  StronglySorted (fun a b => key b <= key a) (orderBy_desc key l).
Proof.
  unfold orderBy_desc. induction l as [|x l IH]; cbn [fold_right]; [constructor|].
  now apply insert_desc_sorted.
Qed.

End OrderingFacts.

(** X5. For an account of the caller, [getTransactions] returns the
    transaction rows of that account and no other, each exactly once,
    newest creation time first, every row paired with the type of the
    account; it changes nothing. *)
Theorem getTransactions_newest_first
    {num : Type} `{JsNumber num}
    (u : User) (accountId : Z) (w : World num) (account : Account num) :
  account_of_user (db w) accountId (user_id u) = Some account ->
  exists rows,
    getTransactions u accountId w = (inr rows, w)
    /\ Permutation (map fst rows) (transactions_of (db w) accountId)
    /\ StronglySorted (fun a b => createdAt b <= createdAt a) (map fst rows)
    /\ Forall (fun row => tx_accountId (fst row) = accountId
                          /\ snd row = accountType account) rows.
Proof.
  intros Hacc. unfold getTransactions. handler_unfold. rewrite Hacc.
  eexists. split; [reflexivity|].
  rewrite map_map. cbn [fst]. rewrite map_id.
  split; [apply orderBy_desc_perm|]. split; [apply orderBy_desc_sorted|].
  apply Forall_forall. intros row Hin. apply in_map_iff in Hin.
  destruct Hin as (t & <- & Hin). cbn [fst snd]. split; [|reflexivity].
  apply (Permutation_in _ (orderBy_desc_perm createdAt _)) in Hin.
  unfold transactions_of in Hin. apply filter_In in Hin.
  now apply Z.eqb_eq.
Qed.

Lemma getTransactions_newest_first_witness :
  exists rows,
    getTransactions Fixture.john 1 Fixture.history_world
    = (inr rows, Fixture.history_world)
    /\ Permutation (map fst rows) (transactions_of (db Fixture.history_world) 1)
    /\ StronglySorted (fun a b => createdAt b <= createdAt a) (map fst rows)
    /\ Forall (fun row => tx_accountId (fst row) = 1
                          /\ snd row = accountType (Fixture.checking_account (num := float)))
              rows.
Proof.
  exact (getTransactions_newest_first Fixture.john 1 Fixture.history_world
           Fixture.checking_account eq_refl).
Defined.

Example getTransactions_history :
  option_map (map (fun row => (tx_id (fst row), createdAt (fst row), snd row)))
    (match fst (getTransactions Fixture.john 1 Fixture.history_world) with
     | inr rows => Some rows
     | inl _ => None
     end)
  = Some [(3, 9, checking); (4, 7, checking); (1, 5, checking)].
Proof. reflexivity. Qed.

(** ** Cookies *)

Section CookieFacts.

Lemma string_app_nil_r (s : string) : (s ++ EmptyString)%string = s.
Proof. induction s as [|c s IH]; cbn; [reflexivity|now rewrite IH]. Qed.

Lemma string_app_assoc (a b c : string) :
  ((a ++ b) ++ c)%string = (a ++ (b ++ c))%string.
Proof. induction a as [|x a IH]; cbn; [reflexivity|now rewrite IH]. Qed.

Lemma split_go_no_separator (s : string) :
  forall cur, ~ In ";"%char (list_ascii_of_string s) ->
              split_go "; " s 0 cur = [(cur ++ s)%string].
Proof.
  induction s as [|c s IH]; intros cur Hno; cbn [split_go].
  - now rewrite string_app_nil_r.
  - cbn [list_ascii_of_string] in Hno.
    cbn [String.prefix].
    destruct (ascii_dec ";" c) as [Heq|Hne]; [exfalso; apply Hno; now left|].
    rewrite IH by (intros Hin; apply Hno; now right).
    now rewrite string_app_assoc.
Qed.

Lemma split_go_first_piece (s : string) :
  forall cur, exists rest,
    split_go "=" s 0 cur = (cur ++ fst (cut_eq s))%string :: rest.
Proof.
  induction s as [|c s IH]; intros cur; cbn [split_go cut_eq].
  - exists []. cbn. now rewrite string_app_nil_r.
  - cbn [String.prefix].
    destruct (ascii_dec "=" c) as [Heq|Hne].
    + subst c. cbn [Ascii.eqb Bool.eqb]. cbn [fst].
      destruct s; cbn [String.prefix]; rewrite string_app_nil_r; eexists; reflexivity.
    + assert (Hc : Ascii.eqb c "=" = false) by (apply Ascii.eqb_neq; congruence).
      rewrite Hc.
      destruct (IH (cur ++ String c EmptyString)%string) as [rest Hrest].
      exists rest. rewrite Hrest. destruct (cut_eq s) as [k v]. cbn [fst].
      now rewrite string_app_assoc.
Qed.

End CookieFacts.

(** X6. For a request whose cookie header is the session cookie alone,
    [session=<token>] with no [;] in the token, context resolution reads
    the whole token, while [logout] reads the token only up to its first
    [=]: the two agree exactly on tokens without [=]. *)
Theorem session_cookie_read_back (tok : string) (r : Req) :
  ~ In ";"%char (list_ascii_of_string tok) ->
  r = FetchRequest (Some ("session=" ++ tok)%string)
  \/ r = PlainRequest (Some ("session=" ++ tok)%string) ->
  context_token r = Some tok
  /\ logout_token r = Some (fst (cut_eq tok))
  /\ (~ In "="%char (list_ascii_of_string tok) -> logout_token r = Some tok).
Proof.
  intros Hno Hr.
  assert (Hsplit : split "; " ("session=" ++ tok)%string = [("session=" ++ tok)%string]).
  { unfold split. rewrite split_go_no_separator; [reflexivity|].
    cbn. intros [H|[H|[H|[H|[H|[H|[H|[H|H]]]]]]]]; try discriminate. now apply Hno. }
  assert (Htruthy : truthy ("session=" ++ tok)%string = true) by reflexivity.
  assert (Hcut : cut_eq ("session=" ++ tok)%string = ("session", tok)).
  { cbn. destruct (cut_eq tok) as [k v] eqn:Hkv.
    clear - Hkv. revert k v Hkv.
    induction tok as [|c tok IH]; intros k v Hkv; cbn in Hkv.
    - now injection Hkv as <- <-.
    - destruct (Ascii.eqb c "=").
      + injection Hkv as <- <-. reflexivity.
      + destruct (cut_eq tok) as [k' v']. injection Hkv as <- <-. reflexivity. }
  assert (Hctx : context_token r = Some tok).
  { destruct Hr as [-> | ->]; unfold context_token; cbn [context_cookieHeader];
      rewrite Htruthy, Hsplit; cbn [filter]; rewrite Htruthy; cbn [map];
      rewrite Hcut; reflexivity. }
  assert (Hout : logout_token r = Some (fst (cut_eq tok))).
  { destruct (split_go_first_piece tok EmptyString) as [rest Hrest].
    assert (Hpieces : split "=" ("session=" ++ tok)%string
                      = "session" :: fst (cut_eq tok) :: rest).
    { assert (Hp : String.prefix EmptyString tok = true) by (destruct tok; reflexivity).
      unfold split. cbn. cbn in Hrest. rewrite Hp, Hrest. reflexivity. }
    assert (Hp : String.prefix "session=" ("session=" ++ tok)%string = true)
      by (destruct tok; reflexivity).
    destruct Hr as [-> | ->]; unfold logout_token; cbn [logout_cookieHeader];
      rewrite ?Htruthy, Hsplit; cbn [find]; rewrite Hp, Hpieces; reflexivity. }
  split; [exact Hctx|]. split; [exact Hout|].
  intros Hne. rewrite Hout. f_equal.
  clear - Hne. induction tok as [|c tok IH]; [reflexivity|].
  cbn [cut_eq]. cbn [list_ascii_of_string] in Hne.
  destruct (Ascii.eqb_spec c "=") as [->|Hc]; [exfalso; apply Hne; now left|].
  rewrite <- IH at 2 by (intros Hin; apply Hne; now right).
  destruct (cut_eq tok); reflexivity.
Qed.

Lemma session_cookie_read_back_witness :
  context_token (FetchRequest (Some "session=abc.def=")) = Some "abc.def="
  /\ logout_token (FetchRequest (Some "session=abc.def=")) = Some "abc.def".
Proof.
  destruct (session_cookie_read_back "abc.def=" (FetchRequest (Some "session=abc.def=")))
    as (Hctx & Hout & _).
  - cbn. intros [H|[H|[H|[H|[H|[H|[H|[H|[]]]]]]]]]; discriminate.
  - now left.
  - split; [exact Hctx|exact Hout].
Defined.

(** ** Identities *)

(** X7. Context resolution gives an identity only on the strength of a
    live session: the request carries a non-empty token, the token
    verifies with the server secret, a session row holds that very token
    with more than 60 seconds left, and the identity is the stored user
    the token names.  It never throws. *)
Theorem createContext_identity_is_backed_by_a_session
    {num : Type} (rt : Runtime) (r : Req) (w : World num) :
  (exists ctx, fst (createContext rt r w) = inr ctx)
  /\ (forall u,
        identity_of (fst (createContext rt r w)) = Some u ->
        exists tok uid s,
          context_token r = Some tok
          /\ tok <> EmptyString
          /\ jwt_verify rt tok (getJwtSecret rt) = Some uid
          /\ session_by_token (db w) tok = Some s
          /\ token s = tok
          /\ 60000 < expiresAt s - Date_now rt
          /\ user_by_id (db w) uid = Some u
          /\ user_id u = uid).
Proof.
  unfold createContext, getJwtSecret. handler_unfold.
  destruct (context_token r) as [tok|]; [|split; [eexists; reflexivity|discriminate]].
  destruct (truthy tok) eqn:Htruthy; [|split; [eexists; reflexivity|discriminate]].
  destruct (jwt_verify rt tok _) as [uid|] eqn:Hverify;
    [|split; [eexists; reflexivity|discriminate]].
  destruct (session_by_token (db w) tok) as [s|] eqn:Hsession;
    [|split; [eexists; reflexivity|discriminate]].
  destruct (Z.ltb_spec 60000 (expiresAt s - Date_now rt)) as [Hlong|Hshort];
    [|split; [eexists; reflexivity|discriminate]].
  split; [eexists; reflexivity|].
  cbn [fst identity_of user]. intros u Hu.
  exists tok, uid, s. split; [reflexivity|]. split.
  { intros ->. discriminate Htruthy. }
  split; [exact Hverify|]. split; [exact Hsession|]. split.
  { unfold session_by_token, get in Hsession.
    destruct (filter _ (sessions (db w))) as [|x l] eqn:Hf; [discriminate|].
    injection Hsession as ->.
    assert (Hin : In s (filter (fun s0 => String.eqb (token s0) tok) (sessions (db w))))
      by (rewrite Hf; now left).
    apply filter_In in Hin. now apply String.eqb_eq. }
  split; [exact Hlong|]. split; [exact Hu|].
  unfold user_by_id, get in Hu.
  destruct (filter _ (users (db w))) as [|x l] eqn:Hf; [discriminate|].
  injection Hu as ->.
  assert (Hin : In u (filter (fun u0 => user_id u0 =? uid) (users (db w))))
    by (rewrite Hf; now left).
  apply filter_In in Hin. now apply Z.eqb_eq.
Qed.

(** ** Login, logout, signup *)

Section AuthOutcomes.
Context {num : Type} (rt : Runtime).

Lemma start_session_world (u : User) (w w' : World num) (a : AuthResult) :
  start_session rt u w = (inr a, w') ->
  auth_token a = jwt_sign rt (getJwtSecret rt) (user_id u)
  /\ res w' = match res_kind (res w) with
              | NodeResponse => setHeader "Set-Cookie" (session_cookie (auth_token a)) (res w)
              | FetchHeaders => Headers_set "Set-Cookie" (session_cookie (auth_token a)) (res w)
              end
  /\ accounts (db w') = accounts (db w)
  /\ transactions (db w') = transactions (db w).
Proof.
  unfold start_session. handler_unfold. cbn [db res].
  destruct (insert_session _ _ _ _) as [d|] eqn:Hins; [|discriminate].
  intros Hrun. injection Hrun as <- <-. cbn [auth_token res db].
  unfold insert_session in Hins.
  destruct (existsb _ _); [discriminate|]. injection Hins as <-.
  repeat split.
Qed.

Lemma existsb_false_filter {A} (p : A -> bool) (l : list A) :
  existsb p l = false -> filter p l = [].
Proof.
  induction l as [|x l IH]; cbn; [reflexivity|].
  destruct (p x); cbn; [discriminate|exact IH].
Qed.

Lemma filter_unique_key {A} (f : A -> Z) (l : list A) (x : A) :
  NoDup (map f l) -> In x l -> filter (fun y => f y =? f x) l = [x].
Proof.
  induction l as [|y l IH]; cbn [map filter]; intros Hnd Hin; [destruct Hin|].
  inversion Hnd as [|? ? Hnotin Hnd']; subst.
  destruct Hin as [->|Hin].
  - rewrite Z.eqb_refl. f_equal.
    apply existsb_false_filter. apply Bool.not_true_is_false. intros Hex.
    apply existsb_exists in Hex. destruct Hex as (z & Hz & Heq).
    apply Z.eqb_eq in Heq. apply Hnotin. rewrite <- Heq. now apply in_map.
  - destruct (Z.eqb_spec (f y) (f x)) as [Heq|Hne].
    + exfalso. apply Hnotin. rewrite Heq. now apply in_map.
    + now apply IH.
Qed.

Lemma user_by_email_in (d : Store num) (e : string) (u : User) :
  user_by_email d e = Some u -> In u (users d) /\ email u = e.
Proof.
  unfold user_by_email, get. intros Hu.
  destruct (filter _ (users d)) as [|x l] eqn:Hf; [discriminate|].
  injection Hu as ->.
  assert (Hin : In u (filter (fun u0 => String.eqb (email u0) e) (users d)))
    by (rewrite Hf; now left).
  apply filter_In in Hin. destruct Hin as [Hin He].
  split; [exact Hin|now apply String.eqb_eq].
Qed.

(** The session row a successful [start_session] has inserted is the
    one a lookup by its token finds. *)
Lemma start_session_lookup (u : User) (w w' : World num) (a : AuthResult) :
  start_session rt u w = (inr a, w') ->
  exists s, session_by_token (db w') (auth_token a) = Some s
            /\ session_userId s = user_id u
            /\ expiresAt s = plus_days rt (Date_now rt) 7.
Proof.
  intros Hrun. apply start_session_success in Hrun. destruct Hrun as [_ Hins].
  apply insert_session_rows in Hins. destruct Hins as (Hfresh & _ & Hrows & _).
  unfold session_by_token. rewrite Hrows, filter_app.
  rewrite (existsb_false_filter _ _ Hfresh). cbn [filter token app].
  rewrite String.eqb_refl. eexists. repeat split.
Qed.

End AuthOutcomes.

(** X8. A login with an address that has no user and a login with a
    wrong password get the same answer, Unauthorized with the message
    "Invalid credentials", and neither changes the store or the
    response: no session is dropped and no cookie is set. *)
Theorem login_failures_look_alike
    {num : Type} (rt : Runtime) (e p : string) (w : World num) :
  user_by_email (db w) e = None
  \/ (exists u, user_by_email (db w) e = Some u
                /\ bcrypt_compare rt p (password u) = false) ->
  login rt e p w
  = (inl {| code := UNAUTHORIZED; message := "Invalid credentials" |}, w).
Proof.
  unfold login. handler_unfold.
  intros [Hnone|(u & Hu & Hpw)].
  - now rewrite Hnone.
  - now rewrite Hu, Hpw.
Qed.

Lemma login_failures_look_alike_witness :
  login (Fixture.stub_runtime 0 1000) "nobody@example.com" "Password1!"
    (Fixture.session_world 5000)
  = (inl {| code := UNAUTHORIZED; message := "Invalid credentials" |},
     Fixture.session_world 5000)
  /\ login (Fixture.stub_runtime 0 1000) "logic@example.com" "wrong"
       (Fixture.session_world 5000)
     = (inl {| code := UNAUTHORIZED; message := "Invalid credentials" |},
        Fixture.session_world 5000).
Proof.
  split.
  - apply (login_failures_look_alike (Fixture.stub_runtime 0 1000)
             "nobody@example.com" "Password1!" (Fixture.session_world 5000)).
    left. reflexivity.
  - apply (login_failures_look_alike (Fixture.stub_runtime 0 1000)
             "logic@example.com" "wrong" (Fixture.session_world 5000)).
    right. exists Fixture.john. split; reflexivity.
Defined.

(** X9. Login and context resolution fit together: after a login that
    succeeds, the response carries the cookie of the returned token for
    seven days, the returned user is the stored user without password and
    SSN, and a later request that presents the token is resolved to that
    user, as long as the token library verifies the token it issued and
    more than 60 seconds of the seven days are left (user ids being
    unique). *)
Theorem login_then_context_resolves_the_user
    {num : Type} (rt rt' : Runtime) (e p : string) (w w1 : World num)
    (a : AuthResult) (r : Req) :
  login rt e p w = (inr a, w1) ->
  NoDup (map user_id (users (db w))) ->
  context_token r = Some (auth_token a) ->
  auth_token a <> EmptyString ->
  jwt_verify rt' (auth_token a) (getJwtSecret rt') = Some (pu_id (auth_user a)) ->
  60000 < plus_days rt (Date_now rt) 7 - Date_now rt' ->
  exists u,
    user_by_email (db w) e = Some u
    /\ bcrypt_compare rt p (password u) = true
    /\ auth_user a = sanitize u
    /\ assoc_get "Set-Cookie" (res_headers (res w1))
       = Some ("session=" ++ auth_token a
               ++ "; Path=/; HttpOnly; SameSite=Strict; Max-Age=604800")%string
    /\ identity_of (fst (createContext rt' r w1)) = Some u.
Proof.
  intros Hrun Hnd Htok Hne Hverify Hlife.
  assert (Hpw : exists u, user_by_email (db w) e = Some u
                          /\ bcrypt_compare rt p (password u) = true
                          /\ start_session rt u w = (inr a, w1)).
  { unfold login in Hrun. unfold Trpc.bind at 1 in Hrun. unfold Trpc.query at 1 in Hrun.
    destruct (user_by_email (db w) e) as [u|]; [|discriminate].
    destruct (bcrypt_compare rt p (password u)) eqn:Hc; [|discriminate].
    exists u. repeat split; assumption. }
  destruct Hpw as (u & Hu & Hpw & Hstart).
  exists u. split; [exact Hu|]. split; [exact Hpw|].
  pose proof (start_session_success rt u w w1 a Hstart) as [Hau _].
  split; [exact Hau|].
  destruct (start_session_world rt u w w1 a Hstart) as (_ & Hres & _).
  split.
  { rewrite Hres. destruct (res_kind (res w)); cbn [setHeader Headers_set res_headers];
      apply assoc_get_set. }
  destruct (start_session_lookup rt u w w1 a Hstart) as (s & Hs & _ & Hexp).
  destruct (start_session_rows rt u w w1 a Hstart) as (Husers & _).
  assert (Htruthy : truthy (auth_token a) = true).
  { unfold truthy. destruct (String.eqb_spec (auth_token a) EmptyString); [contradiction|reflexivity]. }
  rewrite (createContext_with_session rt' r w1 (auth_token a) (pu_id (auth_user a)) s
             Htok Htruthy Hverify Hs).
  rewrite Hexp. destruct (Z.ltb_spec 60000 (plus_days rt (Date_now rt) 7 - Date_now rt'));
    [|lia].
  cbn [identity_of user]. rewrite Hau. cbn [sanitize pu_id].
  unfold user_by_id. rewrite Husers.
  apply user_by_email_in in Hu. destruct Hu as [Hin _].
  now rewrite (filter_unique_key user_id (users (db w)) u Hnd Hin).
Qed.

Lemma login_then_context_resolves_the_user_witness :
  exists a w1,
    login (Fixture.stub_runtime 0 1000) "logic@example.com" "Password1!"
      (Fixture.session_world 5000) = (inr a, w1)
    /\ auth_user a = sanitize Fixture.john
    /\ identity_of (fst (createContext (Fixture.stub_runtime 0 86400000)
                           (FetchRequest (Some "session=tokA")) w1))
       = Some Fixture.john.
Proof.
  destruct (login (Fixture.stub_runtime 0 1000) "logic@example.com" "Password1!"
              (Fixture.session_world 5000)) as [[err|a] w1] eqn:Hrun.
  - exfalso. vm_compute in Hrun. discriminate Hrun.
  - assert (Htok : auth_token a = "tokA").
    { vm_compute in Hrun. injection Hrun as <- _. reflexivity. }
    assert (Hid : pu_id (auth_user a) = 1).
    { vm_compute in Hrun. injection Hrun as <- _. reflexivity. }
    destruct (login_then_context_resolves_the_user
                (Fixture.stub_runtime 0 1000) (Fixture.stub_runtime 0 86400000)
                "logic@example.com" "Password1!" (Fixture.session_world 5000) w1 a
                (FetchRequest (Some "session=tokA")) Hrun)
      as (u & Hu & _ & Hau & _ & Hctx).
    + repeat constructor; cbn; intuition discriminate.
    + rewrite Htok. reflexivity.
    + rewrite Htok. discriminate.
    + rewrite Htok, Hid. reflexivity.
    + vm_compute. reflexivity.
    + injection Hu as <-. exists a, w1. repeat split; assumption.
Defined.

Section LogoutEffect.
Context {num : Type}.

Lemma delete_sessions_by_token_rows (d : Store num) (t : string) (s : Session) :
  In s (sessions (delete_sessions_by_token d t))
  <-> In s (sessions d) /\ token s <> t.
Proof.
  unfold delete_sessions_by_token. cbn. rewrite filter_In.
  rewrite negb_true_iff. now rewrite String.eqb_neq.
Qed.

End LogoutEffect.

(** X10. A [logout] by a caller with an identity whose request yields a
    non-empty token removes every session row with that token and no
    other row, touches no other table, and reports success; afterwards
    no request presenting that token is given an identity. *)
Theorem logout_deletes_the_presented_session
    {num : Type} (ctx : Context) (u : User) (tok : string) (w : World num) :
  user ctx = Some u ->
  logout_token (req ctx) = Some tok ->
  tok <> EmptyString ->
  exists w',
    logout ctx w
    = (inr {| success := true; logout_message := "Logged out successfully" |}, w')
    /\ session_by_token (db w') tok = None
    /\ (forall s, In s (sessions (db w')) <-> In s (sessions (db w)) /\ token s <> tok)
    /\ users (db w') = users (db w)
    /\ accounts (db w') = accounts (db w)
    /\ transactions (db w') = transactions (db w)
    /\ (forall rt r, context_token r = Some tok ->
                     identity_of (fst (createContext rt r w')) = None).
Proof.
  intros Hu Htok Hne.
  assert (Htruthy : truthy tok = true).
  { unfold truthy. destruct (String.eqb_spec tok EmptyString); [contradiction|reflexivity]. }
  rewrite (logout_authenticated ctx u w Hu). rewrite Htok, Htruthy. cbv zeta.
  eexists. split; [reflexivity|]. cbn [db].
  assert (Hgone : session_by_token (delete_sessions_by_token (db w) tok) tok = None).
  { apply session_by_token_none. intros s Hin.
    now apply delete_sessions_by_token_rows in Hin. }
  split; [exact Hgone|].
  split; [intros s; apply delete_sessions_by_token_rows|].
  split; [reflexivity|]. split; [reflexivity|]. split; [reflexivity|].
  intros rt r Hr.
  now apply (createContext_without_session rt r _ tok).
Qed.

Lemma logout_deletes_the_presented_session_witness :
  let ctx := {| user := Some Fixture.john;
                req := NextApiRequest (Some "session=tokA") [("session", "tokA")] |} in
  exists w',
    logout ctx (Fixture.session_world 9000000)
    = (inr {| success := true; logout_message := "Logged out successfully" |}, w')
    /\ session_by_token (db w') "tokA" = None
    /\ identity_of (fst (createContext (Fixture.stub_runtime 0 1000)
                           (NextApiRequest (Some "session=tokA") [("session", "tokA")])
                           w')) = None.
Proof.
  intros ctx.
  destruct (logout_deletes_the_presented_session ctx Fixture.john "tokA"
              (Fixture.session_world 9000000) eq_refl eq_refl)
    as (w' & Hrun & Hgone & _ & _ & _ & _ & Hctx).
  - discriminate.
  - exists w'. split; [exact Hrun|]. split; [exact Hgone|].
    apply Hctx. reflexivity.
Defined.

Section SignupFacts.
Context {num : Type} (rt : Runtime).

Lemma user_by_email_none_filter (d : Store num) (e : string) :
  user_by_email d e = None ->
  filter (fun u => String.eqb (email u) e) (users d) = [].
Proof.
  unfold user_by_email, get.
  destruct (filter _ (users d)); [reflexivity|discriminate].
Qed.

(** What a signup that returned has gone through. *)
Lemma signup_success_inv (input : SignupInput) (w w' : World num) (a : AuthResult) :
  signup rt input w = (inr a, w') ->
  user_by_email (db w) (in_email input) = None
  /\ start_session rt
       {| user_id := next_id (seq_users (db w)) (map user_id (users (db w)));
          email := in_email input;
          password := bcrypt_hash rt (in_password input);
          ssn := encryptSSN rt (in_ssn input);
          profile := in_profile input |}
       {| db := set_users (db w)
                  (users (db w)
                   ++ [{| user_id := next_id (seq_users (db w))
                                       (map user_id (users (db w)));
                          email := in_email input;
                          password := bcrypt_hash rt (in_password input);
                          ssn := encryptSSN rt (in_ssn input);
                          profile := in_profile input |}])
                  (next_id (seq_users (db w)) (map user_id (users (db w))));
          res := res w |}
     = (inr a, w').
Proof.
  unfold signup. unfold Trpc.bind at 1. unfold Trpc.query at 1.
  destruct (user_by_email (db w) (in_email input)) eqn:Hfree; [discriminate|].
  unfold Trpc.bind at 1. unfold Trpc.run_checked. unfold insert_user.
  destruct (existsb _ (users (db w))) eqn:Hex; [discriminate|].
  unfold Trpc.bind at 1. unfold Trpc.query at 1. cbn [db].
  unfold user_by_email at 1. cbn [users set_users].
  rewrite filter_app, (user_by_email_none_filter _ _ Hfree).
  cbn [filter email app]. rewrite String.eqb_refl. cbn [get hd_error].
  intros Hrun. split; [reflexivity|exact Hrun].
Qed.

(** A session can be started when no other user's row carries the
    token the library signs. *)
Lemma start_session_succeeds (u : User) (w : World num) :
  (forall s, In s (sessions (db w)) -> session_userId s <> user_id u ->
             token s <> jwt_sign rt (getJwtSecret rt) (user_id u)) ->
  exists a w', start_session rt u w = (inr a, w') /\ auth_user a = sanitize u.
Proof.
  intros Hfresh. unfold start_session. handler_unfold. cbn [db res].
  unfold insert_session.
  destruct (existsb _ (sessions (delete_sessions_of_user (db w) (user_id u)))) eqn:Hex.
  - exfalso. apply existsb_exists in Hex. destruct Hex as (s & Hin & Htok).
    cbn in Hin. apply filter_In in Hin. destruct Hin as [Hin Hu].
    apply negb_true_iff in Hu. apply Z.eqb_neq in Hu.
    apply String.eqb_eq in Htok. exact (Hfresh s Hin Hu Htok).
  - do 2 eexists. split; reflexivity.
Qed.

End SignupFacts.

(** What a successful signup writes, and what it leaves alone. *)
Lemma signup_success_effects
    {num : Type} (rt : Runtime) (input : SignupInput) (w w' : World num)
    (a : AuthResult) :
  signup rt input w = (inr a, w') ->
  user_by_email (db w) (in_email input) = None
  /\ exists u,
      users (db w') = (users (db w) ++ [u])%list
      /\ email u = in_email input
      /\ profile u = in_profile input
      /\ password u = bcrypt_hash rt (in_password input)
      /\ ssn u = encryptSSN rt (in_ssn input)
      /\ (forall o, In o (users (db w)) -> user_id o < user_id u)
      /\ user_by_email (db w') (in_email input) = Some u
      /\ auth_user a = sanitize u
      /\ assoc_get "Set-Cookie" (res_headers (res w'))
         = Some (session_cookie (auth_token a))
      /\ accounts (db w') = accounts (db w)
      /\ transactions (db w') = transactions (db w).
Proof.
  intros Hrun. apply signup_success_inv in Hrun. destruct Hrun as [Hfree Hstart].
  split; [exact Hfree|].
  destruct (start_session_rows rt _ _ w' a Hstart) as (Husers & _).
  destruct (start_session_world rt _ _ w' a Hstart) as (_ & Hres & Hacc & Htx).
  pose proof (start_session_success rt _ _ w' a Hstart) as [Hau _].
  cbn [db res users set_users accounts transactions] in Husers, Hres, Hacc, Htx.
  eexists. split; [exact Husers|].
  cbn [email profile password ssn user_id].
  split; [reflexivity|]. split; [reflexivity|]. split; [reflexivity|].
  split; [reflexivity|]. split.
  { intros o Hin. apply next_id_above_ids. now apply in_map. }
  split.
  { unfold user_by_email. rewrite Husers, filter_app.
    rewrite (user_by_email_none_filter _ _ Hfree). cbn [filter email app].
    now rewrite String.eqb_refl. }
  split; [exact Hau|]. split.
  { rewrite Hres. destruct (res_kind (res w)); cbn [setHeader Headers_set res_headers];
      apply assoc_get_set. }
  split; assumption.
Qed.

(** The procedure runs the mutation on the parsed input, and only on
    input the schema accepts. *)
Lemma signup_procedure_success
    {num : Type} (rt : Runtime) (raw : SignupInput) (w w' : World num)
    (a : AuthResult) :
  signup_procedure rt raw w = (inr a, w') ->
  signup_input_accepted rt raw = true
  /\ signup rt (signup_input_parsed raw) w = (inr a, w').
Proof.
  unfold signup_procedure.
  destruct (signup_input_accepted rt raw); [|discriminate].
  intros Hrun. split; [reflexivity|exact Hrun].
Qed.



(** The schema at work on single fields. *)
Example signup_schema_fields :
  phoneNumber_accepted "+11234567890" = true
  /\ phoneNumber_accepted "1234567890" = true
  /\ phoneNumber_accepted "+1123456789" = true
  /\ phoneNumber_accepted "+112345678" = false
  /\ phoneNumber_accepted "123456789012" = false
  /\ password_accepted "Password3!" = true
  /\ password_accepted "password3!" = false
  /\ state_accepted "ca" = true
  /\ state_accepted "zz" = false
  /\ email_no_typo "new@example.con" = false
  /\ email_no_typo "new@example.com" = true.
Proof. repeat split. Qed.

(** X12. Signup and login fit together only through the lower-cased
    address.  After a signup that succeeded, a login with the address in
    lower case and the same password succeeds and returns the same user,
    provided the hashing library accepts the password against the hash it
    produced and no other user's session carries the token the library
    signs.  A login with the address as it was typed, when that has a
    capital letter and no user is stored under it, is refused as invalid
    credentials: [login] does not lower-case. *)
Theorem signup_then_login_succeeds
    {num : Type} (rt rt' : Runtime) (raw : SignupInput) (w w1 : World num)
    (a : AuthResult) :
  signup_procedure rt raw w = (inr a, w1) ->
  ascii_input raw ->
  bcrypt_compare rt' (in_password raw) (bcrypt_hash rt (in_password raw)) = true ->
  (forall s, In s (sessions (db w1)) -> session_userId s <> pu_id (auth_user a) ->
             token s <> jwt_sign rt' (getJwtSecret rt') (pu_id (auth_user a))) ->
  (exists a2 w2,
      login rt' (toLowerCase (in_email raw)) (in_password raw) w1 = (inr a2, w2)
      /\ auth_user a2 = auth_user a)
  /\ (toLowerCase (in_email raw) <> in_email raw ->
      user_by_email (db w) (in_email raw) = None ->
      login rt' (in_email raw) (in_password raw) w1
      = (inl {| code := UNAUTHORIZED; message := "Invalid credentials" |}, w1)).
Proof.
  intros Hrun _ Hpw Hfresh.
  apply signup_procedure_success in Hrun. destruct Hrun as [_ Hrun].
  destruct (signup_success_effects rt (signup_input_parsed raw) w w1 a Hrun)
    as (_ & u & Husers & Hemail & _ & Hhash & _ & _ & Hu & Hau & _).
  cbn [in_email in_password signup_input_parsed] in Hemail, Hhash, Hu.
  split.
  - rewrite Hau in Hfresh. cbn [sanitize pu_id] in Hfresh.
    destruct (start_session_succeeds rt' u w1 Hfresh) as (a2 & w2 & Hstart & Hau2).
    exists a2, w2. split; [|congruence].
    unfold login. unfold Trpc.bind at 1. unfold Trpc.query at 1.
    rewrite Hu, Hhash, Hpw. exact Hstart.
  - intros Hcase Hnone.
    unfold login. unfold Trpc.bind at 1. unfold Trpc.query at 1.
    assert (Hnone1 : user_by_email (db w1) (in_email raw) = None).
    { unfold user_by_email. rewrite Husers, filter_app.
      rewrite (user_by_email_none_filter _ _ Hnone). cbn [filter app].
      rewrite Hemail.
      destruct (String.eqb_spec (toLowerCase (in_email raw)) (in_email raw));
        [contradiction|reflexivity]. }
    now rewrite Hnone1.
Qed.

Lemma signup_then_login_succeeds_witness :
  exists a w1 a2 w2,
    signup_procedure Fixture.utc_runtime Fixture.typed_signup
      (Fixture.session_world 5000) = (inr a, w1)
    /\ login (Fixture.stub_runtime 0 2000) "new@example.com" "Password3!" w1
       = (inr a2, w2)
    /\ auth_user a2 = auth_user a
    /\ login (Fixture.stub_runtime 0 2000) "New@Example.com" "Password3!" w1
       = (inl {| code := UNAUTHORIZED; message := "Invalid credentials" |}, w1).
Proof.
  destruct (signup_procedure Fixture.utc_runtime Fixture.typed_signup
              (Fixture.session_world 5000)) as [[e|a] w1] eqn:Hrun.
  - exfalso. vm_compute in Hrun. discriminate Hrun.
  - destruct (signup_then_login_succeeds Fixture.utc_runtime
                (Fixture.stub_runtime 0 2000) Fixture.typed_signup
                (Fixture.session_world 5000) w1 a Hrun)
      as ((a2 & w2 & Hlogin & Hsame) & Htyped).
    + split; [|split]; repeat constructor.
    + reflexivity.
    + vm_compute in Hrun. injection Hrun as <- <-.
      intros s [<-|[<-|[]]] Hu; cbn in Hu |- *; [discriminate|contradiction].
    + exists a, w1, a2, w2. split; [reflexivity|]. split; [exact Hlogin|].
      split; [exact Hsame|]. apply Htyped; [discriminate|reflexivity].
Defined.

(** ** Unique keys *)

Section UniqueKeys.
Context {num : Type}.

Lemma NoDup_snoc {A} (l : list A) (x : A) : NoDup l -> ~ In x l -> NoDup (l ++ [x]).
Proof.
  intros Hnd Hx. apply NoDup_app; [exact Hnd|repeat constructor; intros []|].
  intros y Hy [<-|[]]. exact (Hx Hy).
Qed.

(** A DELETE keeps a unique column unique. *)
Lemma delete_keeps_key_unique {Row Key : Type}
    (key : Row -> Key) (keep : Row -> bool) (rows : list Row) :
  NoDup (map key rows) -> NoDup (map key (filter keep rows)).
Proof.
  intros Hnd. induction rows as [|row rows IH]; cbn [map filter]; [constructor|].
  cbn [map] in Hnd. apply NoDup_cons_iff in Hnd. destruct Hnd as [Hrow Hnd].
  destruct (keep row); cbn [map]; [|now apply IH].
  constructor; [|now apply IH].
  intros Hin. apply Hrow. apply in_map_iff in Hin. destruct Hin as (y & Hy & Hin).
  apply filter_In in Hin. rewrite <- Hy. apply in_map. tauto.
Qed.

Lemma next_id_not_among (seq : Z) (ids : list Z) : ~ In (next_id seq ids) ids.
Proof. intros Hin. apply (next_id_above_ids seq) in Hin. lia. Qed.

Lemma existsb_false_not_in {A} (f : A -> string) (l : list A) (k : string) :
  existsb (fun x => String.eqb (f x) k) l = false -> ~ In k (map f l).
Proof.
  intros Hex Hin. apply in_map_iff in Hin. destruct Hin as (x & Hx & Hin).
  assert (Htrue : existsb (fun x => String.eqb (f x) k) l = true).
  { apply existsb_exists. exists x. split; [exact Hin|now apply String.eqb_eq]. }
  congruence.
Qed.

Lemma insert_user_keys (d d' : Store num) (e pw sn : string) (p : Profile) :
  insert_user d e pw sn p = Some d' -> auth_keys_unique d -> auth_keys_unique d'.
Proof.
  unfold insert_user, auth_keys_unique.
  destruct (existsb _ (users d)) eqn:Hex; [discriminate|].
  intros Hd (He & Hi & Ht & Hs). injection Hd as <-.
  cbn [users sessions set_users]. rewrite !map_app. cbn [map email user_id].
  split; [apply NoDup_snoc; [exact He|now apply existsb_false_not_in]|].
  split; [apply NoDup_snoc; [exact Hi|apply next_id_not_among]|].
  split; assumption.
Qed.

Lemma insert_session_keys (d d' : Store num) (uid : Z) (t : string) (e : Z) :
  insert_session d uid t e = Some d' -> auth_keys_unique d -> auth_keys_unique d'.
Proof.
  unfold insert_session, auth_keys_unique.
  destruct (existsb _ (sessions d)) eqn:Hex; [discriminate|].
  intros Hd (He & Hi & Ht & Hs). injection Hd as <-.
  cbn [users sessions set_sessions]. rewrite !map_app. cbn [map token session_id].
  split; [exact He|]. split; [exact Hi|].
  split; [apply NoDup_snoc; [exact Ht|now apply existsb_false_not_in]|].
  apply NoDup_snoc; [exact Hs|apply next_id_not_among].
Qed.

Lemma delete_sessions_of_user_keys (d : Store num) (uid : Z) :
  auth_keys_unique d -> auth_keys_unique (delete_sessions_of_user d uid).
Proof.
  unfold auth_keys_unique, delete_sessions_of_user.
  cbn [users sessions set_sessions]. intros (He & Hi & Ht & Hs).
  repeat split; try assumption; now apply delete_keeps_key_unique.
Qed.

Lemma delete_sessions_by_token_keys (d : Store num) (t : string) :
  auth_keys_unique d -> auth_keys_unique (delete_sessions_by_token d t).
Proof.
  unfold auth_keys_unique, delete_sessions_by_token.
  cbn [users sessions set_sessions]. intros (He & Hi & Ht & Hs).
  repeat split; try assumption; now apply delete_keeps_key_unique.
Qed.

Lemma start_session_keys (rt : Runtime) (u : User) (w : World num) :
  auth_keys_unique (db w) -> auth_keys_unique (db (snd (start_session rt u w))).
Proof.
  intros Hk. rewrite start_session_db.
  pose proof (delete_sessions_of_user_keys (db w) (user_id u) Hk) as Hdel.
  destruct (insert_session _ _ _ _) as [d|] eqn:Hins; [|exact Hdel].
  exact (insert_session_keys _ _ _ _ _ Hins Hdel).
Qed.

End UniqueKeys.

(** X13. The session operations never break the unique constraints:
    whatever series of signup, login and logout calls is made from a
    store in which user addresses, user ids, session tokens and session
    ids are each unique, they are unique afterwards. *)
Theorem auth_calls_keep_keys_unique
    {num : Type} (calls : list AuthCall) (w : World num) :
  auth_keys_unique (db w) -> auth_keys_unique (db (run_calls calls w)).
Proof.
  revert w. unfold run_calls.
  induction calls as [|c calls IH]; intros w Hk; cbn [fold_left]; [exact Hk|].
  apply IH. destruct c as [rt input|rt e p|ctx]; cbn [run_call].
  - (* signup *)
    unfold signup. unfold Trpc.bind at 1. unfold Trpc.query at 1.
    destruct (user_by_email (db w) (in_email input)); [exact Hk|].
    unfold Trpc.bind at 1. unfold Trpc.run_checked.
    destruct (insert_user (db w) _ _ _ _) as [d|] eqn:Hins; [|exact Hk].
    pose proof (insert_user_keys _ _ _ _ _ _ Hins Hk) as Hd.
    unfold Trpc.bind at 1. unfold Trpc.query at 1. cbn [db].
    destruct (user_by_email d (in_email input)) as [u|]; [|exact Hd].
    now apply start_session_keys.
  - (* login *)
    unfold login. unfold Trpc.bind at 1. unfold Trpc.query at 1.
    destruct (user_by_email (db w) e) as [u|]; [|exact Hk].
    destruct (negb (bcrypt_compare rt p (password u))); [exact Hk|].
    now apply start_session_keys.
  - (* logout *)
    unfold logout. destruct (user ctx); [|exact Hk]. handler_unfold.
    destruct (logout_token (req ctx)) as [t|]; [|exact Hk].
    destruct (truthy t); [|exact Hk].
    cbn [db snd]. now apply delete_sessions_by_token_keys.
Qed.

Lemma auth_calls_keep_keys_unique_witness :
  let rt := Fixture.stub_runtime 0 1000 in
  auth_keys_unique
    (db (run_calls [CallSignup rt {| in_email := "new@example.com";
                                     in_password := "Password3!";
                                     in_ssn := "123456789";
                                     in_profile := Fixture.john_profile |};
                    CallLogin rt "logic@example.com" "Password1!";
                    CallLogout Fixture.john_ctx]
           (Fixture.session_world 5000))).
Proof.
  intros rt. apply auth_calls_keep_keys_unique.
  repeat split; repeat constructor; cbn; intuition discriminate.
Defined.

(** ** Card numbers *)

Section CardFacts.

Lemma digits_n_spec (n : nat) :
  forall s, digits_n n s = true -> String.length s = n /\ all_digits s.
Proof.
  unfold all_digits.
  induction n as [|n IH]; intros [|c r]; cbn [digits_n]; try discriminate.
  - intros _. split; [reflexivity|constructor].
  - intros Hd. apply andb_true_iff in Hd. destruct Hd as [Hc Hr].
    destruct (IH r Hr) as [Hlen Hall]. cbn [String.length list_ascii_of_string].
    split; [now rewrite Hlen|now constructor].
Qed.

Lemma is_visa_shape (s : string) :
  is_visa s = true ->
  all_digits s /\ (String.length s = 13%nat \/ String.length s = 16%nat).
Proof.
  destruct s as [|c r]; [discriminate|].
  destruct c as [[] [] [] [] [] [] [] []]; try discriminate.
  cbn [is_visa]. intros Hd. apply orb_true_iff in Hd.
  destruct Hd as [Hd|Hd]; apply digits_n_spec in Hd; destruct Hd as [Hlen Hall];
    (split; [constructor; [reflexivity|exact Hall]|cbn [String.length]; lia]).
Qed.

Lemma is_mastercard_shape (s : string) :
  is_mastercard s = true -> all_digits s /\ String.length s = 16%nat.
Proof.
  destruct s as [|c r]; [discriminate|].
  destruct c as [[] [] [] [] [] [] [] []]; try discriminate.
  destruct r as [|c2 r]; [discriminate|].
  cbn [is_mastercard]. intros Hd. apply andb_true_iff in Hd. destruct Hd as [Hc Hd].
  apply digits_n_spec in Hd. destruct Hd as [Hlen Hall].
  split; [|cbn [String.length]; lia].
  constructor; [reflexivity|]. constructor; [|exact Hall].
  unfold is_digit. apply andb_true_iff in Hc. destruct Hc as [Hlo Hhi].
  apply N.leb_le in Hlo, Hhi. apply andb_true_iff. split; apply N.leb_le; lia.
Qed.

Lemma is_amex_shape (s : string) :
  is_amex s = true -> all_digits s /\ String.length s = 15%nat.
Proof.
  destruct s as [|c r]; [discriminate|].
  destruct c as [[] [] [] [] [] [] [] []]; try discriminate.
  destruct r as [|c2 r]; [discriminate|].
  cbn [is_amex]. intros Hd. apply andb_true_iff in Hd. destruct Hd as [Hc Hd].
  apply digits_n_spec in Hd. destruct Hd as [Hlen Hall].
  split; [|cbn [String.length]; lia].
  constructor; [reflexivity|]. constructor; [|exact Hall].
  apply orb_true_iff in Hc. destruct Hc as [Hc|Hc]; apply Ascii.eqb_eq in Hc;
    subst c2; reflexivity.
Qed.

Lemma is_discover_shape (s : string) :
  is_discover s = true -> all_digits s /\ String.length s = 16%nat.
Proof.
  destruct s as [|c r]; [discriminate|].
  destruct c as [[] [] [] [] [] [] [] []]; try discriminate.
  destruct r as [|c2 r]; [discriminate|].
  destruct c2 as [[] [] [] [] [] [] [] []]; try discriminate.
  - (* 65.. *)
    cbn [is_discover]. intros Hd. apply digits_n_spec in Hd.
    destruct Hd as [Hlen Hall].
    split; [|cbn [String.length]; lia]. repeat (constructor; [reflexivity|]). exact Hall.
  - (* 6011.. *)
    destruct r as [|c3 r]; [discriminate|].
    destruct c3 as [[] [] [] [] [] [] [] []]; try discriminate.
    destruct r as [|c4 r]; [discriminate|].
    destruct c4 as [[] [] [] [] [] [] [] []]; try discriminate.
    cbn [is_discover]. intros Hd. apply digits_n_spec in Hd.
    destruct Hd as [Hlen Hall].
    split; [|cbn [String.length]; lia]. repeat (constructor; [reflexivity|]). exact Hall.
Qed.

Lemma detectCardType_shape (s : string) (t : CardType) :
  detectCardType s = Some t ->
  all_digits s
  /\ match t with
     | visa => String.length s = 13%nat \/ String.length s = 16%nat
     | amex => String.length s = 15%nat
     | mastercard | discover => String.length s = 16%nat
     end.
Proof.
  unfold detectCardType.
  destruct (is_visa s) eqn:Hv.
  { intros Ht. injection Ht as <-. now apply is_visa_shape. }
  destruct (is_mastercard s) eqn:Hm.
  { intros Ht. injection Ht as <-. now apply is_mastercard_shape. }
  destruct (is_amex s) eqn:Ha.
  { intros Ht. injection Ht as <-. now apply is_amex_shape. }
  destruct (is_discover s) eqn:Hd; [|discriminate].
  intros Ht. injection Ht as <-. now apply is_discover_shape.
Qed.

Lemma list_ascii_app (a b : string) :
  list_ascii_of_string (a ++ b) = (list_ascii_of_string a ++ list_ascii_of_string b)%list.
Proof. induction a as [|c a IH]; cbn; [reflexivity|now rewrite IH]. Qed.

Lemma luhn_terms_from_app (l1 l2 : list Z) :
  forall pos,
    luhn_terms_from pos (l1 ++ l2)
    = luhn_terms_from pos l1 + luhn_terms_from (pos + List.length l1) l2.
Proof.
  induction l1 as [|d l1 IH]; intros pos; cbn [luhn_terms_from app List.length].
  - now rewrite Nat.add_0_r.
  - rewrite IH. replace (S pos + List.length l1)%nat with (pos + S (List.length l1))%nat by lia.
    lia.
Qed.

Lemma digit_value_range (c : ascii) : is_digit c = true -> 0 <= digit_value c <= 9.
Proof.
  unfold is_digit, digit_value. intros Hc. apply andb_true_iff in Hc.
  destruct Hc as [Hlo Hhi]. apply N.leb_le in Hlo, Hhi. lia.
Qed.

Lemma digit_value_inj (c c' : ascii) :
  is_digit c = true -> is_digit c' = true -> digit_value c = digit_value c' -> c = c'.
Proof.
  unfold is_digit, digit_value. intros Hc Hc' Heq.
  apply andb_true_iff in Hc, Hc'. destruct Hc as [Hlo _]. destruct Hc' as [Hlo' _].
  apply N.leb_le in Hlo, Hlo'.
  rewrite <- (ascii_N_embedding c), <- (ascii_N_embedding c'). f_equal. lia.
Qed.

(** The term of a position tells the ten digits apart. *)
Lemma luhn_term_inj (pos : nat) (d d' : Z) :
  0 <= d <= 9 -> 0 <= d' <= 9 ->
  0 <= luhn_term pos d <= 9
  /\ (luhn_term pos d = luhn_term pos d' -> d = d').
Proof.
  unfold luhn_term. intros Hd Hd'.
  destruct (Nat.odd pos); [|lia].
  destruct (Z.ltb_spec 9 (2 * d)); destruct (Z.ltb_spec 9 (2 * d')); lia.
Qed.

Lemma isValidLuhn_checksum (s : string) :
  all_digits s -> isValidLuhn s = (luhn_checksum s =? 0).
Proof.
  intros Hd. unfold isValidLuhn, luhn_checksum.
  change false with (Nat.odd 0).
  rewrite luhn_loop_terms by (apply Forall_rev; exact Hd).
  now rewrite Z.add_0_l.
Qed.

End CardFacts.

(** X14. A card funding source that [fundAccount] does not refuse has a
    number of 13, 15 or 16 characters, all decimal digits, whose Luhn
    checksum is 0; so the Luhn loop never meets a character it cannot
    parse. *)
Theorem accepted_card_numbers_are_digit_strings (fs : FundingSource) :
  fs_type fs = card ->
  ~ funding_source_invalid fs ->
  all_digits (fs_accountNumber fs)
  /\ (String.length (fs_accountNumber fs) = 13%nat
      \/ String.length (fs_accountNumber fs) = 15%nat
      \/ String.length (fs_accountNumber fs) = 16%nat)
  /\ luhn_checksum (fs_accountNumber fs) = 0.
Proof.
  unfold funding_source_invalid. intros Hty Hok. rewrite Hty in Hok.
  destruct (detectCardType (fs_accountNumber fs)) as [t|] eqn:Hnet;
    [|exfalso; apply Hok; now left].
  destruct (detectCardType_shape _ _ Hnet) as [Hall Hlen].
  destruct (isValidLuhn (fs_accountNumber fs)) eqn:Hl;
    [|exfalso; apply Hok; now right].
  split; [exact Hall|]. split; [destruct t; tauto|].
  rewrite (isValidLuhn_checksum _ Hall) in Hl. now apply Z.eqb_eq.
Qed.

Lemma accepted_card_numbers_are_digit_strings_witness :
  all_digits "4111111111111111"
  /\ String.length "4111111111111111" = 16%nat
  /\ luhn_checksum "4111111111111111" = 0.
Proof.
  destruct (accepted_card_numbers_are_digit_strings Fixture.visa_source eq_refl)
    as (Hall & _ & Hsum).
  - intros [Hn|Hl]; discriminate.
  - split; [exact Hall|]. split; [reflexivity|exact Hsum].
Defined.

(** X15. [isValidLuhn] catches every single-digit error: replacing one
    digit of a digit string that passes by any other digit gives a string
    that fails. *)
Theorem isValidLuhn_detects_single_digit_errors
    (before after : string) (c c' : ascii) :
  all_digits before -> all_digits after ->
  is_digit c = true -> is_digit c' = true -> c <> c' ->
  isValidLuhn (before ++ String c after) = true ->
  isValidLuhn (before ++ String c' after) = false.
Proof.
  intros Hb Ha Hc Hc' Hne Hvalid.
  assert (Hall : forall x, is_digit x = true -> all_digits (before ++ String x after)).
  { intros x Hx. unfold all_digits in *. rewrite list_ascii_app.
    apply Forall_app. split; [exact Hb|]. now constructor. }
  rewrite (isValidLuhn_checksum _ (Hall c Hc)) in Hvalid.
  rewrite (isValidLuhn_checksum _ (Hall c' Hc')).
  apply Z.eqb_eq in Hvalid. apply Z.eqb_neq. intros Hvalid'.
  unfold luhn_checksum in Hvalid, Hvalid'.
  rewrite list_ascii_app in Hvalid, Hvalid'. cbn [list_ascii_of_string] in Hvalid, Hvalid'.
  rewrite rev_app_distr in Hvalid, Hvalid'. cbn [rev] in Hvalid, Hvalid'.
  rewrite <- app_assoc in Hvalid, Hvalid'. cbn [app] in Hvalid, Hvalid'.
  rewrite map_app in Hvalid, Hvalid'. cbn [map] in Hvalid, Hvalid'.
  rewrite luhn_terms_from_app in Hvalid, Hvalid'.
  cbn [luhn_terms_from] in Hvalid, Hvalid'.
  set (p := (0 + List.length (map digit_value (rev (list_ascii_of_string after))))%nat) in *.
  destruct (luhn_term_inj p (digit_value c) (digit_value c')
              (digit_value_range c Hc) (digit_value_range c' Hc')) as [Hr Hinj].
  destruct (luhn_term_inj p (digit_value c') (digit_value c)
              (digit_value_range c' Hc') (digit_value_range c Hc)) as [Hr' _].
  assert (Heq : luhn_term p (digit_value c) = luhn_term p (digit_value c')).
  { apply Z.mod_divide in Hvalid, Hvalid'; try lia.
    destruct Hvalid as [k Hk]. destruct Hvalid' as [k' Hk']. lia. }
  apply Hne. apply digit_value_inj; auto.
Qed.

Lemma isValidLuhn_detects_single_digit_errors_witness :
  isValidLuhn "4111111111111111" = true
  /\ isValidLuhn "4111111171111111" = false.
Proof.
  split; [reflexivity|].
  apply (isValidLuhn_detects_single_digit_errors "41111111" "1111111" "1" "7");
    try reflexivity; try (repeat constructor); discriminate.
Defined.

(** ** Account numbers *)

Example generateAccountNumber_draws :
  generateAccountNumber Fixture.taken_draw = "0123456789"
  /\ generateAccountNumber Fixture.fresh_draw = "9511627775"
  /\ generateAccountNumber [x00; x00; x00; x00; x2a] = "0000000042".
Proof. repeat split. Qed.

Section DecimalFacts.

Lemma string_length_app (a b : string) :
  String.length (a ++ b) = (String.length a + String.length b)%nat.
Proof. induction a as [|c a IH]; cbn; [reflexivity|now rewrite IH]. Qed.

Lemma digit_char_is_digit (d : Z) : 0 <= d <= 9 -> is_digit (digit_char d) = true.
Proof.
  intros Hd. unfold is_digit, digit_char.
  rewrite N_ascii_embedding by lia.
  apply andb_true_iff. split; apply N.leb_le; lia.
Qed.

Lemma digit_char_value (d : Z) :
  0 <= d <= 9 -> Z.of_N (N_of_ascii (digit_char d)) - 48 = d.
Proof.
  intros Hd. unfold digit_char. rewrite N_ascii_embedding by lia. lia.
Qed.

Lemma decimal_go_app (a b : string) :
  forall acc, decimal_go (a ++ b) acc = decimal_go b (decimal_go a acc).
Proof. induction a as [|c a IH]; intros acc; cbn; [reflexivity|apply IH]. Qed.

(** With enough fuel the digits printed are at most as many as the
    bound on the number allows, they are digits, and they read back as
    the number. *)
Lemma decimal_digits_spec (fuel : nat) :
  forall (n : Z) (k : nat),
    0 <= n < 10 ^ Z.of_nat fuel -> n < 10 ^ Z.of_nat k -> (1 <= k)%nat ->
    (String.length (decimal_digits fuel n) <= k)%nat
    /\ all_digits (decimal_digits fuel n)
    /\ decimal_go (decimal_digits fuel n) 0 = n.
Proof.
  unfold all_digits.
  induction fuel as [|fuel IH]; intros n k Hn Hk Hk1.
  - cbn in Hn. assert (n = 0) by lia. subst n. cbn.
    split; [lia|]. split; [constructor|reflexivity].
  - cbn [decimal_digits]. destruct (Z.ltb_spec n 10) as [Hsmall|Hbig].
    + cbn [String.length list_ascii_of_string decimal_go].
      split; [lia|]. split.
      * constructor; [apply digit_char_is_digit; lia|constructor].
      * rewrite digit_char_value by lia. lia.
    + assert (Hfuel : (1 <= fuel)%nat).
      { destruct fuel; [cbn in Hn; lia|lia]. }
      assert (Hk2 : (2 <= k)%nat).
      { destruct k as [|[|k]]; [lia|cbn in Hk; lia|lia]. }
      assert (Hdiv : 0 <= n / 10 < 10 ^ Z.of_nat fuel).
      { split; [apply Z.div_pos; lia|].
        apply Z.div_lt_upper_bound; [lia|].
        replace (10 * 10 ^ Z.of_nat fuel) with (10 ^ Z.of_nat (S fuel)); [lia|].
        rewrite Nat2Z.inj_succ, Z.pow_succ_r; lia. }
      assert (Hdivk : n / 10 < 10 ^ Z.of_nat (k - 1)).
      { apply Z.div_lt_upper_bound; [lia|].
        replace (10 * 10 ^ Z.of_nat (k - 1)) with (10 ^ Z.of_nat k); [lia|].
        replace (Z.of_nat k) with (Z.succ (Z.of_nat (k - 1))) by lia.
        rewrite Z.pow_succ_r; lia. }
      destruct (IH (n / 10) (k - 1)%nat Hdiv Hdivk ltac:(lia)) as (Hlen & Hall & Hval).
      pose proof (Z.mod_pos_bound n 10 ltac:(lia)) as Hmod.
      split; [rewrite string_length_app; cbn [String.length]; lia|]. split.
      * rewrite list_ascii_app. apply Forall_app. split; [exact Hall|].
        constructor; [apply digit_char_is_digit; lia|constructor].
      * rewrite decimal_go_app, Hval. cbn [decimal_go].
        rewrite digit_char_value by lia.
        pose proof (Z.div_mod n 10 ltac:(lia)). lia.
Qed.

Lemma Number_toString_spec (n : Z) (k : nat) :
  0 <= n < 10 ^ Z.of_nat k -> (1 <= k)%nat ->
  (String.length (Number_toString n) <= k)%nat
  /\ all_digits (Number_toString n)
  /\ decimal_go (Number_toString n) 0 = n.
Proof.
  intros Hn Hk. unfold Number_toString.
  apply decimal_digits_spec; try lia.
  split; [lia|].
  destruct (Z.eq_dec n 0) as [->|Hnz]; [cbn; lia|].
  pose proof (Z.log2_spec n ltac:(lia)) as [_ Hlog].
  pose proof (Z.log2_nonneg n) as Hnn.
  rewrite Nat2Z.inj_succ, Z2Nat.id by lia.
  eapply Z.lt_le_trans; [exact Hlog|].
  apply Z.pow_le_mono_l. lia.
Qed.

Lemma padStart_zero_spec (s : string) (k : nat) :
  (String.length s <= k)%nat -> all_digits s ->
  String.length (padStart k "0" s) = k
  /\ all_digits (padStart k "0" s)
  /\ decimal_go (padStart k "0" s) 0 = decimal_go s 0.
Proof.
  unfold padStart, all_digits. intros Hlen Hall.
  remember (k - String.length s)%nat as m eqn:Hmk.
  assert (Hm : String.length (string_of_list_ascii (repeat "0"%char m)) = m
               /\ Forall (fun c => is_digit c = true)
                    (list_ascii_of_string (string_of_list_ascii (repeat "0"%char m)))
               /\ decimal_go (string_of_list_ascii (repeat "0"%char m)) 0 = 0).
  { clear Hmk. induction m as [|m IH]; cbn; [repeat split; constructor|].
    destruct IH as (Hl & Hf & Hv). repeat split; [now rewrite Hl| |exact Hv].
    constructor; [reflexivity|exact Hf]. }
  destruct Hm as (Hl & Hf & Hv).
  rewrite string_length_app, list_ascii_app, decimal_go_app, Hl, Hv.
  split; [lia|split; [apply Forall_app; split; assumption|reflexivity]].
Qed.

End DecimalFacts.

Section HexFacts.

Lemma hex_value_hex_char (n : N) :
  (n < 16)%N -> hex_value (hex_char n) = Some (Z.of_N n).
Proof.
  intros Hn.
  assert (Hcases : In n [0; 1; 2; 3; 4; 5; 6; 7; 8; 9; 10; 11; 12; 13; 14; 15]%N).
  { cbn. lia. }
  cbn in Hcases.
  repeat (destruct Hcases as [<-|Hcases]; [reflexivity|]). destruct Hcases.
Qed.

Lemma byte_nibbles (b : Byte.byte) :
  (Byte.to_N b / 16 < 16)%N /\ (Byte.to_N b mod 16 < 16)%N
  /\ Z.of_N (Byte.to_N b)
     = 16 * Z.of_N (Byte.to_N b / 16) + Z.of_N (Byte.to_N b mod 16).
Proof.
  pose proof (Byte.to_N_bounded b) as Hb.
  pose proof (N.div_mod (Byte.to_N b) 16 ltac:(lia)) as Hdm.
  pose proof (N.mod_lt (Byte.to_N b) 16 ltac:(lia)) as Hm.
  assert (Hd : (Byte.to_N b / 16 < 16)%N) by (apply N.Div0.div_lt_upper_bound; lia).
  repeat split; try assumption. lia.
Qed.

Lemma parseInt16_go_byte (b : Byte.byte) (rest : string) (acc : Z) :
  parseInt16_go (hex_of_byte b ++ rest) acc
  = parseInt16_go rest (256 * acc + Z.of_N (Byte.to_N b)).
Proof.
  destruct (byte_nibbles b) as (Hhi & Hlo & Hsplit).
  unfold hex_of_byte. cbn [append parseInt16_go].
  rewrite (hex_value_hex_char _ Hhi), (hex_value_hex_char _ Hlo).
  f_equal. lia.
Qed.

Lemma hex_of_byte_starts_with_digit (b : Byte.byte) (rest : string) :
  parseInt16 (hex_of_byte b ++ rest) = Some (parseInt16_go (hex_of_byte b ++ rest) 0).
Proof.
  destruct (byte_nibbles b) as (Hhi & _).
  unfold hex_of_byte. cbn [append parseInt16].
  now rewrite (hex_value_hex_char _ Hhi).
Qed.

Lemma parseInt16_go_bytes (bytes : list Byte.byte) :
  forall acc,
    parseInt16_go (hex_of_bytes bytes) acc
    = fold_left (fun a b => 256 * a + Z.of_N (Byte.to_N b)) bytes acc.
Proof.
  induction bytes as [|b bytes IH]; intros acc; cbn [hex_of_bytes fold_left];
    [reflexivity|].
  now rewrite parseInt16_go_byte, IH.
Qed.

(** Reading back the hexadecimal text of at least one byte gives the
    number the bytes denote. *)
Lemma parseInt16_hex_of_bytes (bytes : list Byte.byte) :
  bytes <> [] -> parseInt16 (hex_of_bytes bytes) = Some (bytes_value bytes).
Proof.
  destruct bytes as [|b bytes]; [congruence|]. intros _.
  cbn [hex_of_bytes]. rewrite hex_of_byte_starts_with_digit.
  f_equal. apply (parseInt16_go_bytes (b :: bytes)).
Qed.

End HexFacts.

Lemma generateAccountNumber_ten_digits_lemma (bytes : list Byte.byte) :
  List.length bytes = 5%nat ->
  String.length (generateAccountNumber bytes) = 10%nat
  /\ all_digits (generateAccountNumber bytes)
  /\ decimal_go (generateAccountNumber bytes) 0 = bytes_value bytes mod 10000000000.
Proof.
  intros Hfive.
  assert (Hne : bytes <> []) by (intros ->; discriminate Hfive).
  unfold generateAccountNumber.
  rewrite (parseInt16_hex_of_bytes bytes Hne).
  pose proof (Z.mod_pos_bound (bytes_value bytes) 10000000000 ltac:(lia)) as Hmod.
  destruct (Number_toString_spec (bytes_value bytes mod 10000000000) 10)
    as (Hlen & Hall & Hval); [exact Hmod|lia|].
  destruct (padStart_zero_spec _ 10 Hlen Hall) as (Hplen & Hpall & Hpval).
  split; [exact Hplen|]. split; [exact Hpall|]. now rewrite Hpval.
Qed.

(** X16. On the five bytes the random source draws,
    [generateAccountNumber] returns exactly ten decimal digits, and they
    spell the 40-bit number the bytes denote, taken modulo 10^10. *)
Theorem generateAccountNumber_ten_digits (bytes : list Byte.byte) :
  List.length bytes = 5%nat ->
  String.length (generateAccountNumber bytes) = 10%nat
  /\ all_digits (generateAccountNumber bytes)
  /\ decimal_go (generateAccountNumber bytes) 0 = bytes_value bytes mod 10000000000.
Proof. exact (generateAccountNumber_ten_digits_lemma bytes). Qed.

Lemma generateAccountNumber_ten_digits_witness :
  String.length (generateAccountNumber Fixture.fresh_draw) = 10%nat
  /\ all_digits (generateAccountNumber Fixture.fresh_draw)
  /\ decimal_go (generateAccountNumber Fixture.fresh_draw) 0
     = bytes_value Fixture.fresh_draw mod 10000000000.
Proof.
  apply (generateAccountNumber_ten_digits Fixture.fresh_draw). reflexivity.
Defined.

(** ** Opening an account *)

Section CreateAccountFacts.
Context {num : Type} `{JsNumber num}.

Lemma account_by_number_none (d : Store num) (n : string) :
  account_by_number d n = None
  <-> existsb (fun a => String.eqb (accountNumber a) n) (accounts d) = false.
Proof.
  unfold account_by_number, get. split.
  - intros Hnone. apply Bool.not_true_is_false. intros Hex.
    apply existsb_exists in Hex. destruct Hex as (a & Hin & Ha).
    assert (Hf : In a (filter (fun a0 => String.eqb (accountNumber a0) n) (accounts d)))
      by (apply filter_In; tauto).
    destruct (filter _ (accounts d)); [destruct Hf|discriminate].
  - intros Hex. now rewrite (existsb_false_filter _ _ Hex).
Qed.

(** The loop returns the number of the first draw that is not in the
    table. *)
Lemma unique_account_number_spec (d : Store num) (draws : list (list Byte.byte))
    (n : string) :
  unique_account_number d draws = Some n
  <-> exists taken bytes rest,
        draws = (taken ++ bytes :: rest)%list
        /\ n = generateAccountNumber bytes
        /\ account_by_number d n = None
        /\ Forall (fun b => account_by_number d (generateAccountNumber b) <> None) taken.
Proof.
  induction draws as [|b draws IH]; cbn [unique_account_number].
  - split; [discriminate|]. intros (taken & bytes & rest & Hd & _).
    destruct taken; discriminate.
  - destruct (account_by_number d (generateAccountNumber b)) eqn:Hb.
    + rewrite IH. split.
      * intros (taken & bytes & rest & -> & Hn & Hfree & Htaken).
        exists (b :: taken), bytes, rest. repeat split; try assumption.
        constructor; [congruence|exact Htaken].
      * intros (taken & bytes & rest & Hd & Hn & Hfree & Htaken).
        destruct taken as [|t taken]; cbn in Hd; injection Hd as -> ->.
        { subst n. congruence. }
        inversion Htaken; subst. exists taken, bytes, rest. repeat split; assumption.
    + split.
      * intros Hn. injection Hn as <-. exists [], b, draws. repeat split; auto.
      * intros (taken & bytes & rest & Hd & Hn & Hfree & Htaken).
        destruct taken as [|t taken]; cbn in Hd; injection Hd as -> ->.
        { now subst n. }
        inversion Htaken; subst. contradiction.
Qed.

(** What [createAccount] does once the loop has produced a number. *)
Lemma createAccount_with_number (u : User) (ty : AccountType)
    (draws : list (list Byte.byte)) (w : World num) (n : string) :
  account_of_type (db w) (user_id u) ty = None ->
  unique_account_number (db w) draws = Some n ->
  createAccount u ty draws w
  = Some (inr {| account_id := next_id (seq_accounts (db w))
                                 (map account_id (accounts (db w)));
                 account_userId := user_id u; accountNumber := n;
                 accountType := ty; balance := num_of_Z 0; status := "active" |},
          {| db := {| users := users (db w);
                      accounts :=
                        accounts (db w)
                        ++ [{| account_id := next_id (seq_accounts (db w))
                                               (map account_id (accounts (db w)));
                               account_userId := user_id u; accountNumber := n;
                               accountType := ty; balance := num_of_Z 0;
                               status := "active" |}];
                      transactions := transactions (db w);
                      sessions := sessions (db w);
                      seq_users := seq_users (db w);
                      seq_accounts := next_id (seq_accounts (db w))
                                        (map account_id (accounts (db w)));
                      seq_transactions := seq_transactions (db w);
                      seq_sessions := seq_sessions (db w) |};
             res := res w |}).
Proof.
  intros Hty Hn. unfold createAccount. rewrite Hty, Hn.
  apply unique_account_number_spec in Hn.
  destruct Hn as (_ & _ & _ & _ & _ & Hfree & _).
  apply account_by_number_none in Hfree.
  unfold insert_account. rewrite Hfree.
  unfold account_by_number. cbn [accounts]. rewrite filter_app.
  rewrite (existsb_false_filter _ _ Hfree). cbn [filter accountNumber app].
  now rewrite String.eqb_refl.
Qed.

End CreateAccountFacts.

(** X17. [createAccount] answers in one of two ways, and never with an
    internal error.  If the caller holds an account of the type it
    throws Conflict, consumes no draw and changes nothing.  Otherwise it
    appends one account row and returns that row: owned by the caller, of
    the type asked, balance 0, status active, an id above every earlier
    one and a number no account had; all other tables are as before. *)
Theorem createAccount_outcome
    {num : Type} `{JsNumber num}
    (u : User) (ty : AccountType) (draws : list (list Byte.byte))
    (w w' : World num) (r : TRPCError + Account num) :
  createAccount u ty draws w = Some (r, w') ->
  match r with
  | inl e =>
      code e = CONFLICT
      /\ message e = ("You already have a " ++ AccountType_name ty ++ " account")%string
      /\ account_of_type (db w) (user_id u) ty <> None
      /\ w' = w
  | inr account =>
      account_of_type (db w) (user_id u) ty = None
      /\ accounts (db w') = (accounts (db w) ++ [account])%list
      /\ account_userId account = user_id u
      /\ accountType account = ty
      /\ balance account = num_of_Z 0
      /\ status account = "active"
      /\ (forall a, In a (accounts (db w)) ->
                    account_id a < account_id account
                    /\ accountNumber a <> accountNumber account)
      /\ account_by_number (db w') (accountNumber account) = Some account
      /\ users (db w') = users (db w)
      /\ transactions (db w') = transactions (db w)
      /\ sessions (db w') = sessions (db w)
      /\ res w' = res w
  end.
Proof.
  intros Hrun.
  destruct (account_of_type (db w) (user_id u) ty) as [held|] eqn:Hty.
  - unfold createAccount in Hrun. rewrite Hty in Hrun.
    injection Hrun as <- <-. cbn [code message]. repeat split. discriminate.
  - destruct (unique_account_number (db w) draws) as [n|] eqn:Hn.
    + rewrite (createAccount_with_number u ty draws w n Hty Hn) in Hrun.
      injection Hrun as <- <-.
      cbn [db res accounts users transactions sessions account_userId accountType
           balance status account_id accountNumber].
      apply unique_account_number_spec in Hn.
      destruct Hn as (_ & _ & _ & _ & _ & Hfree & _).
      apply account_by_number_none in Hfree.
      repeat split.
      * apply next_id_above_ids. now apply in_map.
      * intros Heq. apply (existsb_false_not_in accountNumber _ _ Hfree).
        rewrite <- Heq. now apply in_map.
      * unfold account_by_number. cbn [accounts]. rewrite filter_app.
        rewrite (existsb_false_filter _ _ Hfree). cbn [filter accountNumber app].
        now rewrite String.eqb_refl.
    + unfold createAccount in Hrun. rewrite Hty, Hn in Hrun. discriminate.
Qed.

Lemma createAccount_outcome_witness :
  exists account w',
    createAccount Fixture.john savings Fixture.three_draws
      (Fixture.bank_world (num := float)) = Some (inr account, w')
    /\ accounts (db w') = (accounts (db Fixture.bank_world) ++ [account])%list
    /\ accountNumber account = "9511627775"
    /\ account_id account = 2.
Proof.
  destruct (createAccount Fixture.john savings Fixture.three_draws
              (Fixture.bank_world (num := float))) as [[[e|account] w']|] eqn:Hrun.
  - exfalso. vm_compute in Hrun. discriminate Hrun.
  - pose proof (createAccount_outcome Fixture.john savings Fixture.three_draws
                  Fixture.bank_world w' (inr account) Hrun) as (_ & Hacc & _).
    exists account, w'. split; [reflexivity|]. split; [exact Hacc|].
    vm_compute in Hrun. injection Hrun as <- _. split; reflexivity.
  - exfalso. vm_compute in Hrun. discriminate Hrun.
Defined.

(** X18. [createAccount] leaves its loop as soon as a draw gives a
    number that is not in the table: for a caller without an account of
    the type it then returns an account with the number of the first such
    draw, ten decimal digits when the draw has five bytes.  With draws
    that all give numbers already taken the loop is still running. *)
Theorem createAccount_returns_on_first_fresh_draw
    {num : Type} `{JsNumber num}
    (u : User) (ty : AccountType) (taken : list (list Byte.byte))
    (bytes : list Byte.byte) (rest : list (list Byte.byte)) (w : World num) :
  account_of_type (db w) (user_id u) ty = None ->
  Forall (fun b => account_by_number (db w) (generateAccountNumber b) <> None) taken ->
  account_by_number (db w) (generateAccountNumber bytes) = None ->
  List.length bytes = 5%nat ->
  (exists account w',
      createAccount u ty (taken ++ bytes :: rest) w = Some (inr account, w')
      /\ accountNumber account = generateAccountNumber bytes
      /\ String.length (accountNumber account) = 10%nat
      /\ all_digits (accountNumber account))
  /\ createAccount u ty taken w = None.
Proof.
  intros Hty Htaken Hfree Hfive. split.
  - assert (Hn : unique_account_number (db w) (taken ++ bytes :: rest)
                 = Some (generateAccountNumber bytes)).
    { apply unique_account_number_spec. exists taken, bytes, rest. repeat split; assumption. }
    rewrite (createAccount_with_number u ty _ w _ Hty Hn).
    do 2 eexists. split; [reflexivity|]. cbn [accountNumber].
    destruct (generateAccountNumber_ten_digits_lemma bytes Hfive) as (Hlen & Hall & _).
    repeat split; assumption.
  - unfold createAccount. rewrite Hty.
    destruct (unique_account_number (db w) taken) as [n|] eqn:Hn; [|reflexivity].
    exfalso. apply unique_account_number_spec in Hn.
    destruct Hn as (t1 & b & t2 & -> & -> & Hb & _).
    apply Forall_app in Htaken. destruct Htaken as [_ Htaken].
    inversion Htaken; subst. contradiction.
Qed.

Lemma createAccount_returns_on_first_fresh_draw_witness :
  (exists account w',
      createAccount Fixture.john savings Fixture.three_draws
        (Fixture.bank_world (num := float)) = Some (inr account, w')
      /\ accountNumber account = generateAccountNumber Fixture.fresh_draw
      /\ String.length (accountNumber account) = 10%nat
      /\ all_digits (accountNumber account))
  /\ createAccount Fixture.john savings [Fixture.taken_draw; Fixture.taken_draw]
       (Fixture.bank_world (num := float)) = None.
Proof.
  apply (createAccount_returns_on_first_fresh_draw Fixture.john savings
           [Fixture.taken_draw; Fixture.taken_draw] Fixture.fresh_draw []
           (Fixture.bank_world (num := float))).
  - reflexivity.
  - repeat constructor; discriminate.
  - reflexivity.
  - reflexivity.
Defined.

Section AccountsWellFormed.
Context {num : Type} `{JsNumber num}.

Lemma AccountType_eqb_eq (a b : AccountType) : AccountType_eqb a b = true <-> a = b.
Proof. destruct a, b; cbn; split; congruence. Qed.

Lemma account_of_type_none_filter (d : Store num) (uid : Z) (ty : AccountType) :
  account_of_type d uid ty = None ->
  filter (fun a => (account_userId a =? uid) && AccountType_eqb (accountType a) ty)
         (accounts d) = [].
Proof.
  unfold account_of_type, get.
  destruct (filter _ (accounts d)); [reflexivity|discriminate].
Qed.

Lemma update_balance_filter_length (d : Store num) (aid : Z) (b : num)
    (p : Z * Z * string * AccountType * string -> bool) :
  List.length (filter (fun a => p (account_id a, account_userId a, accountNumber a,
                                   accountType a, status a))
                      (accounts (update_balance d aid b)))
  = List.length (filter (fun a => p (account_id a, account_userId a, accountNumber a,
                                     accountType a, status a))
                        (accounts d)).
Proof.
  unfold update_balance. cbn [accounts set_accounts].
  induction (accounts d) as [|a l IH]; cbn [map filter]; [reflexivity|].
  destruct (account_id a =? aid);
    cbn [account_id account_userId accountNumber accountType status];
    destruct (p _); cbn [List.length]; now rewrite IH.
Qed.

Lemma update_balance_well_formed (d : Store num) (aid : Z) (b : num) :
  accounts_well_formed d -> accounts_well_formed (update_balance d aid b).
Proof.
  intros (Hn & Hi & Ht).
  pose proof (update_balance_accounts_fields d aid b) as Hfields.
  assert (Hnum : map accountNumber (accounts (update_balance d aid b))
                 = map accountNumber (accounts d)).
  { apply (f_equal (map (fun t => snd (fst (fst t))))) in Hfields.
    rewrite !map_map in Hfields. exact Hfields. }
  assert (Hid : map account_id (accounts (update_balance d aid b))
                = map account_id (accounts d)).
  { apply (f_equal (map (fun t => fst (fst (fst (fst t)))))) in Hfields.
    rewrite !map_map in Hfields. exact Hfields. }
  split; [now rewrite Hnum|]. split; [now rewrite Hid|].
  intros uid ty.
  pose proof (update_balance_filter_length d aid b
                (fun t => (snd (fst (fst (fst t))) =? uid)
                          && AccountType_eqb (snd (fst t)) ty)) as Hlen.
  cbn [fst snd] in Hlen. rewrite Hlen. apply Ht.
Qed.

Lemma fundAccount_final_store (u : User) (input : FundInput num) (now : Z)
    (w : World num) :
  db (snd (fundAccount u input now w)) = db w
  \/ exists amt descr b,
       db (snd (fundAccount u input now w))
       = update_balance
           (insert_transaction (db w) (input_accountId input) "deposit" amt descr
              "completed" now)
           (input_accountId input) b.
Proof.
  destruct (funding_source_invalid_dec (input_fundingSource input)) as [Hbad|Hok].
  - destruct (fundAccount_invalid_source u input now w Hbad) as [m [Heq _]].
    rewrite Heq. now left.
  - rewrite (fundAccount_valid_source u input now w Hok).
    destruct (account_of_user (db w) (input_accountId input) (user_id u)) as [a|];
      [|now left].
    destruct (negb (String.eqb (status a) "active")); [now left|].
    right. cbv zeta. cbn [snd db]. do 3 eexists. reflexivity.
Qed.

End AccountsWellFormed.

(** X19. Opening and funding accounts keep the accounts table well
    formed: from a store where account numbers and account ids are unique
    and no user holds two accounts of a type, this is still so after any
    [createAccount] that answered and after any [fundAccount], thrown or
    not. *)
Theorem account_operations_keep_accounts_well_formed
    {num : Type} `{JsNumber num} (w : World num) :
  accounts_well_formed (db w) ->
  (forall u ty draws r w',
      createAccount u ty draws w = Some (r, w') -> accounts_well_formed (db w'))
  /\ (forall u input now,
        accounts_well_formed (db (snd (fundAccount u input now w)))).
Proof.
  intros Hwf. split.
  - intros u ty draws r w' Hrun.
    destruct (account_of_type (db w) (user_id u) ty) as [held|] eqn:Hty.
    { unfold createAccount in Hrun. rewrite Hty in Hrun. now injection Hrun as <- <-. }
    destruct (unique_account_number (db w) draws) as [n|] eqn:Hn.
    2:{ unfold createAccount in Hrun. rewrite Hty, Hn in Hrun. discriminate. }
    rewrite (createAccount_with_number u ty draws w n Hty Hn) in Hrun.
    injection Hrun as <- <-. cbn [db].
    apply unique_account_number_spec in Hn.
    destruct Hn as (_ & _ & _ & _ & _ & Hfree & _).
    apply account_by_number_none in Hfree.
    destruct Hwf as (Hnum & Hid & Htype).
    unfold accounts_well_formed. cbn [accounts]. rewrite !map_app.
    cbn [map accountNumber account_id].
    split; [apply NoDup_snoc; [exact Hnum|now apply existsb_false_not_in]|].
    split; [apply NoDup_snoc; [exact Hid|apply next_id_not_among]|].
    intros uid ty'. rewrite filter_app, length_app.
    cbn [filter account_userId accountType].
    destruct (Z.eqb_spec (user_id u) uid) as [Hu|Hu]; cbn [andb].
    + destruct (AccountType_eqb ty ty') eqn:Hty'; cbn [List.length].
      * apply AccountType_eqb_eq in Hty'. subst uid ty'.
        rewrite (account_of_type_none_filter _ _ _ Hty). cbn. lia.
      * rewrite Nat.add_0_r. apply Htype.
    + cbn [List.length]. rewrite Nat.add_0_r. apply Htype.
  - intros u input now.
    destruct (fundAccount_final_store u input now w) as [Heq|(amt & descr & b & Heq)];
      rewrite Heq; [exact Hwf|].
    apply update_balance_well_formed. exact Hwf.
Qed.

Lemma account_operations_keep_accounts_well_formed_witness :
  accounts_well_formed (db (Fixture.bank_world (num := float)))
  /\ accounts_well_formed
       (db (snd (fundAccount Fixture.john (Fixture.deposit 50%float) 0
                   Fixture.bank_world))).
Proof.
  assert (Hwf : accounts_well_formed (db (Fixture.bank_world (num := float)))).
  { split; [repeat constructor; intros []|]. split; [repeat constructor; intros []|].
    intros uid ty. cbn [db accounts Fixture.bank_world filter].
    destruct (_ && _); cbn; lia. }
  destruct (account_operations_keep_accounts_well_formed Fixture.bank_world Hwf)
    as [_ Hfund].
  split; [exact Hwf|apply Hfund].
Defined.

(** ** Calendar dates *)

Section CalendarFacts.

Lemma in_range (lo len : nat) (z : Z) :
  Z.of_nat lo <= z < Z.of_nat (lo + len) -> In z (map Z.of_nat (seq lo len)).
Proof.
  intros Hz. apply in_map_iff. exists (Z.to_nat z). split; [lia|].
  apply in_seq. lia.
Qed.

Lemma is_leap_shift (y k : Z) : is_leap (y + 400 * k) = is_leap y.
Proof.
  unfold is_leap.
  replace (y + 400 * k) with (y + (100 * k) * 4) at 1 by lia.
  replace (y + 400 * k) with (y + (4 * k) * 100) at 1 by lia.
  replace (y + 400 * k) with (y + k * 400) by lia.
  now rewrite !Z.mod_add by lia.
Qed.

(** The day of a month as a day of the year that starts in March, and
    back: every month and day of a leap year, checked one by one. *)
Lemma month_day_check :
  forallb (fun m =>
    forallb (fun d =>
      implb (valid_date 0 m d)
            (let mm := if 2 <? m then m - 3 else m + 9 in
             let doy := (153 * mm + 2) / 5 + d - 1 in
             (0 <=? doy) && (doy <=? 365) && ((5 * doy + 2) / 153 =? mm)
             && implb (doy =? 365) ((m =? 2) && (d =? 29))))
      (map Z.of_nat (seq 1 31)))
    (map Z.of_nat (seq 1 12)) = true.
Proof. vm_compute. reflexivity. Qed.

(** The day of the year that starts in March as a month and a day:
    every day of a leap year, checked one by one. *)
Lemma day_of_year_check :
  forallb (fun doy =>
    let mp := (5 * doy + 2) / 153 in
    let d := doy - (153 * mp + 2) / 5 + 1 in
    let m := if mp <? 10 then mp + 3 else mp - 9 in
    (mp =? (if 2 <? m then m - 3 else m + 9))
    && (if doy =? 365 then (m =? 2) && (d =? 29) else valid_date 1 m d))
    (map Z.of_nat (seq 0 366)) = true.
Proof. vm_compute. reflexivity. Qed.

Lemma is_leap_spec (y : Z) :
  is_leap y = true <-> y mod 4 = 0 /\ (y mod 100 <> 0 \/ y mod 400 = 0).
Proof.
  unfold is_leap.
  rewrite orb_true_iff, andb_true_iff, negb_true_iff, !Z.eqb_eq, Z.eqb_neq.
  split; [|tauto].
  intros [H|H]; [tauto|]. split; [|tauto].
  revert H. Z.div_mod_to_equations. lia.
Qed.

(** Within a 400-year era, the year is recovered from the day. *)
Lemma year_of_era_inverse (yoe doy : Z) :
  0 <= yoe < 400 -> 0 <= doy <= 365 ->
  (doy = 365 -> is_leap (yoe + 1) = true) ->
  let doe := yoe * 365 + yoe / 4 - yoe / 100 + doy in
  0 <= doe < 146097
  /\ (doe - doe / 1460 + doe / 36524 - doe / 146096) / 365 = yoe.
Proof.
  intros Hy Hd Hleap. cbv zeta.
  assert (Hl : doy < 365 \/ (yoe + 1) mod 4 = 0
                            /\ ((yoe + 1) mod 100 <> 0 \/ (yoe + 1) mod 400 = 0)).
  { destruct (Z.eq_dec doy 365) as [Heq|]; [right|lia].
    now apply is_leap_spec, Hleap. }
  clear Hleap.
  split; Z.div_mod_to_equations; lia.
Qed.

(** Within a 400-year era, the day falls in the year computed for it. *)
Lemma day_of_era_year (doe : Z) :
  0 <= doe < 146097 ->
  let yoe := (doe - doe / 1460 + doe / 36524 - doe / 146096) / 365 in
  let doy := doe - (365 * yoe + yoe / 4 - yoe / 100) in
  0 <= yoe < 400 /\ 0 <= doy <= 365 /\ (doy = 365 -> is_leap (yoe + 1) = true).
Proof.
  intros Hd. cbv zeta.
  split; [Z.div_mod_to_equations; lia|].
  split; [Z.div_mod_to_equations; lia|].
  intros Hdoy. apply is_leap_spec. revert Hdoy. Z.div_mod_to_equations. lia.
Qed.


Lemma days_in_month_bounds (y m : Z) :
  days_in_month 1 m <= days_in_month y m <= days_in_month 0 m
  /\ (m <> 2 \/ is_leap y = false -> days_in_month y m = days_in_month 1 m)
  /\ (is_leap y = true -> days_in_month y m = days_in_month 0 m).
Proof.
  unfold days_in_month. change (is_leap 0) with true. change (is_leap 1) with false.
  destruct (m =? 2) eqn:Hm; [apply Z.eqb_eq in Hm|apply Z.eqb_neq in Hm].
  - destruct (is_leap y); repeat split; try lia; intros [?|?]; congruence.
  - repeat split; lia.
Qed.

Lemma valid_date_inv (y m d : Z) :
  valid_date y m d = true <-> 1 <= m <= 12 /\ 1 <= d <= days_in_month y m.
Proof.
  unfold valid_date. rewrite !andb_true_iff, !Z.leb_le. tauto.
Qed.

Lemma days_in_month_le_31 (y m : Z) : days_in_month y m <= 31.
Proof.
  unfold days_in_month.
  destruct (m =? 2); [destruct (is_leap y); lia|].
  destruct ((m =? 4) || (m =? 6) || (m =? 9) || (m =? 11)); lia.
Qed.

(** The day number of a date of the year [yoe] of the era [era],
    counted from March. *)
Lemma days_from_civil_era (era yoe m d : Z) :
  0 <= yoe < 400 ->
  days_from_civil (if m <=? 2 then yoe + era * 400 + 1 else yoe + era * 400) m d
  = era * 146097
    + (yoe * 365 + yoe / 4 - yoe / 100
       + ((153 * (if 2 <? m then m - 3 else m + 9) + 2) / 5 + d - 1))
    - 719468.
Proof.
  intros Hy. unfold days_from_civil.
  assert (Hy' : (if m <=? 2
                 then (if m <=? 2 then yoe + era * 400 + 1 else yoe + era * 400) - 1
                 else (if m <=? 2 then yoe + era * 400 + 1 else yoe + era * 400))
                = yoe + era * 400).
  { destruct (m <=? 2); lia. }
  rewrite Hy'. cbv zeta.
  rewrite Z.div_add, (Z.div_small yoe 400) by lia.
  replace (yoe + era * 400 - (0 + era) * 400) with yoe by lia. lia.
Qed.

(** The date of a day of the era [era]. *)
Lemma civil_from_days_era (era doe : Z) :
  0 <= doe < 146097 ->
  civil_from_days (era * 146097 + doe - 719468)
  = (let yoe := (doe - doe / 1460 + doe / 36524 - doe / 146096) / 365 in
     let doy := doe - (365 * yoe + yoe / 4 - yoe / 100) in
     let mp := (5 * doy + 2) / 153 in
     let m := if mp <? 10 then mp + 3 else mp - 9 in
     (if m <=? 2 then yoe + era * 400 + 1 else yoe + era * 400,
      m, doy - (153 * mp + 2) / 5 + 1)).
Proof.
  intros Hd. unfold civil_from_days.
  replace (era * 146097 + doe - 719468 + 719468) with (doe + era * 146097) by lia.
  rewrite Z.div_add, (Z.div_small doe 146097) by lia.
  replace (doe + era * 146097 - (0 + era) * 146097) with doe by lia.
  reflexivity.
Qed.

(** Day number and calendar date are inverse on every valid date. *)
Lemma civil_roundtrip (y m d : Z) :
  valid_date y m d = true -> civil_from_days (days_from_civil y m d) = (y, m, d).
Proof.
  intros Hv. pose proof Hv as Hv'. apply valid_date_inv in Hv'. destruct Hv' as [Hm Hd].
  pose proof (days_in_month_bounds y m) as (Hb & Hnl & Hl).
  pose proof (days_in_month_le_31 y m) as H31.
  assert (Hv0 : valid_date 0 m d = true) by (apply valid_date_inv; lia).
  pose proof month_day_check as Hc.
  rewrite forallb_forall in Hc. specialize (Hc m (in_range 1 12 m ltac:(lia))).
  rewrite forallb_forall in Hc. specialize (Hc d (in_range 1 31 d ltac:(lia))).
  rewrite Hv0 in Hc. cbn [implb] in Hc. cbv zeta in Hc.
  set (mm := if 2 <? m then m - 3 else m + 9) in *.
  set (doy := (153 * mm + 2) / 5 + d - 1) in *.
  apply andb_true_iff in Hc. destruct Hc as [Hc Hfeb].
  apply andb_true_iff in Hc. destruct Hc as [Hc Hmp].
  apply andb_true_iff in Hc. destruct Hc as [Hlo Hhi].
  apply Z.leb_le in Hlo, Hhi. apply Z.eqb_eq in Hmp.
  set (y' := if m <=? 2 then y - 1 else y).
  pose proof (Z.div_mod y' 400 ltac:(lia)) as Hy'.
  pose proof (Z.mod_pos_bound y' 400 ltac:(lia)) as Hyoe.
  set (era := y' / 400) in *. set (yoe := y' mod 400) in *.
  assert (Hy : y = if m <=? 2 then yoe + era * 400 + 1 else yoe + era * 400).
  { subst y'. destruct (m <=? 2); lia. }
  assert (Hleap : doy = 365 -> is_leap (yoe + 1) = true).
  { intros H365. apply Z.eqb_eq in H365. rewrite H365 in Hfeb. cbn [implb] in Hfeb.
    apply andb_true_iff in Hfeb. destruct Hfeb as [Hm2 Hd29].
    apply Z.eqb_eq in Hm2, Hd29.
    assert (Hly : is_leap y = true).
    { destruct (is_leap y) eqn:Hly; [reflexivity|].
      rewrite (Hnl (or_intror eq_refl)), Hm2, Hd29 in Hd. cbn in Hd. lia. }
    assert (Hyy : y = yoe + 1 + 400 * era).
    { pose proof Hy as Hy2. rewrite Hm2 in Hy2.
      change (2 <=? 2) with true in Hy2. cbv iota in Hy2. lia. }
    rewrite Hyy, is_leap_shift in Hly. exact Hly. }
  destruct (year_of_era_inverse yoe doy Hyoe (conj Hlo Hhi) Hleap) as [Hdoe Hyear].
  rewrite Hy at 1. rewrite days_from_civil_era by exact Hyoe.
  fold mm. fold doy.
  rewrite civil_from_days_era by exact Hdoe. cbv zeta.
  rewrite Hyear.
  replace (yoe * 365 + yoe / 4 - yoe / 100 + doy - (365 * yoe + yoe / 4 - yoe / 100))
    with doy by lia.
  rewrite Hmp.
  assert (Hmonth : (if mm <? 10 then mm + 3 else mm - 9) = m).
  { subst mm. destruct (2 <? m) eqn:H2; [apply Z.ltb_lt in H2|apply Z.ltb_ge in H2].
    - destruct (m - 3 <? 10) eqn:H10; [lia|apply Z.ltb_ge in H10; lia].
    - destruct (m + 9 <? 10) eqn:H10; [apply Z.ltb_lt in H10; lia|lia]. }
  rewrite Hmonth, <- Hy. f_equal. subst doy. lia.
Qed.

(** Every day number is the day number of the valid date it is
    converted to. *)
Lemma days_roundtrip (z : Z) :
  let '(y, m, d) := civil_from_days z in
  days_from_civil y m d = z /\ valid_date y m d = true.
Proof.
  pose proof (Z.div_mod (z + 719468) 146097 ltac:(lia)) as Hz.
  pose proof (Z.mod_pos_bound (z + 719468) 146097 ltac:(lia)) as Hdoe.
  set (era := (z + 719468) / 146097) in *. set (doe := (z + 719468) mod 146097) in *.
  replace z with (era * 146097 + doe - 719468) by lia.
  rewrite civil_from_days_era by exact Hdoe. cbv zeta.
  destruct (day_of_era_year doe Hdoe) as (Hyoe & Hdoy & Hleap).
  set (yoe := (doe - doe / 1460 + doe / 36524 - doe / 146096) / 365) in *.
  set (doy := doe - (365 * yoe + yoe / 4 - yoe / 100)) in *.
  pose proof day_of_year_check as Hc.
  rewrite forallb_forall in Hc. specialize (Hc doy (in_range 0 366 doy ltac:(lia))).
  cbv zeta in Hc.
  set (mp := (5 * doy + 2) / 153) in *.
  set (m := if mp <? 10 then mp + 3 else mp - 9) in *.
  set (d := doy - (153 * mp + 2) / 5 + 1) in *.
  apply andb_true_iff in Hc. destruct Hc as [Hmp Hvalid]. apply Z.eqb_eq in Hmp.
  split.
  - rewrite days_from_civil_era by exact Hyoe. rewrite <- Hmp. subst d doy. lia.
  - destruct (doy =? 365) eqn:H365.
    + apply Z.eqb_eq in H365. specialize (Hleap H365).
      apply andb_true_iff in Hvalid. destruct Hvalid as [Hm2 Hd29].
      apply Z.eqb_eq in Hm2, Hd29. rewrite Hm2, Hd29.
      cbn [Z.leb Z.compare Pos.compare Pos.compare_cont].
      apply valid_date_inv. split; [lia|].
      pose proof (days_in_month_bounds (yoe + era * 400 + 1) 2) as (_ & _ & Hl).
      rewrite Hl; [cbn; lia|].
      replace (yoe + era * 400 + 1) with (yoe + 1 + 400 * era) by lia.
      now rewrite is_leap_shift.
    + apply valid_date_inv in Hvalid. destruct Hvalid as [Hm Hd].
      apply valid_date_inv. split; [exact Hm|].
      pose proof (days_in_month_bounds
                    (if m <=? 2 then yoe + era * 400 + 1 else yoe + era * 400) m)
        as (Hb & _). lia.
Qed.

End CalendarFacts.

(** X20. On a server whose local time is UTC or ahead of it by less
    than a day, the age refinement is exact on date-only input: a date of
    birth that [new Date] reads as midnight UTC of the valid date
    (y, m, d) is taken for an adult exactly when the eighteenth birthday
    (y + 18, m, d) is not after the server's local date. *)
Theorem dob_adult_exact_east_of_utc
    (rt : Runtime) (val : string) (y m d : Z) :
  new_Date rt val = Some (days_from_civil y m d * msPerDay) ->
  valid_date y m d = true ->
  (forall t, 0 <= LocalTZA rt t < msPerDay) ->
  local_fields (LocalTZA rt) (days_from_civil y m d * msPerDay) = (y, m, d)
  /\ (dob_adult rt val = true
      <-> let '(ty, tm, td) := local_fields (LocalTZA rt) (Date_now rt) in
          eighteenth_birthday_reached ty tm td y m d).
Proof.
  intros Hparse Hvalid Htz.
  assert (Hlocal : local_fields (LocalTZA rt) (days_from_civil y m d * msPerDay)
                   = (y, m, d)).
  { unfold local_fields.
    replace ((days_from_civil y m d * msPerDay
              + LocalTZA rt (days_from_civil y m d * msPerDay)) / msPerDay)
      with (days_from_civil y m d); [now apply civil_roundtrip|].
    pose proof (Htz (days_from_civil y m d * msPerDay)) as Ht.
    unfold msPerDay in *.
    apply Z.div_unique with (r := LocalTZA rt (days_from_civil y m d * 86400000));
      lia. }
  split; [exact Hlocal|].
  unfold dob_adult. rewrite Hparse. unfold computed_age, getFullYear, getMonth, getDate.
  rewrite Hlocal.
  destruct (local_fields (LocalTZA rt) (Date_now rt)) as [[ty tm] td].
  rewrite age_from_fields_adult_iff. unfold eighteenth_birthday_reached. lia.
Qed.

Lemma dob_adult_exact_east_of_utc_witness :
  dob_adult Fixture.utc_runtime "2008-11-02" = true
  <-> eighteenth_birthday_reached 2026 11 1 2008 11 2.
Proof.
  destruct (dob_adult_exact_east_of_utc Fixture.utc_runtime "2008-11-02" 2008 11 2)
    as [_ Hiff].
  - reflexivity.
  - reflexivity.
  - intros t. cbn. unfold msPerDay. lia.
  - exact Hiff.
Defined.

(** X21. On a server whose local time is behind UTC by up to a day, the
    local getters see a date-only date of birth as the day before: the
    refinement takes it for an adult exactly when the eighteenth birthday
    of the previous calendar day (the valid date whose day number is one
    less) is not after the server's local date. *)
Theorem dob_adult_one_day_early_west_of_utc
    (rt : Runtime) (val : string) (y m d : Z) :
  new_Date rt val = Some (days_from_civil y m d * msPerDay) ->
  (forall t, - msPerDay <= LocalTZA rt t < 0) ->
  let '(py, pm, pd) := civil_from_days (days_from_civil y m d - 1) in
  days_from_civil py pm pd = days_from_civil y m d - 1
  /\ valid_date py pm pd = true
  /\ local_fields (LocalTZA rt) (days_from_civil y m d * msPerDay) = (py, pm, pd)
  /\ (dob_adult rt val = true
      <-> let '(ty, tm, td) := local_fields (LocalTZA rt) (Date_now rt) in
          eighteenth_birthday_reached ty tm td py pm pd).
Proof.
  intros Hparse Htz.
  pose proof (days_roundtrip (days_from_civil y m d - 1)) as Hprev.
  assert (Hlocal : local_fields (LocalTZA rt) (days_from_civil y m d * msPerDay)
                   = civil_from_days (days_from_civil y m d - 1)).
  { unfold local_fields. f_equal.
    pose proof (Htz (days_from_civil y m d * msPerDay)) as Ht.
    unfold msPerDay in *. symmetry.
    apply Z.div_unique
      with (r := 86400000 + LocalTZA rt (days_from_civil y m d * 86400000)); lia. }
  destruct (civil_from_days (days_from_civil y m d - 1)) as [[py pm] pd].
  destruct Hprev as [Hday Hvalid].
  split; [exact Hday|]. split; [exact Hvalid|]. split; [exact Hlocal|].
  unfold dob_adult. rewrite Hparse. unfold computed_age, getFullYear, getMonth, getDate.
  rewrite Hlocal.
  destruct (local_fields (LocalTZA rt) (Date_now rt)) as [[ty tm] td].
  rewrite age_from_fields_adult_iff. unfold eighteenth_birthday_reached. lia.
Qed.

Lemma dob_adult_one_day_early_west_of_utc_witness :
  local_fields (LocalTZA Fixture.west_runtime) (days_from_civil 2008 11 2 * msPerDay)
  = (2008, 11, 1)
  /\ (dob_adult Fixture.west_runtime "2008-11-02" = true
      <-> eighteenth_birthday_reached 2026 11 1 2008 11 1).
Proof.
  pose proof (dob_adult_one_day_early_west_of_utc Fixture.west_runtime "2008-11-02"
                2008 11 2 eq_refl) as Hw.
  cbv beta iota zeta delta [civil_from_days days_from_civil] in Hw.
  destruct Hw as (_ & _ & Hlocal & Hiff).
  - intros t. cbn. unfold msPerDay. lia.
  - split; [exact Hlocal|exact Hiff].
Defined.

(** ** Listing accounts *)

(** X22. [getAccounts] returns the accounts of the caller and no
    others, and changes nothing; after a
    [createAccount] that succeeded it returns what it returned before
    followed by the new account. *)
Theorem getAccounts_lists_own_accounts
    {num : Type} `{JsNumber num} (u : User) (w : World num) :
  (exists l,
      getAccounts u w = (inr l, w)
      /\ (forall a, In a l <-> In a (accounts (db w)) /\ account_userId a = user_id u))
  /\ (forall ty draws account w',
        createAccount u ty draws w = Some (inr account, w') ->
        forall l, getAccounts u w = (inr l, w) ->
                  getAccounts u w' = (inr (l ++ [account])%list, w')).
Proof.
  split.
  - eexists. split; [reflexivity|].
    intros a. rewrite filter_In. now rewrite Z.eqb_eq.
  - intros ty draws account w' Hrun l Hl.
    unfold getAccounts, Trpc.query in *. injection Hl as <-.
    destruct (account_of_type (db w) (user_id u) ty) as [held|] eqn:Hty.
    { unfold createAccount in Hrun. rewrite Hty in Hrun. discriminate. }
    destruct (unique_account_number (db w) draws) as [n|] eqn:Hn.
    2:{ unfold createAccount in Hrun. rewrite Hty, Hn in Hrun. discriminate. }
    rewrite (createAccount_with_number u ty draws w n Hty Hn) in Hrun.
    injection Hrun as <- <-. cbn [db accounts].
    rewrite filter_app. cbn [filter account_userId]. now rewrite Z.eqb_refl.
Qed.
